(** * UK Government technology standards catalogue: content classifier,
      document store and hybrid ranker

    A shallow embedding of [ContentProcessor] (scraper/content-processor.ts)
    and [DatabaseManager] (database/manager.ts, with database/schema.sql),
    followed by the properties of the specification checked against it.

    Modelling conventions.
    - A JavaScript string is a [string], a sequence of code units below 256
      (the Latin-1 range, in which the catalogue is written).  [length] is
      the JavaScript [.length]; case mapping, white space and the character
      classes of the regular expressions are those of JavaScript on that
      range.
    - A JavaScript number that carries a relevance score is a rational [Q]:
      the arithmetic of the source is kept operation by operation, rounding
      and the non-finite doubles are outside the model.  Counters and
      sentence scores are integers ([nat], [Z]).
    - A [Date] is its time value, an integer number of milliseconds.  The
      text of CURRENT_TIMESTAMP in a DATETIME column is a [Timestamp].
    - [undefined]/[null] is [None]; a thrown exception is [Err]. *)

From Stdlib Require Import String Ascii List ZArith QArith Qabs Bool Lia Arith.
From Stdlib Require Import Sorted Permutation OrderedTypeEx.
Import ListNotations.

Local Open Scope list_scope.
Local Open Scope string_scope.
Local Open Scope nat_scope.

(* ================================================================== *)
(** * Part I: definitions                                              *)
(* ================================================================== *)

(** ** The fragment of the JavaScript standard library the code uses *)

Module JS.

Definition Date := Z.

(** The text [YYYY-MM-DD HH:MM:SS] that SQLite writes for CURRENT_TIMESTAMP:
    the date and the time of day in UTC, to the second, without a zone.  It
    is kept as the number of seconds from the epoch to that date and time in
    UTC. *)
Definition Timestamp := Z.

(** CURRENT_TIMESTAMP at the time [now]. *)
Definition currentTimestamp (now : Date) : Timestamp := (now / 1000)%Z.

(** Thrown values: only the [message] of an error is ever inspected. *)
Record Error := mkError { message : string }.

Inductive Result (A : Type) : Type :=
| Ok (a : A)
| Err (e : Error).
Arguments Ok {A} a.
Arguments Err {A} e.

(** The value of a result, or a default. *)
Definition valueOr {A} (r : Result A) (d : A) : A :=
  match r with
  | Ok a => a
  | Err _ => d
  end.

Definition code (c : ascii) : nat := nat_of_ascii c.

Definition is_upper (c : ascii) : bool := (65 <=? code c) && (code c <=? 90).
Definition is_lower (c : ascii) : bool := (97 <=? code c) && (code c <=? 122).
Definition is_digit (c : ascii) : bool := (48 <=? code c) && (code c <=? 57).

(** [\s], and what [trim] removes: tab, line feed, vertical tab, form feed,
    carriage return, space, no-break space. *)
Definition is_space (c : ascii) : bool :=
  ((9 <=? code c) && (code c <=? 13)) || (code c =? 32) || (code c =? 160).

(** [\w] is [[A-Za-z0-9_]]. *)
Definition is_word (c : ascii) : bool :=
  is_upper c || is_lower c || is_digit c || (code c =? 95).

(** The capital letters: A to Z, and the accented capitals but the
    multiplication sign that sits among them. *)
Definition is_capital (c : ascii) : bool :=
  is_upper c
  || ((192 <=? code c) && (code c <=? 222) && negb (code c =? 215)).

Definition lower_char (c : ascii) : ascii :=
  if is_capital c then ascii_of_nat (code c + 32) else c.

(** [String.prototype.toLowerCase]. *)
Fixpoint toLowerCase (s : string) : string :=
  match s with
  | EmptyString => EmptyString
  | String c s' => String (lower_char c) (toLowerCase s')
  end.

(** [s.includes(t)]: [t] occurs in [s] as a contiguous substring. *)
Fixpoint includes (s t : string) : bool :=
  String.prefix t s ||
  match s with
  | EmptyString => false
  | String _ s' => includes s' t
  end.

Fixpoint trimStart (s : string) : string :=
  match s with
  | EmptyString => EmptyString
  | String c s' => if is_space c then trimStart s' else s
  end.

Fixpoint trimEnd (s : string) : string :=
  match s with
  | EmptyString => EmptyString
  | String c s' =>
      match trimEnd s' with
      | EmptyString => if is_space c then EmptyString else String c EmptyString
      | t => String c t
      end
  end.

(** [String.prototype.trim]. *)
Definition trim (s : string) : string := trimEnd (trimStart s).

(** [s.substring(0, n)] for [0 <= n]. *)
Definition substring0 (n : nat) (s : string) : string := String.substring 0 n s.

(** [s.replace(/[class]/g, '')] keeps the characters outside the class. *)
Fixpoint remove_chars (cls : ascii -> bool) (s : string) : string :=
  match s with
  | EmptyString => EmptyString
  | String c s' =>
      if cls c then remove_chars cls s' else String c (remove_chars cls s')
  end.

(** [s.replace(/[class]/g, r)] for a one-character replacement [r]. *)
Fixpoint replace_chars (cls : ascii -> bool) (r : ascii) (s : string) : string :=
  match s with
  | EmptyString => EmptyString
  | String c s' => String (if cls c then r else c) (replace_chars cls r s')
  end.

(** [s.split(/[class]+/)]: the pieces between maximal runs of separator
    characters; a leading or trailing run leaves an empty piece, and the
    empty string splits into one empty piece.  [split_aux] returns the
    piece under construction and the pieces after it; [in_run] tells that
    the previous character was a separator. *)
Fixpoint split_aux (sep : ascii -> bool) (s : string) (in_run : bool)
  : string * list string :=
  match s with
  | EmptyString => (EmptyString, [])
  | String c s' =>
      if sep c then
        if in_run then split_aux sep s' true
        else let (t, ts) := split_aux sep s' true in (EmptyString, t :: ts)
      else let (t, ts) := split_aux sep s' false in (String c t, ts)
  end.

Definition split_runs (sep : ascii -> bool) (s : string) : list string :=
  let (t, ts) := split_aux sep s false in t :: ts.

(** [s.split(c)] for a one-character separator string: every occurrence
    separates, so consecutive separators leave empty pieces. *)
Fixpoint split_char_aux (sep : ascii) (s : string) : string * list string :=
  match s with
  | EmptyString => (EmptyString, [])
  | String c s' =>
      let (t, ts) := split_char_aux sep s' in
      if Ascii.eqb c sep then (EmptyString, t :: ts) else (String c t, ts)
  end.

Definition split_char (sep : ascii) (s : string) : list string :=
  let (t, ts) := split_char_aux sep s in t :: ts.

(** [!s] on a string: true exactly for the empty string. *)
Definition falsyString (s : string) : bool := String.eqb s EmptyString.

(** [arr.includes(x)] on an array of strings. *)
Definition array_includes (l : list string) (x : string) : bool :=
  existsb (String.eqb x) l.

(** A [Set<string>] keeps its elements in insertion order; [add] of a
    member changes nothing. *)
Definition set_add (s : list string) (x : string) : list string :=
  if array_includes s x then s else (s ++ [x])%list.

(** [arr.slice(0, end)]: a negative [end] counts from the end of the array. *)
Definition slice0 {A} (end_ : Z) (l : list A) : list A :=
  if (end_ <? 0)%Z
  then firstn (Z.to_nat (Z.of_nat (List.length l) + end_)) l
  else firstn (Z.to_nat end_) l.

(** [arr.sort(cmp)] is a stable sort.  [before x y] is [cmp(x, y) <= 0]:
    [x] may stay in front of [y].  For a comparator that is a total
    preorder the stable sorted arrangement is unique, and this insertion
    sort computes it: an element is put in front of the first element it
    may precede, so equal elements keep their order. *)
Section Sort.
Context {A : Type} (before : A -> A -> bool).

Fixpoint insert_sorted (x : A) (l : list A) : list A :=
  match l with
  | [] => [x]
  | y :: l' => if before x y then x :: y :: l' else y :: insert_sorted x l'
  end.

Definition sort (l : list A) : list A := fold_right insert_sorted [] l.
End Sort.

(** [JSON.stringify] of a string: quotes, with the two-character escapes
    and [\u00XX] for the other control characters. *)
Definition hex_digit (n : nat) : ascii :=
  if n <? 10 then ascii_of_nat (48 + n) else ascii_of_nat (87 + n).

Definition dquote : ascii := ascii_of_nat 34.
Definition backslash : ascii := ascii_of_nat 92.
Definition esc (c : string) : string := String backslash c.

Definition json_escape_char (c : ascii) : string :=
  let n := code c in
  if n =? 34 then esc (String dquote EmptyString)
  else if n =? 92 then esc (String backslash EmptyString)
  else if n =? 8 then esc "b"
  else if n =? 9 then esc "t"
  else if n =? 10 then esc "n"
  else if n =? 12 then esc "f"
  else if n =? 13 then esc "r"
  else if n <? 32 then
    esc ("u00" ++ String (hex_digit (n / 16))
                    (String (hex_digit (n mod 16)) EmptyString))
  else String c EmptyString.

Fixpoint json_escape (s : string) : string :=
  match s with
  | EmptyString => EmptyString
  | String c s' => json_escape_char c ++ json_escape s'
  end.

Definition json_quote (s : string) : string :=
  String dquote (json_escape s ++ String dquote EmptyString).

(** [JSON.stringify] of an array of strings. *)
Definition JSON_stringify (l : list string) : string :=
  "[" ++ String.concat "," (map json_quote l) ++ "]".

End JS.

(** ** The documents (types/standard.ts) *)

Inductive ComplianceLevel : Type := mandatory | recommended | optional.

(** A page as the crawler delivers it. *)
Module ScrapedPage.
Record t : Type := mk {
  url : string;
  title : string;
  content : string;
  lastModified : option JS.Date;
  category : string;
  sourceOrg : option string;
  links : list string
}.
End ScrapedPage.

(** A catalogued standard. *)
Module Standard.
Record t : Type := mk {
  id : string;
  title : string;
  category : string;
  url : string;
  content : string;
  summary : option string;
  lastUpdated : option JS.Date;
  sourceOrg : option string;
  tags : list string;
  complianceLevel : option ComplianceLevel;
  relatedStandards : list string;
  createdAt : JS.Date;
  updatedAt : JS.Date
}.
End Standard.

(** The platform functions the code calls: the WHATWG URL parser
    ([new URL(u).pathname], [None] when the constructor throws), the MD5
    digest in hexadecimal ([createHash('md5').update(u).digest('hex')]) and
    the time zone of the process. *)
Class Platform : Type := {
  URL_pathname : string -> option string;
  md5_hex : string -> string;
  (** [JSON.parse] of a text that is read as an array of strings; [Err] is
      the [SyntaxError] it throws. *)
  JSON_parse : string -> JS.Result (list string);
  (** The minutes by which the local zone is behind UTC when its clocks show
      the date and time of the text, as [getTimezoneOffset] counts them: 0 in
      UTC, 300 in New York in winter. *)
  timezoneOffset : JS.Timestamp -> Z
}.

(** [new Date(text)] on a text [YYYY-MM-DD HH:MM:SS].  The text names no
    zone and is not in the ISO format, and V8 reads it as local time: the
    time value is a whole number of seconds, that of the text read as UTC
    moved by the offset of the local zone. *)
Definition Date_parse {runtime : Platform} (text : JS.Timestamp) : JS.Date :=
  ((text + 60 * timezoneOffset text) * 1000)%Z.

(** ** scraper/content-processor.ts *)

Module ContentProcessor.
Import JS.

Definition technicalTerms : list string :=
  [ "api"; "rest"; "soap"; "graphql"; "json"; "xml";
    "oauth"; "jwt"; "https"; "ssl"; "tls";
    "gdpr"; "data protection"; "privacy";
    "cloud"; "aws"; "azure"; "saas"; "paas"; "iaas";
    "security"; "cyber security"; "malware"; "phishing";
    "accessibility"; "wcag"; "screen reader";
    "agile"; "scrum"; "devops"; "ci/cd";
    "open source"; "open data"; "open standards";
    "docker"; "kubernetes"; "microservices" ].

Definition govTerms : list string :=
  [ "gds"; "cabinet office"; "ncsc"; "hmrc"; "dvla";
    "digital service standard"; "government digital service";
    "public sector"; "civil service"; "whitehall";
    "transparency"; "open government"; "digital by default" ].

Definition complianceTerms : list string :=
  [ "iso 27001"; "pci dss"; "sox"; "hipaa";
    "mandatory"; "recommended"; "optional";
    "compliance"; "audit"; "assessment";
    "risk management"; "governance" ].

Definition mandatoryIndicators : list string :=
  [ "must"; "shall"; "required"; "mandatory"; "obligation";
    "compulsory"; "essential"; "critical requirement" ].

Definition recommendedIndicators : list string :=
  [ "should"; "recommended"; "best practice"; "advised";
    "suggested"; "good practice"; "guideline" ].

Definition optionalIndicators : list string :=
  [ "may"; "can"; "optional"; "consider"; "might";
    "could"; "possible"; "alternative" ].

Definition keyTerms : list string :=
  [ "standard"; "requirement"; "must"; "should"; "guidance";
    "policy"; "procedure"; "compliance"; "security"; "api";
    "data"; "service"; "digital"; "technology"; "government" ].

Definition stopWords : list string :=
  [ "this"; "that"; "with"; "have"; "will"; "from"; "they"; "know";
    "want"; "been"; "good"; "much"; "some"; "time"; "very"; "when";
    "come"; "here"; "just"; "like"; "long"; "make"; "many"; "over";
    "such"; "take"; "than"; "them"; "well"; "were"; "government" ].

Definition is_slash (c : ascii) : bool := code c =? 47.
Definition is_hyphen (c : ascii) : bool := code c =? 45.

(** [/[^a-zA-Z0-9-]/]. *)
Definition not_slug_char (c : ascii) : bool :=
  negb (is_lower c || is_upper c || is_digit c || is_hyphen c).

(** [.replace(/^\//, '')]. *)
Definition strip_leading_slash (s : string) : string :=
  match s with
  | String c s' => if is_slash c then s' else s
  | EmptyString => s
  end.

Section Classifier.
Context {runtime : Platform}.

Definition generateStandardId (url : string) : Result string :=
  match URL_pathname url with
  | None => Err (mkError "Invalid URL")
  | Some urlPath =>
      let cleanPath :=
        toLowerCase
          (remove_chars not_slug_char
             (replace_chars is_slash "-" (strip_leading_slash urlPath))) in
      let hash := substring0 8 (md5_hex url) in
      Ok (cleanPath ++ "-" ++ hash)
  end.

(** One [terms.forEach(term => { if (text.includes(term)) tags.add(term) })]. *)
Definition add_terms (text : string) (tags terms : list string) : list string :=
  fold_left
    (fun tags term => if includes text term then set_add tags term else tags)
    terms tags.

Definition extractTags (title content : string) : list string :=
  let text := toLowerCase (title ++ " " ++ content) in
  let tags := add_terms text [] technicalTerms in
  let tags := add_terms text tags govTerms in
  let tags := add_terms text tags complianceTerms in
  firstn 20 tags.

(** [indicators.filter(term => contentLower.includes(term)).length]. *)
Definition indicatorCount (contentLower : string) (indicators : list string) : nat :=
  List.length (filter (fun term => includes contentLower term) indicators).

Definition determineComplianceLevel (content : string) : option ComplianceLevel :=
  let contentLower := toLowerCase content in
  let mandatoryCount := indicatorCount contentLower mandatoryIndicators in
  let recommendedCount := indicatorCount contentLower recommendedIndicators in
  let optionalCount := indicatorCount contentLower optionalIndicators in
  if (recommendedCount <? mandatoryCount) && (optionalCount <? mandatoryCount)
  then Some mandatory
  else if optionalCount <? recommendedCount then Some recommended
  else if 0 <? optionalCount then Some optional
  else None.

(** [/[.!?]/]. *)
Definition is_terminator (c : ascii) : bool :=
  (code c =? 46) || (code c =? 33) || (code c =? 63).

Record Scored : Type := mkScored { sentence : string; score : Z }.

Definition scoreSentence (index : nat) (sentence : string) : Scored :=
  let sentenceLower := toLowerCase sentence in
  let score := Z.max 0 (10 - Z.of_nat index) in
  let score :=
    fold_left
      (fun score term => if includes sentenceLower term then (score + 2)%Z else score)
      keyTerms score in
  let words := List.length (split_char " " sentence) in
  let score := if (10 <=? words) && (words <=? 30) then (score + 3)%Z else score in
  mkScored (trim sentence) score.

(** [arr.map((x, index) => f(index, x))]. *)
Fixpoint mapi_from {A B} (f : nat -> A -> B) (index : nat) (l : list A) : list B :=
  match l with
  | [] => []
  | x :: l' => f index x :: mapi_from f (S index) l'
  end.

Definition generateSummary (content : string) (maxLength : nat) : string :=
  let sentences :=
    filter (fun s => 10 <? String.length (trim s)) (split_runs is_terminator content) in
  match sentences with
  | [] => EmptyString
  | _ =>
      let scoredSentences := mapi_from scoreSentence 0 sentences in
      let topSentences :=
        map sentence
          (firstn 3
             (JS.sort (fun a b => (score b <=? score a)%Z) scoredSentences)) in
      let summary := String.concat ". " topSentences ++ "." in
      if maxLength <? String.length summary
      then substring0 (maxLength - 3) summary ++ "..."
      else summary
  end.

Definition processScrapedPage (createdNow updatedNow : Date) (scrapedPage : ScrapedPage.t)
  : Result Standard.t :=
  match generateStandardId (ScrapedPage.url scrapedPage) with
  | Err e => Err e
  | Ok id =>
      let tags := extractTags (ScrapedPage.title scrapedPage) (ScrapedPage.content scrapedPage) in
      let complianceLevel := determineComplianceLevel (ScrapedPage.content scrapedPage) in
      let summary := generateSummary (ScrapedPage.content scrapedPage) 500 in
      Ok {| Standard.id := id;
            Standard.title := ScrapedPage.title scrapedPage;
            Standard.category := ScrapedPage.category scrapedPage;
            Standard.url := ScrapedPage.url scrapedPage;
            Standard.content := ScrapedPage.content scrapedPage;
            Standard.summary := Some summary;
            Standard.lastUpdated := ScrapedPage.lastModified scrapedPage;
            Standard.sourceOrg := ScrapedPage.sourceOrg scrapedPage;
            Standard.tags := tags;
            Standard.complianceLevel := complianceLevel;
            Standard.relatedStandards := [];
            Standard.createdAt := createdNow;
            Standard.updatedAt := updatedNow |}
  end.

Definition extractKeywords (text : string) : list string :=
  let words :=
    filter (fun word => 3 <? String.length word)
      (map (fun word => toLowerCase (remove_chars (fun c => negb (is_word c)) word))
         (split_runs is_space text)) in
  filter (fun word => negb (array_includes stopWords word)) words.

(** The text of a standard that is compared for keyword overlap. *)
Definition textOf (s : Standard.t) : string :=
  toLowerCase
    (Standard.title s ++ " " ++ Standard.content s ++ " "
       ++ String.concat " " (Standard.tags s)).

(** The body of [allStandards.forEach(otherStandard => ...)], threading the
    [related] set. *)
Definition relatedStep (standard : Standard.t) (standardText : string)
  (related : list string) (otherStandard : Standard.t) : list string :=
  if String.eqb (Standard.id otherStandard) (Standard.id standard) then related
  else
    let otherText := textOf otherStandard in
    let commonTags :=
      filter (fun tag => array_includes (Standard.tags otherStandard) tag)
        (Standard.tags standard) in
    let related :=
      if 2 <=? List.length commonTags
      then set_add related (Standard.id otherStandard) else related in
    let related :=
      if String.eqb (Standard.category standard) (Standard.category otherStandard)
         && (List.length related <? 10)
      then set_add related (Standard.id otherStandard) else related in
    let keywords := extractKeywords standardText in
    let otherKeywords := extractKeywords otherText in
    let commonKeywords := filter (fun kw => array_includes otherKeywords kw) keywords in
    if 3 <=? List.length commonKeywords
    then set_add related (Standard.id otherStandard) else related.

Definition findRelatedStandards (standard : Standard.t) (allStandards : list Standard.t)
  : list string :=
  let standardText := textOf standard in
  firstn 10 (fold_left (relatedStep standard standardText) allStandards []).

Definition isValidUrl (url : string) : bool :=
  match URL_pathname url with
  | Some _ => true
  | None => false
  end.

Record Validation : Type := mkValidation { valid : bool; errors : list string }.

Definition validateStandard (standard : Standard.t) : Validation :=
  let errors := [] in
  let errors :=
    if falsyString (Standard.id standard) || (String.length (trim (Standard.id standard)) =? 0)
    then (errors ++ ["Standard ID is required"])%list else errors in
  let errors :=
    if falsyString (Standard.title standard)
       || (String.length (trim (Standard.title standard)) =? 0)
    then (errors ++ ["Standard title is required"])%list else errors in
  let errors :=
    if falsyString (Standard.url standard) || negb (isValidUrl (Standard.url standard))
    then (errors ++ ["Valid URL is required"])%list else errors in
  let errors :=
    if falsyString (Standard.content standard)
       || (String.length (trim (Standard.content standard)) <? 50)
    then (errors ++ ["Standard content must be at least 50 characters long"])%list else errors in
  let errors :=
    if falsyString (Standard.category standard)
       || (String.length (trim (Standard.category standard)) =? 0)
    then (errors ++ ["Standard category is required"])%list else errors in
  mkValidation (List.length errors =? 0) errors.

End Classifier.
End ContentProcessor.


(** ** database/schema.sql: the rows of table [standards] *)

(** The TEXT columns [tags] and [related_standards] hold the JSON text of an
    array of strings; a row keeps the array, and the text is recomputed with
    [JS.JSON_stringify] where the code reads the column as text.  The column
    [last_updated] holds the ISO text that [toISOString] gives and keeps the
    time value; [created_at] and [updated_at] hold the text of
    CURRENT_TIMESTAMP. *)
Module Row.
Record t : Type := mk {
  id : string;
  title : string;
  category : string;
  url : string;
  content : string;
  summary : option string;
  last_updated : option JS.Date;
  source_org : option string;
  tags : option (list string);
  compliance_level : option ComplianceLevel;
  related_standards : option (list string);
  created_at : JS.Timestamp;
  updated_at : JS.Timestamp
}.
End Row.

(** The eleven bound parameters of the INSERT OR REPLACE of
    [insertStandard]. *)
Module InsertParams.
Record t : Type := mk {
  id : string;
  title : string;
  category : string;
  url : string;
  content : string;
  summary : option string;
  last_updated : option JS.Date;
  source_org : option string;
  tags : list string;
  compliance_level : option ComplianceLevel;
  related_standards : list string
}.
End InsertParams.

(** ** The SQL the manager issues *)

(** The conditions [searchStandards] pushes, with their bound parameter. *)
Inductive Cond : Type :=
| CategoryEq (category : string)      (* category = ? *)
| SourceOrgEq (organisation : string) (* source_org = ? *).

(** Statements passed to [all], indexed by the type of the rows they return.
    - [SelectStandards conds]:
      SELECT * FROM standards [WHERE conds joined by AND] ORDER BY title
    - [SelectFtsMatch query conds]:
      SELECT s.*, bm25(standards_fts) as score FROM standards s
      JOIN standards_fts ON s.id = standards_fts.id
      WHERE standards_fts MATCH ? [AND s.cond ...] ORDER BY score *)
Inductive Query : Type -> Type :=
| SelectStandards (conds : list Cond) : Query Row.t
| SelectFtsMatch (query : string) (conds : list Cond) : Query (Row.t * Q).

(** Statements passed to [run]. *)
Inductive Statement : Type :=
| InsertOrReplaceStandard (params : InsertParams.t)
| InsertOrReplaceCategoryCount (category : string).

(** Scripts passed to [exec] by [rebuildFTSIndex]. *)
Inductive Script : Type :=
| DropFts     (* DROP TABLE IF EXISTS standards_fts; *)
| CreateFts   (* CREATE VIRTUAL TABLE standards_fts USING fts5(...); *)
| RebuildFts  (* INSERT INTO standards_fts(standards_fts) VALUES("rebuild"); *).

(** ** services/vector-storage.ts: what [semanticSearch] returns *)

Module Metadata.
Record t : Type := mk {
  title : string;
  category : string;
  url : string;
  sourceOrg : string;
  complianceLevel : option ComplianceLevel;
  tags : string;                      (* JSON text *)
  lastUpdated : option JS.Date;
  createdAt : JS.Date
}.
End Metadata.

Module VectorResult.
Record t : Type := mk {
  id : string;
  score : Q;
  metadata : option Metadata.t;       (* a Chroma record may lack metadata *)
  document : string
}.
End VectorResult.

Module SemanticOptions.
Record t : Type := mk {
  limit : Z;
  category : option string;
  sourceOrg : option string;
  threshold : Q
}.
End SemanticOptions.

Module SearchResult.
Record t : Type := mk {
  standard : Standard.t;
  relevanceScore : Q;
  matchedFields : list string
}.
End SearchResult.

Module HybridOptions.
Record t : Type := mk {
  semanticWeight : option Q;
  semanticThreshold : option Q;
  maxResults : option Z
}.
End HybridOptions.

(** ** The two stores behind the manager

    [W] is the state of the outside world: the SQLite database file and the
    Chroma collection.  Every call is a transition of it that returns rows or
    fails with an error. *)
Class Backend (W : Type) : Type := {
  sqlite_all : forall R : Type, Query R -> W -> W * JS.Result (list R);
  sqlite_run : Statement -> W -> W * JS.Result unit;
  sqlite_exec : Script -> W -> W * JS.Result unit;
  vector_semanticSearch :
    string -> SemanticOptions.t -> W -> W * JS.Result (list VectorResult.t);
  vector_addStandard : Standard.t -> W -> W * JS.Result unit
}.
Arguments sqlite_all {W _ R} q w.

(** The calls made on the stores, in order. *)
Inductive Call : Type :=
| CallAll {R : Type} (q : Query R)
| CallRun (s : Statement)
| CallExec (s : Script)
| CallSemanticSearch (query : string) (options : SemanticOptions.t)
| CallAddStandard (standard : Standard.t).

(** ** database/manager.ts *)

Module DatabaseManager.
Import JS.

Section Manager.
Context {W : Type} {backend : Backend W} {runtime : Platform}.

Record State : Type := mkState { world : W; calls : list Call }.

(** A computation of the manager: it moves the world, records its calls and
    resolves with a value or rejects with an error. *)
Definition M (A : Type) : Type := State -> State * Result A.

Definition ret {A} (a : A) : M A := fun s => (s, Ok a).
Definition throw {A} (e : Error) : M A := fun s => (s, Err e).

Definition bind {A B} (m : M A) (k : A -> M B) : M B :=
  fun s =>
    match m s with
    | (s', Ok a) => k a s'
    | (s', Err e) => (s', Err e)
    end.

(** [try { m } catch (error) { handler(error) }]. *)
Definition try_catch {A} (m : M A) (handler : Error -> M A) : M A :=
  fun s =>
    match m s with
    | (s', Ok a) => (s', Ok a)
    | (s', Err e) => handler e s'
    end.

(** A pure step that may throw. *)
Definition lift {A} (r : Result A) : M A := fun s => (s, r).

Definition primitive {A} (c : Call) (step : W -> W * Result A) : M A :=
  fun s =>
    let (w, r) := step (world s) in
    (mkState w (calls s ++ [c]), r).

Notation "x <- m ;; k" := (bind m (fun x => k))
  (at level 61, m at next level, right associativity).
Notation "m ;;; k" := (bind m (fun _ => k))
  (at level 61, right associativity).

(** [this.db.all], [this.db.run], [this.db.exec] and the two calls on
    [this.vectorStorage]. *)
Definition db_all {R} (q : Query R) : M (list R) :=
  primitive (CallAll q) (sqlite_all q).
Definition db_run (s : Statement) : M unit :=
  primitive (CallRun s) (sqlite_run s).
Definition db_exec (s : Script) : M unit :=
  primitive (CallExec s) (sqlite_exec s).
Definition vectorStorage_semanticSearch (query : string) (o : SemanticOptions.t)
  : M (list VectorResult.t) :=
  primitive (CallSemanticSearch query o) (vector_semanticSearch query o).
Definition vectorStorage_addStandard (standard : Standard.t) : M unit :=
  primitive (CallAddStandard standard) (vector_addStandard standard).

Definition exec (sql : Script) : M unit := db_exec sql.
Definition run (sql : Statement) : M unit := db_run sql.

Definition rebuildFTSIndex : M unit :=
  try_catch
    (exec DropFts ;;; exec CreateFts ;;; exec RebuildFts)
    (fun error => throw error).

(** The error signature that [all] takes for a damaged index. *)
Definition isCorruption (err : Error) : bool :=
  includes (message err) "database disk image is malformed"
  || includes (message err) "fts5: syntax error".

Definition all {R} (sql : Query R) : M (list R) :=
  try_catch (db_all sql)
    (fun err =>
       if isCorruption err
       then rebuildFTSIndex ;;; db_all sql
       else throw err).

(** [x || null] on an optional string. *)
Definition orNull (x : option string) : option string :=
  match x with
  | Some s => if falsyString s then None else Some s
  | None => None
  end.

Definition updateCategoryCount (category : string) : M unit :=
  run (InsertOrReplaceCategoryCount category).

Definition insertParams (standard : Standard.t) : InsertParams.t :=
  {| InsertParams.id := Standard.id standard;
     InsertParams.title := Standard.title standard;
     InsertParams.category := Standard.category standard;
     InsertParams.url := Standard.url standard;
     InsertParams.content := Standard.content standard;
     InsertParams.summary := orNull (Standard.summary standard);
     InsertParams.last_updated := Standard.lastUpdated standard;
     InsertParams.source_org := orNull (Standard.sourceOrg standard);
     InsertParams.tags := Standard.tags standard;
     InsertParams.compliance_level := Standard.complianceLevel standard;
     InsertParams.related_standards := Standard.relatedStandards standard |}.

Definition insertStandard (standard : Standard.t) : M unit :=
  run (InsertOrReplaceStandard (insertParams standard)) ;;;
  updateCategoryCount (Standard.category standard) ;;;
  try_catch (vectorStorage_addStandard standard) (fun _ => ret tt).

Definition rowToStandard (row : Row.t) : Standard.t :=
  {| Standard.id := Row.id row;
     Standard.title := Row.title row;
     Standard.category := Row.category row;
     Standard.url := Row.url row;
     Standard.content := Row.content row;
     Standard.summary := orNull (Row.summary row);
     Standard.lastUpdated := Row.last_updated row;
     Standard.sourceOrg := orNull (Row.source_org row);
     Standard.tags := match Row.tags row with Some l => l | None => [] end;
     Standard.complianceLevel := Row.compliance_level row;
     Standard.relatedStandards :=
       match Row.related_standards row with Some l => l | None => [] end;
     Standard.createdAt := Date_parse (Row.created_at row);
     Standard.updatedAt := Date_parse (Row.updated_at row) |}.

(** [s && s.toLowerCase().includes(q)] on a nullable text column. *)
Definition columnIncludes (column : option string) (queryLower : string) : bool :=
  match column with
  | Some s => negb (falsyString s) && includes (toLowerCase s) queryLower
  | None => false
  end.

Definition getMatchedFields (row : Row.t) (query : string) : list string :=
  let queryLower := toLowerCase query in
  let fields := [] in
  let fields :=
    if includes (toLowerCase (Row.title row)) queryLower
    then (fields ++ ["title"])%list else fields in
  let fields :=
    if includes (toLowerCase (Row.content row)) queryLower
    then (fields ++ ["content"])%list else fields in
  let fields :=
    if columnIncludes (Row.summary row) queryLower
    then (fields ++ ["summary"])%list else fields in
  let fields :=
    if columnIncludes (option_map JSON_stringify (Row.tags row)) queryLower
    then (fields ++ ["tags"])%list else fields in
  fields.

(** The conditions pushed for the filters that are set ([if (category)]). *)
Definition conditions (category organisation : option string) : list Cond :=
  (match orNull category with Some c => [CategoryEq c] | None => [] end
   ++ match orNull organisation with Some o => [SourceOrgEq o] | None => [] end)%list.

Definition searchStandards (query : string) (category organisation : option string)
  : M (list SearchResult.t) :=
  if falsyString query || String.eqb (trim query) EmptyString
  then
    rows <- all (SelectStandards (conditions category organisation)) ;;
    ret (map (fun row => SearchResult.mk (rowToStandard row) 1 []) rows)
  else
    rows <- all (SelectFtsMatch query (conditions category organisation)) ;;
    ret (map (fun row : Row.t * Q =>
                SearchResult.mk (rowToStandard (fst row)) (Qabs (snd row))
                  (getMatchedFields (fst row) query))
           rows).

(** *** The hybrid ranker *)

(** [Map<string, SearchResult>]: the entries in insertion order; [set] on a
    present key replaces the value where it stands. *)
Definition ResultMap : Type := list (string * SearchResult.t).

Fixpoint map_get (m : ResultMap) (key : string) : option SearchResult.t :=
  match m with
  | [] => None
  | (k, v) :: m' => if String.eqb k key then Some v else map_get m' key
  end.

Fixpoint map_set (m : ResultMap) (key : string) (value : SearchResult.t) : ResultMap :=
  match m with
  | [] => [(key, value)]
  | (k, v) :: m' =>
      if String.eqb k key then (k, value) :: m' else (k, v) :: map_set m' key value
  end.

Definition map_values (m : ResultMap) : list SearchResult.t := map snd m.

(** The body of [ftsResults.forEach]. *)
Definition addFtsResult (semanticWeight : Q) (combinedResults : ResultMap)
  (result : SearchResult.t) : ResultMap :=
  map_set combinedResults (Standard.id (SearchResult.standard result))
    (SearchResult.mk (SearchResult.standard result)
       (SearchResult.relevanceScore result * (1 - semanticWeight))%Q
       (SearchResult.matchedFields result)).

(** The result entry built from the semantic metadata alone; reading a
    property of a missing metadata object throws, and so may [JSON.parse]. *)
Definition standardOfVector (vectorResult : VectorResult.t) : Result Standard.t :=
  match VectorResult.metadata vectorResult with
  | None => Err (mkError "Cannot read properties of null (reading 'title')")
  | Some metadata =>
      match (if falsyString (Metadata.tags metadata) then Ok []
             else JSON_parse (Metadata.tags metadata)) with
      | Err e => Err e
      | Ok tags =>
          Ok {| Standard.id := VectorResult.id vectorResult;
                Standard.title := Metadata.title metadata;
                Standard.category := Metadata.category metadata;
                Standard.url := Metadata.url metadata;
                Standard.content :=
                  substring0 500 (VectorResult.document vectorResult) ++ "...";
                Standard.summary := None;
                Standard.lastUpdated := Metadata.lastUpdated metadata;
                Standard.sourceOrg := orNull (Some (Metadata.sourceOrg metadata));
                Standard.tags := tags;
                Standard.complianceLevel := Metadata.complianceLevel metadata;
                Standard.relatedStandards := [];
                Standard.createdAt := Metadata.createdAt metadata;
                Standard.updatedAt := Metadata.createdAt metadata |}
      end
  end.

(** The body of [vectorResults.forEach]. *)
Definition addVectorResult (semanticWeight : Q) (combinedResults : ResultMap)
  (vectorResult : VectorResult.t) : Result ResultMap :=
  match map_get combinedResults (VectorResult.id vectorResult) with
  | Some existingResult =>
      Ok (map_set combinedResults (VectorResult.id vectorResult)
            (SearchResult.mk (SearchResult.standard existingResult)
               (SearchResult.relevanceScore existingResult
                + VectorResult.score vectorResult * semanticWeight)%Q
               (SearchResult.matchedFields existingResult ++ ["semantic"])%list))
  | None =>
      match standardOfVector vectorResult with
      | Err e => Err e
      | Ok standard =>
          Ok (map_set combinedResults (VectorResult.id vectorResult)
                (SearchResult.mk standard
                   (VectorResult.score vectorResult * semanticWeight)%Q
                   ["semantic"]))
      end
  end.

Fixpoint addVectorResults (semanticWeight : Q) (combinedResults : ResultMap)
  (vectorResults : list VectorResult.t) : Result ResultMap :=
  match vectorResults with
  | [] => Ok combinedResults
  | v :: vs =>
      match addVectorResult semanticWeight combinedResults v with
      | Err e => Err e
      | Ok m => addVectorResults semanticWeight m vs
      end
  end.

(** The map after both [forEach] loops. *)
Definition combine (semanticWeight : Q) (ftsResults : list SearchResult.t)
  (vectorResults : list VectorResult.t) : Result ResultMap :=
  addVectorResults semanticWeight
    (fold_left (addFtsResult semanticWeight) ftsResults [])
    vectorResults.

(** [(a, b) => b.relevanceScore - a.relevanceScore] is not positive. *)
Definition byScoreDesc (a b : SearchResult.t) : bool :=
  Qle_bool (SearchResult.relevanceScore b) (SearchResult.relevanceScore a).

Definition rank (maxResults : Z) (combinedResults : ResultMap) : list SearchResult.t :=
  slice0 maxResults (JS.sort byScoreDesc (map_values combinedResults)).

(** The fusion: everything between the two searches and the [return]. *)
Definition fuse (semanticWeight : Q) (maxResults : Z)
  (ftsResults : list SearchResult.t) (vectorResults : list VectorResult.t)
  : Result (list SearchResult.t) :=
  match combine semanticWeight ftsResults vectorResults with
  | Err e => Err e
  | Ok combinedResults => Ok (rank maxResults combinedResults)
  end.

Definition orDefault {A} (x : option A) (d : A) : A :=
  match x with Some a => a | None => d end.

Definition hybridSearch (query : string) (category organisation : option string)
  (options : HybridOptions.t) : M (list SearchResult.t) :=
  let semanticWeight := orDefault (HybridOptions.semanticWeight options) (6 # 10) in
  let semanticThreshold := orDefault (HybridOptions.semanticThreshold options) (3 # 10) in
  let maxResults := orDefault (HybridOptions.maxResults options) 20%Z in
  try_catch
    (ftsResults <- searchStandards query category organisation ;;
     vectorResults <-
       try_catch
         (vectorStorage_semanticSearch query
            (SemanticOptions.mk maxResults category organisation semanticThreshold))
         (fun _ => ret []) ;;
     lift (fuse semanticWeight maxResults ftsResults vectorResults))
    (fun _ => searchStandards query category organisation).

End Manager.
End DatabaseManager.

(** ** database/schema.sql: the database file

    The tables [standards] and [categories] with their constraints and the
    statements of the manager run on them.  The FTS5 virtual table
    [standards_fts] and the Chroma collection are kept behind interfaces:
    what they index and how they rank is theirs. *)

Module Schema.
Import JS.

(** The FTS5 virtual table [standards_fts], an external-content table over
    [standards].  [fts5_match] gives the index rows that satisfy
    [standards_fts MATCH ?], each with the value of its column [id] and its
    [bm25] rank, or the error the query raises on this index.
    [fts5_written] is what an INSERT OR REPLACE that deletes the rows
    [deleted] and inserts [row] leaves of the index: the trigger
    [standards_fts_insert] runs for the new row, and [standards_fts_delete]
    does not run for the rows that REPLACE deletes, because no statement of
    the manager turns [recursive_triggers] on.  [fts5_exec] runs the scripts
    of [rebuildFTSIndex]. *)
Class Fts5 (F : Type) : Type := {
  fts5_match : F -> list Row.t -> string -> Result (list (string * Q));
  fts5_written : F -> list Row.t -> Row.t -> F;
  fts5_exec : Script -> list Row.t -> F -> F * Result unit
}.

(** The Chroma collection behind [VectorStorageService]. *)
Class VectorStore (V : Type) : Type := {
  vs_semanticSearch :
    string -> SemanticOptions.t -> V -> V * Result (list VectorResult.t);
  vs_addStandard : Standard.t -> V -> V * Result unit
}.

Module CategoryRow.
Record t : Type := mk {
  name : string;
  description : option string;
  standards_count : nat;
  created_at : Timestamp
}.
End CategoryRow.

Section Database.
Context {F V : Type} {index : Fts5 F} {collection : VectorStore V}.

(** [standards] holds its rows in rowid order; [clock] is what
    CURRENT_TIMESTAMP reads: the UTC time, to the second. *)
Record Database : Type := mkDatabase {
  standards : list Row.t;
  categories : list CategoryRow.t;
  fts : F;
  clock : Timestamp
}.

Record World : Type := mkWorld { database : Database; vectors : V }.

(** [category = ?] and [source_org = ?]; a NULL column equals nothing. *)
Definition holds (c : Cond) (row : Row.t) : bool :=
  match c with
  | CategoryEq category => String.eqb (Row.category row) category
  | SourceOrgEq organisation =>
      match Row.source_org row with
      | Some o => String.eqb o organisation
      | None => false
      end
  end.

Definition whereAll (conds : list Cond) (row : Row.t) : bool :=
  forallb (fun c => holds c row) conds.

(** ORDER BY title, under the BINARY collation.  SQL leaves the order of
    rows with equal keys open; here they stay in rowid order. *)
Definition byTitle (a b : Row.t) : bool := String.leb (Row.title a) (Row.title b).

(** ORDER BY score, ascending. *)
Definition byRank (a b : Row.t * Q) : bool := Qle_bool (snd a) (snd b).

Definition selectStandards (conds : list Cond) (db : Database) : list Row.t :=
  JS.sort byTitle (filter (whereAll conds) (standards db)).

(** The join of the matching index rows with [standards] on [id]. *)
Definition joinFts (conds : list Cond) (db : Database) (hits : list (string * Q))
  : list (Row.t * Q) :=
  flat_map
    (fun hit : string * Q =>
       map (fun s => (s, snd hit))
         (filter (fun s => String.eqb (Row.id s) (fst hit) && whereAll conds s)
            (standards db)))
    hits.

Definition selectFtsMatch (query : string) (conds : list Cond) (db : Database)
  : Result (list (Row.t * Q)) :=
  match fts5_match (fts db) (standards db) query with
  | Err e => Err e
  | Ok hits => Ok (JS.sort byRank (joinFts conds db hits))
  end.

Definition runQuery {R} (q : Query R) (db : Database) : Result (list R) :=
  match q in Query R return Result (list R) with
  | SelectStandards conds => Ok (selectStandards conds db)
  | SelectFtsMatch query conds => selectFtsMatch query conds db
  end.

(** The row an INSERT writes: the columns without a bound parameter take
    their default, CURRENT_TIMESTAMP. *)
Definition rowOf (p : InsertParams.t) (now : Timestamp) : Row.t :=
  {| Row.id := InsertParams.id p;
     Row.title := InsertParams.title p;
     Row.category := InsertParams.category p;
     Row.url := InsertParams.url p;
     Row.content := InsertParams.content p;
     Row.summary := InsertParams.summary p;
     Row.last_updated := InsertParams.last_updated p;
     Row.source_org := InsertParams.source_org p;
     Row.tags := Some (InsertParams.tags p);
     Row.compliance_level := InsertParams.compliance_level p;
     Row.related_standards := Some (InsertParams.related_standards p);
     Row.created_at := now;
     Row.updated_at := now |}.

(** A row that violates [id PRIMARY KEY] or [url UNIQUE] against [row]. *)
Definition conflicts (row r : Row.t) : bool :=
  String.eqb (Row.id r) (Row.id row) || String.eqb (Row.url r) (Row.url row).

(** INSERT OR REPLACE INTO standards: the conflicting rows are deleted, the
    new row is added. *)
Definition insertOrReplaceStandard (p : InsertParams.t) (db : Database) : Database :=
  let row := rowOf p (clock db) in
  let deleted := filter (conflicts row) (standards db) in
  {| standards := filter (fun r => negb (conflicts row r)) (standards db) ++ [row];
     categories := categories db;
     fts := fts5_written (fts db) deleted row;
     clock := clock db |}.

(** INSERT OR REPLACE INTO categories (name, standards_count)
    VALUES (?, (SELECT COUNT( * ) FROM standards WHERE category = ?)). *)
Definition insertOrReplaceCategoryCount (category : string) (db : Database) : Database :=
  let count :=
    List.length (filter (fun r => String.eqb (Row.category r) category) (standards db)) in
  {| standards := standards db;
     categories :=
       filter (fun c => negb (String.eqb (CategoryRow.name c) category)) (categories db)
       ++ [CategoryRow.mk category None count (clock db)];
     fts := fts db;
     clock := clock db |}.

Definition runStatement (s : Statement) (db : Database) : Database :=
  match s with
  | InsertOrReplaceStandard p => insertOrReplaceStandard p db
  | InsertOrReplaceCategoryCount category => insertOrReplaceCategoryCount category db
  end.

Definition runScript (s : Script) (db : Database) : Database * Result unit :=
  let (f, r) := fts5_exec s (standards db) (fts db) in
  ({| standards := standards db; categories := categories db; fts := f; clock := clock db |}, r).

Definition onDatabase {A} (step : Database -> Database * Result A) (w : World)
  : World * Result A :=
  let (db, r) := step (database w) in (mkWorld db (vectors w), r).

Definition onVectors {A} (step : V -> V * Result A) (w : World) : World * Result A :=
  let (v, r) := step (vectors w) in (mkWorld (database w) v, r).

#[global] Instance schemaBackend : Backend World := {
  sqlite_all R q := onDatabase (fun db => (db, runQuery q db));
  sqlite_run s := onDatabase (fun db => (runStatement s db, Ok tt));
  sqlite_exec s := onDatabase (runScript s);
  vector_semanticSearch query o := onVectors (vs_semanticSearch query o);
  vector_addStandard standard := onVectors (vs_addStandard standard)
}.

(** The clock moves between two statements. *)
Definition atTime (now : Timestamp) (w : World) : World :=
  mkWorld
    {| standards := standards (database w);
       categories := categories (database w);
       fts := fts (database w);
       clock := now |}
    (vectors w).

End Database.
Arguments Database F : clear implicits.
Arguments World F V : clear implicits.
End Schema.

(** ** Sample implementations of the interfaces

    Small executable stand-ins for the platform, the FTS5 table and the
    Chroma collection, on which the model runs on concrete inputs. *)

Module Sample.
Import JS.

(** The text after the first occurrence of a character of the class, that
    character included. *)
Fixpoint from_char (cls : ascii -> bool) (s : string) : option string :=
  match s with
  | EmptyString => None
  | String c s' => if cls c then Some s else from_char cls s'
  end.

(** The text before the first character of the class. *)
Fixpoint until_char (cls : ascii -> bool) (s : string) : string :=
  match s with
  | EmptyString => EmptyString
  | String c s' => if cls c then EmptyString else String c (until_char cls s')
  end.

Definition drop (n : nat) (s : string) : string :=
  String.substring n (String.length s - n) s.

(** The path of an http(s) URL; anything else is not a URL. *)
Definition pathname (url : string) : option string :=
  let rest :=
    if String.prefix "https://" url then Some (drop 8 url)
    else if String.prefix "http://" url then Some (drop 7 url)
    else None in
  match rest with
  | None => None
  | Some r =>
      if falsyString r then None
      else
        match from_char ContentProcessor.is_slash r with
        | None => Some "/"
        | Some p => Some (until_char (fun c => (code c =? 63) || (code c =? 35)) p)
        end
  end.

Fixpoint checksum (s : string) (acc : nat) : nat :=
  match s with
  | EmptyString => acc
  | String c s' => checksum s' ((acc * 31 + code c) mod 4093)
  end.

Definition hex4 (n : nat) : string :=
  String (hex_digit (n / 256 / 16 mod 16))
    (String (hex_digit (n / 256 mod 16))
       (String (hex_digit (n / 16 mod 16))
          (String (hex_digit (n mod 16)) EmptyString))).

(** Thirty-two hexadecimal digits that depend on the text only. *)
Definition digest (s : string) : string :=
  let h := hex4 (checksum s 7) in h ++ h ++ h ++ h ++ h ++ h ++ h ++ h.

(** A quoted string without escapes. *)
Definition unquote (s : string) : option string :=
  match s with
  | String q s' =>
      if Ascii.eqb q dquote then
        let body := until_char (fun c => Ascii.eqb c dquote) s' in
        if String.eqb s' (body ++ String dquote EmptyString)
           && negb (includes body (String backslash EmptyString))
        then Some body else None
      else None
  | EmptyString => None
  end.

Fixpoint unquote_all (l : list string) : option (list string) :=
  match l with
  | [] => Some []
  | s :: l' =>
      match unquote s, unquote_all l' with
      | Some x, Some xs => Some (x :: xs)
      | _, _ => None
      end
  end.

(** Arrays of escape-free strings without commas, written without spaces. *)
Definition parse_strings (s : string) : Result (list string) :=
  let syntaxError := Err (mkError "Unexpected token in JSON") in
  match s with
  | String b s' =>
      if Ascii.eqb b "[" then
        let body := until_char (fun c => Ascii.eqb c "]") s' in
        if String.eqb s' (body ++ "]") then
          if falsyString body then Ok []
          else
            match unquote_all (split_char "," body) with
            | Some l => Ok l
            | None => syntaxError
            end
        else syntaxError
      else syntaxError
  | EmptyString => syntaxError
  end.

(** The zone of the process: five hours behind UTC. *)
#[export] Instance platform : Platform := {
  URL_pathname := pathname;
  md5_hex := digest;
  JSON_parse := parse_strings;
  timezoneOffset _ := 300%Z
}.

(** *** A keyword index *)

(** The index holds an entry for every row that the insert trigger has
    indexed since it was built: [docs] are the entries whose row is in the
    table, in rowid order, and [orphans] the entries whose row a REPLACE has
    deleted since.  Or the index is damaged, or its table has been
    dropped. *)
Inductive Index : Type :=
| Healthy (docs orphans : list Row.t)
| Malformed
| Missing.

Definition is_alnum (c : ascii) : bool := is_upper c || is_lower c || is_digit c.

(** Case-folded runs of letters and digits. *)
Definition tokens (s : string) : list string :=
  filter (fun t => negb (falsyString t))
    (split_runs (fun c => negb (is_alnum c)) (toLowerCase s)).

Definition textOfColumn (c : option string) : string :=
  match c with Some s => s | None => EmptyString end.

Definition docTokens (r : Row.t) : list string :=
  (tokens (Row.id r) ++ tokens (Row.title r) ++ tokens (Row.content r)
   ++ tokens (textOfColumn (Row.summary r))
   ++ tokens (textOfColumn (option_map JSON_stringify (Row.tags r))))%list.

(** A query is a list of bare words: letters, digits and spaces.  At the
    first other character the parser of the sample index stops, as that of
    FTS5 does at a full stop. *)
Fixpoint refused (query : string) : option ascii :=
  match query with
  | EmptyString => None
  | String c q => if is_alnum c || (code c =? 32) then refused q else Some c
  end.

Definition syntaxError (near : ascii) : Error :=
  mkError ("SQLITE_ERROR: fts5: syntax error near "
           ++ String dquote (String near (String dquote EmptyString))).

Definition occurrences (t : string) (l : list string) : nat :=
  List.length (filter (String.eqb t) l).

(** Every word of the query is a token of the row; the rank is the negated
    number of occurrences of the words, so that a lower rank is a better
    match. *)
Definition matchRow (words : list string) (r : Row.t) : option (string * Q) :=
  let doc := docTokens r in
  if forallb (fun w => array_includes doc w) words
  then
    let n := fold_left (fun n w => n + occurrences w doc) words 0 in
    Some (Row.id r, (- Z.of_nat n # 1)%Q)
  else None.

Fixpoint matchRows (words : list string) (docs : list Row.t) : list (string * Q) :=
  match docs with
  | [] => []
  | r :: docs' =>
      match matchRow words r with
      | Some hit => hit :: matchRows words docs'
      | None => matchRows words docs'
      end
  end.

(** A query that FTS5 cannot parse is refused before any entry is read.  An
    entry that matches is joined on its column [id], which an
    external-content table reads from the row of the entry in [standards]:
    for an orphan there is no such row, and the statement fails. *)
Definition matchIndex (index : Index) (content : list Row.t) (query : string)
  : Result (list (string * Q)) :=
  match index with
  | Malformed => Err (mkError "SQLITE_CORRUPT: database disk image is malformed")
  | Missing => Err (mkError "SQLITE_ERROR: no such table: standards_fts")
  | Healthy docs orphans =>
      match refused query with
      | Some c => Err (syntaxError c)
      | None =>
          match matchRows (tokens query) orphans with
          | [] => Ok (matchRows (tokens query) docs)
          | _ :: _ => Err (mkError "SQLITE_CORRUPT: database disk image is malformed")
          end
      end
  end.

(** The entries of the deleted rows stay in the index, without their rows;
    the new row is indexed.  The ids of the rows of the table are distinct,
    so the entries of the deleted rows are those with their ids. *)
Definition written (index : Index) (deleted : list Row.t) (row : Row.t) : Index :=
  match index with
  | Malformed => Malformed
  | Missing => Missing
  | Healthy docs orphans =>
      let gone := fun d => array_includes (map Row.id deleted) (Row.id d) in
      Healthy (filter (fun d => negb (gone d)) docs ++ [row])
        (orphans ++ filter gone docs)
  end.

Definition execScript (s : Script) (content : list Row.t) (index : Index)
  : Index * Result unit :=
  match s, index with
  | DropFts, _ => (Missing, Ok tt)
  | CreateFts, Missing => (Healthy [] [], Ok tt)
  | CreateFts, _ =>
      (index, Err (mkError "SQLITE_ERROR: table standards_fts already exists"))
  | RebuildFts, Missing =>
      (index, Err (mkError "SQLITE_ERROR: no such table: standards_fts"))
  | RebuildFts, _ => (Healthy content [], Ok tt)
  end.

#[export] Instance fts5 : Schema.Fts5 Index := {
  Schema.fts5_match := matchIndex;
  Schema.fts5_written := written;
  Schema.fts5_exec := execScript
}.

(** *** A semantic index with a fixed answer *)

(** [None] is the service that failed to initialise: every call throws. *)
Definition Vectors : Type := option (list VectorResult.t).

Definition unavailable : Error := mkError "Failed to connect to chromadb".

#[export] Instance vectorStore : Schema.VectorStore Vectors := {
  Schema.vs_semanticSearch _ _ v :=
    match v with
    | Some results => (v, Ok results)
    | None => (v, Err unavailable)
    end;
  Schema.vs_addStandard _ v :=
    match v with
    | Some _ => (v, Ok tt)
    | None => (v, Err unavailable)
    end
}.

Abbreviation World := (Schema.World Index Vectors).

Definition emptyWorld (v : Vectors) : World :=
  Schema.mkWorld (Schema.mkDatabase [] [] (Healthy [] []) 0%Z) v.

Definition start (w : World) : DatabaseManager.State :=
  DatabaseManager.mkState w [].

(** The two standards of the search tests (test/database.test.ts). *)
Definition apiSecurity : Standard.t :=
  {| Standard.id := "api-security-1";
     Standard.title := "API Security Guidelines";
     Standard.category := "APIs";
     Standard.url := "https://www.gov.uk/api-security";
     Standard.content :=
       "Guidelines for securing REST APIs using OAuth 2.0 and JWT tokens.";
     Standard.summary := Some "Security guidelines for APIs";
     Standard.lastUpdated := None;
     Standard.sourceOrg := Some "GDS";
     Standard.tags := ["api"; "security"; "oauth"; "jwt"];
     Standard.complianceLevel := Some mandatory;
     Standard.relatedStandards := [];
     Standard.createdAt := 0%Z;
     Standard.updatedAt := 0%Z |}.

Definition accessibilityWcag : Standard.t :=
  {| Standard.id := "accessibility-wcag-1";
     Standard.title := "WCAG 2.1 Compliance Standard";
     Standard.category := "Accessibility";
     Standard.url := "https://www.gov.uk/wcag-compliance";
     Standard.content :=
       "Requirements for meeting WCAG 2.1 Level AA accessibility standards.";
     Standard.summary := Some "WCAG compliance requirements";
     Standard.lastUpdated := None;
     Standard.sourceOrg := Some "GDS";
     Standard.tags := ["accessibility"; "wcag"; "compliance"];
     Standard.complianceLevel := Some mandatory;
     Standard.relatedStandards := [];
     Standard.createdAt := 0%Z;
     Standard.updatedAt := 0%Z |}.

(** The three standards of the related-standards tests
    (test/content-processor.test.ts). *)
Definition testStandard (id title category content : string) (tags : list string)
  : Standard.t :=
  {| Standard.id := id;
     Standard.title := title;
     Standard.category := category;
     Standard.url := "https://www.gov.uk/" ++ id;
     Standard.content := content;
     Standard.summary := None;
     Standard.lastUpdated := None;
     Standard.sourceOrg := None;
     Standard.tags := tags;
     Standard.complianceLevel := None;
     Standard.relatedStandards := [];
     Standard.createdAt := 0%Z;
     Standard.updatedAt := 0%Z |}.

Definition apiStandard : Standard.t :=
  testStandard "api-standard-1" "API Security Guidelines" "APIs"
    "Guidelines for API security with OAuth and JWT"
    ["api"; "security"; "oauth"; "jwt"].

Definition securityStandard : Standard.t :=
  testStandard "security-standard-1" "Cyber Security Framework"
    "Security & Cyber Security"
    "Security framework including API security and OAuth implementation"
    ["security"; "api"; "oauth"; "framework"].

Definition unrelatedStandard : Standard.t :=
  testStandard "accessibility-standard-1" "WCAG Guidelines" "Accessibility"
    "Web content accessibility guidelines"
    ["accessibility"; "wcag"; "screen-reader"].

(** The page of the classifier tests (test/content-processor.test.ts). *)
Definition mockScrapedPage : ScrapedPage.t :=
  {| ScrapedPage.url := "https://www.gov.uk/guidance/gds-api-technical-and-data-standards";
     ScrapedPage.title := "GDS API technical and data standards";
     ScrapedPage.content :=
       "This guidance explains the technical standards for APIs in government. APIs must use HTTPS and should implement OAuth 2.0 for authentication. All APIs should follow REST principles and return JSON responses.";
     ScrapedPage.lastModified := None;
     ScrapedPage.category := "APIs";
     ScrapedPage.sourceOrg := Some "GDS";
     ScrapedPage.links := [] |}.

(** The state after [insertStandard] of both, as the tests set it up. *)
Definition testWorld (v : Vectors) : World :=
  DatabaseManager.world
    (fst (DatabaseManager.bind (DatabaseManager.insertStandard apiSecurity)
            (fun _ => DatabaseManager.insertStandard accessibilityWcag)
            (start (emptyWorld v)))).

Definition testState (v : Vectors) : DatabaseManager.State := start (testWorld v).

(** The ids of the documents a search resolves with. *)
Definition found (r : @DatabaseManager.State World * Result (list SearchResult.t))
  : list string :=
  map (fun x => Standard.id (SearchResult.standard x)) (valueOr (snd r) []).

(** The hits of the index of that store for a query. *)
Definition hitsFor (query : string) (v : Vectors) : list (string * Q) :=
  valueOr
    (Schema.fts5_match (Schema.fts (Schema.database (testWorld v)))
       (Schema.standards (Schema.database (testWorld v))) query)
    [].

(** The same store with another index. *)
Definition withIndex (index : Index) (v : Vectors) : World :=
  Schema.mkWorld
    (Schema.mkDatabase
       (Schema.standards (Schema.database (testWorld v)))
       (Schema.categories (Schema.database (testWorld v)))
       index
       (Schema.clock (Schema.database (testWorld v))))
    v.

Definition corruptWorld (v : Vectors) : World := withIndex Malformed v.

(** What Chroma holds for a standard ([VectorStorageService.addStandard]). *)
Definition metadataOf (standard : Standard.t) : Metadata.t :=
  {| Metadata.title := Standard.title standard;
     Metadata.category := Standard.category standard;
     Metadata.url := Standard.url standard;
     Metadata.sourceOrg :=
       match Standard.sourceOrg standard with Some o => o | None => EmptyString end;
     Metadata.complianceLevel := Standard.complianceLevel standard;
     Metadata.tags := JSON_stringify (Standard.tags standard);
     Metadata.lastUpdated := Standard.lastUpdated standard;
     Metadata.createdAt := Standard.createdAt standard |}.

Definition cloudHosting : Standard.t :=
  {| Standard.id := "cloud-hosting-1";
     Standard.title := "Cloud Hosting Guide";
     Standard.category := "Cloud";
     Standard.url := "https://www.gov.uk/cloud-hosting";
     Standard.content := "How to authorise access to hosted services.";
     Standard.summary := None;
     Standard.lastUpdated := None;
     Standard.sourceOrg := Some "GDS";
     Standard.tags := ["cloud"];
     Standard.complianceLevel := None;
     Standard.relatedStandards := [];
     Standard.createdAt := 0%Z;
     Standard.updatedAt := 0%Z |}.

(** A semantic answer: one standard of the store and one that only the
    semantic index knows. *)
Definition semanticHits : list VectorResult.t :=
  [ VectorResult.mk "api-security-1" (8 # 10) (Some (metadataOf apiSecurity))
      "API Security Guidelines";
    VectorResult.mk "cloud-hosting-1" (1 # 2) (Some (metadataOf cloudHosting))
      "Cloud Hosting Guide" ].

(** A semantic answer with a record that lacks its metadata. *)
Definition brokenHits : list VectorResult.t :=
  [ VectorResult.mk "cloud-hosting-1" (1 # 2) None "Cloud Hosting Guide" ].

End Sample.

(** ** The rules of validation *)

Module ValidationRules.
Import JS ContentProcessor.

(** The five rules of [validateStandard], as the code tests them. *)
Section Validation.
Context {runtime : Platform}.

Definition blank (s : string) : bool :=
  falsyString s || (String.length (trim s) =? 0).

Definition idMissing (d : Standard.t) : bool := blank (Standard.id d).
Definition titleMissing (d : Standard.t) : bool := blank (Standard.title d).
Definition urlInvalid (d : Standard.t) : bool :=
  falsyString (Standard.url d) || negb (isValidUrl (Standard.url d)).
Definition contentShort (d : Standard.t) : bool :=
  falsyString (Standard.content d)
  || (String.length (trim (Standard.content d)) <? 50).
Definition categoryMissing (d : Standard.t) : bool := blank (Standard.category d).

Definition report (violated : bool) (msg : string) : list string :=
  if violated then [msg] else [].

(** The messages of the violated rules, in the order of the checks. *)
Definition violations (d : Standard.t) : list string :=
  (report (idMissing d) "Standard ID is required"
   ++ report (titleMissing d) "Standard title is required"
   ++ report (urlInvalid d) "Valid URL is required"
   ++ report (contentShort d) "Standard content must be at least 50 characters long"
   ++ report (categoryMissing d) "Standard category is required")%list.

Definition countTrue (l : list bool) : nat := List.length (filter (fun b => b) l).

(** The fourth rule as the specification words it: the content has at least
    fifty characters. *)
Definition contentShortAsWorded (d : Standard.t) : bool :=
  String.length (Standard.content d) <? 50.

Definition violationsAsWorded (d : Standard.t) : list string :=
  (report (idMissing d) "Standard ID is required"
   ++ report (titleMissing d) "Standard title is required"
   ++ report (urlInvalid d) "Valid URL is required"
   ++ report (contentShortAsWorded d)
        "Standard content must be at least 50 characters long"
   ++ report (categoryMissing d) "Standard category is required")%list.

End Validation.

(** The valid standard of the validation tests
    (test/content-processor.test.ts). *)
Definition validStandard : Standard.t :=
  {| Standard.id := "valid-standard-1";
     Standard.title := "Valid Standard";
     Standard.category := "APIs";
     Standard.url := "https://www.gov.uk/valid-standard";
     Standard.content :=
       "This is a valid standard with sufficient content to pass validation requirements and provide meaningful guidance.";
     Standard.summary := None;
     Standard.lastUpdated := None;
     Standard.sourceOrg := None;
     Standard.tags := ["api"];
     Standard.complianceLevel := None;
     Standard.relatedStandards := [];
     Standard.createdAt := 0%Z;
     Standard.updatedAt := 0%Z |}.

Definition withContent (d : Standard.t) (content : string) : Standard.t :=
  {| Standard.id := Standard.id d;
     Standard.title := Standard.title d;
     Standard.category := Standard.category d;
     Standard.url := Standard.url d;
     Standard.content := content;
     Standard.summary := Standard.summary d;
     Standard.lastUpdated := Standard.lastUpdated d;
     Standard.sourceOrg := Standard.sourceOrg d;
     Standard.tags := Standard.tags d;
     Standard.complianceLevel := Standard.complianceLevel d;
     Standard.relatedStandards := Standard.relatedStandards d;
     Standard.createdAt := Standard.createdAt d;
     Standard.updatedAt := Standard.updatedAt d |}.

Definition withIdTitleUrl (d : Standard.t) (id title url : string) : Standard.t :=
  {| Standard.id := id;
     Standard.title := title;
     Standard.category := Standard.category d;
     Standard.url := url;
     Standard.content := Standard.content d;
     Standard.summary := Standard.summary d;
     Standard.lastUpdated := Standard.lastUpdated d;
     Standard.sourceOrg := Standard.sourceOrg d;
     Standard.tags := Standard.tags d;
     Standard.complianceLevel := Standard.complianceLevel d;
     Standard.relatedStandards := Standard.relatedStandards d;
     Standard.createdAt := Standard.createdAt d;
     Standard.updatedAt := Standard.updatedAt d |}.

(** Fifty characters of which the last ten are spaces. *)
Definition paddedContent : string :=
  "Use HTTPS for every public endpoint.....          ".

End ValidationRules.

(** ** Notions used to state the properties of the ranker *)

Module Ranking.
Import JS DatabaseManager.

(** The id of the document of a result: the key of the result map. *)
Definition resultId (r : SearchResult.t) : string :=
  Standard.id (SearchResult.standard r).

(** A lexical result with its score scaled by [1 - semanticWeight]. *)
Definition scaled (w : Q) (r : SearchResult.t) : SearchResult.t :=
  SearchResult.mk (SearchResult.standard r)
    (SearchResult.relevanceScore r * (1 - w))%Q
    (SearchResult.matchedFields r).

(** Every entry of the map stands under the id of its document. *)
Definition keyed (m : ResultMap) : Prop :=
  Forall (fun kv => fst kv = resultId (snd kv)) m.

(** Descending by relevance score. *)
Definition descending (a b : SearchResult.t) : Prop :=
  (SearchResult.relevanceScore b <= SearchResult.relevanceScore a)%Q.

Section WithPlatform.
Context {runtime : Platform}.

(** What one semantic result leaves under its id. *)
Definition fusedAt (w : Q) (before : option SearchResult.t) (v : VectorResult.t)
  (after : option SearchResult.t) : Prop :=
  match before with
  | Some existing =>
      after = Some (SearchResult.mk (SearchResult.standard existing)
                      (SearchResult.relevanceScore existing
                       + VectorResult.score v * w)%Q
                      (SearchResult.matchedFields existing ++ ["semantic"])%list)
  | None =>
      exists standard,
        standardOfVector v = Ok standard /\
        after = Some (SearchResult.mk standard (VectorResult.score v * w)%Q ["semantic"])
  end.

End WithPlatform.

(** The options of [hybridSearch] after the defaults are filled in. *)
Definition weightOf (options : HybridOptions.t) : Q :=
  orDefault (HybridOptions.semanticWeight options) (6 # 10).

Definition limitOf (options : HybridOptions.t) : Z :=
  orDefault (HybridOptions.maxResults options) 20%Z.

Definition semanticOptionsOf (category organisation : option string)
  (options : HybridOptions.t) : SemanticOptions.t :=
  SemanticOptions.mk (limitOf options) category organisation
    (orDefault (HybridOptions.semanticThreshold options) (3 # 10)).

(** The options the two servers pass: the defaults. *)
Definition defaults : HybridOptions.t := HybridOptions.mk None None None.

End Ranking.

(** ** Notions used to state the properties of the store *)

Module Store.
Import JS DatabaseManager Ranking.

(** A query without a character that is not white space: the empty query
    and the queries of blanks. *)
Fixpoint whitespaceOnly (query : string) : bool :=
  match query with
  | EmptyString => true
  | String c q => is_space c && whitespaceOnly q
  end.

(** A row passes the filters that are set: a filter that is absent or empty
    is not set; a set category must be the category of the row, a set
    organisation its source organisation. *)
Definition passesFilters (category organisation : option string) (row : Row.t) : bool :=
  match orNull category with
  | Some c => String.eqb (Row.category row) c
  | None => true
  end
  &&
  match orNull organisation with
  | Some o =>
      match Row.source_org row with
      | Some x => String.eqb x o
      | None => false
      end
  | None => true
  end.


(** The result of a ranked search for a row and its bm25 rank. *)
Definition ranked {runtime : Platform} (query : string) (row : Row.t * Q)
  : SearchResult.t :=
  SearchResult.mk (rowToStandard (fst row)) (Qabs (snd row))
    (getMatchedFields (fst row) query).


(** The four texts [getMatchedFields] looks into, with their names. *)
Definition fieldTexts (row : Row.t) : list (string * option string) :=
  [ ("title", Some (Row.title row));
    ("content", Some (Row.content row));
    ("summary", orNull (Row.summary row));
    ("tags", option_map JSON_stringify (Row.tags row)) ].

(** The text contains the whole query, whatever the case. *)
Definition containsQuery (query : string) (text : option string) : bool :=
  match text with
  | Some s => includes (toLowerCase s) (toLowerCase query)
  | None => false
  end.

(** The answer of a ranked search on the rows [table] when the index gives the
    hits [hits] for the query: the documents of the rows that the index
    matches and that pass the filters that are set, each with the rank of its
    hit, in ascending order of the ranks.  Where no rank is positive, as no
    bm25 rank of FTS5 is, the exposed score is the rank with its sign turned,
    a better rank is a higher score, and the scores never increase along the
    list. *)
Definition rankedAnswer {runtime : Platform} (query : string)
  (category organisation : option string) (table : list Row.t)
  (hits : list (string * Q)) (results : list SearchResult.t) : Prop :=
  exists rows : list (Row.t * Q),
    results = map (ranked query) rows /\
    (forall row rank,
       In (row, rank) rows
       <-> In (Row.id row, rank) hits /\ In row table
           /\ passesFilters category organisation row = true) /\
    StronglySorted (fun a b => (snd a <= snd b)%Q) rows /\
    (Forall (fun hit => (snd hit <= 0)%Q) hits ->
     (forall r, In r rows ->
        SearchResult.relevanceScore (ranked query r) = (- snd r)%Q
        /\ (0 <= SearchResult.relevanceScore (ranked query r))%Q) /\
     (forall a b, In a rows -> In b rows ->
        ((snd a <= snd b)%Q <-> descending (ranked query a) (ranked query b))) /\
     StronglySorted descending results).

End Store.

(** ** Notions used to state the properties of the classifier *)

Module Relatedness.
Import JS ContentProcessor.

(** The three grounds on which [findRelatedStandards] relates a standard to
    another one: two tags in common, the same category, three keywords in
    common. *)
Definition commonTags (standard otherStandard : Standard.t) : list string :=
  filter (fun tag => array_includes (Standard.tags otherStandard) tag)
    (Standard.tags standard).

Definition commonKeywords (standard otherStandard : Standard.t) : list string :=
  filter (fun kw => array_includes (extractKeywords (textOf otherStandard)) kw)
    (extractKeywords (textOf standard)).

Definition related (standard otherStandard : Standard.t) : bool :=
  (2 <=? List.length (commonTags standard otherStandard))
  || String.eqb (Standard.category standard) (Standard.category otherStandard)
  || (3 <=? List.length (commonKeywords standard otherStandard)).

(** The characters of a slug and of a keyword. *)
Definition slugChar (c : ascii) : bool := is_lower c || is_digit c || is_hyphen c.
Definition keywordChar (c : ascii) : bool := is_lower c || is_digit c || (code c =? 95).

End Relatedness.

(** ** A scripted store

    A stand-in for the two stores that answers from a list of outcomes, one
    per call: [None] lets the call succeed with no rows, [Some e] makes it
    fail with the error [e]; when the list is used up every call succeeds. *)

Module Scripted.
Import JS.

Definition World : Type := list (option Error).

Definition next {A} (value : A) (w : World) : World * Result A :=
  match w with
  | [] => ([], Ok value)
  | None :: w' => (w', Ok value)
  | Some e :: w' => (w', Err e)
  end.

#[global] Instance backend : Backend World := {
  sqlite_all R _ := next [];
  sqlite_run _ := next tt;
  sqlite_exec _ := next tt;
  vector_semanticSearch _ _ := next [];
  vector_addStandard _ := next tt
}.

Definition initial (w : World) : @DatabaseManager.State World :=
  DatabaseManager.mkState w [].

Definition corrupt : Error :=
  mkError "SQLITE_CORRUPT: database disk image is malformed".
Definition readonly : Error :=
  mkError "SQLITE_READONLY: attempt to write a readonly database".
Definition busy : Error := mkError "SQLITE_BUSY: database is locked".

End Scripted.

(** ** database/manager.ts: the reads that are not searches *)

Module Category.
Record t : Type := mk { name : string; count : nat }.
End Category.

(** The statements of [getStandard], [getAllStandards] and [getCategories],
    indexed by the type of the rows they return.
    - [StandardById id]: SELECT * FROM standards WHERE id = ?
    - [AllStandards]: SELECT * FROM standards ORDER BY category, title
    - [CategoryCounts]:
      SELECT category as name, COUNT( * ) as count FROM standards
      GROUP BY category ORDER BY count DESC *)
Inductive Select : Type -> Type :=
| StandardById (id : string) : Select Row.t
| AllStandards : Select Row.t
| CategoryCounts : Select (string * nat).

(** [this.db.get], which gives the first row of a statement or [undefined],
    and [this.db.all], on these statements. *)
Class Reader (W : Type) : Type := {
  sqlite_get : forall R : Type, Select R -> W -> W * JS.Result (option R);
  sqlite_select : forall R : Type, Select R -> W -> W * JS.Result (list R)
}.
Arguments sqlite_get {W _ R} q w.
Arguments sqlite_select {W _ R} q w.

Module Reads.
Import JS DatabaseManager.

Section Manager.
Context {W : Type} {backend : Backend W} {reader : Reader W} {runtime : Platform}.

(** The calls of these statements are not entered in the log of [Call],
    which keeps the calls of the searches and of the ingestion. *)
Definition db_get {R} (q : Select R) : M (option R) :=
  fun s => let (w, r) := sqlite_get q (world s) in (mkState w (calls s), r).

Definition db_all {R} (q : Select R) : M (list R) :=
  fun s => let (w, r) := sqlite_select q (world s) in (mkState w (calls s), r).

Definition get {R} (sql : Select R) : M (option R) := db_get sql.

(** [all], on the statements of this module. *)
Definition all {R} (sql : Select R) : M (list R) :=
  try_catch (db_all sql)
    (fun err =>
       if isCorruption err
       then bind rebuildFTSIndex (fun _ => db_all sql)
       else throw err).

Definition getStandard (id : string) : M (option Standard.t) :=
  bind (get (StandardById id))
    (fun row =>
       match row with
       | None => ret None
       | Some row => ret (Some (rowToStandard row))
       end).

Definition getCategories : M (list Category.t) :=
  bind (all CategoryCounts)
    (fun rows => ret (map (fun row => Category.mk (fst row) (snd row)) rows)).

Definition getAllStandards : M (list Standard.t) :=
  bind (all AllStandards) (fun rows => ret (map rowToStandard rows)).

End Manager.

(** *** The statements on the tables of the schema *)

Section Database.
Context {F V : Type} {index : Schema.Fts5 F} {collection : Schema.VectorStore V}.

(** WHERE id = ? *)
Definition selectById (id : string) (db : Schema.Database F) : list Row.t :=
  filter (fun r => String.eqb (Row.id r) id) (Schema.standards db).

(** ORDER BY category, title, under the BINARY collation; rows with equal
    keys stay in rowid order. *)
Definition byCategoryTitle (a b : Row.t) : bool :=
  match String.compare (Row.category a) (Row.category b) with
  | Lt => true
  | Eq => String.leb (Row.title a) (Row.title b)
  | Gt => false
  end.

Definition selectAll (db : Schema.Database F) : list Row.t :=
  JS.sort byCategoryTitle (Schema.standards db).

(** GROUP BY category: one group for every category that occurs, with the
    number of its rows.  The groups are taken in the order in which their
    categories first occur; SQL leaves the order of groups with equal counts
    open. *)
Definition categoriesOf (rows : list Row.t) : list string :=
  fold_left set_add (map Row.category rows) [].

Definition countOf (category : string) (rows : list Row.t) : nat :=
  List.length (filter (fun r => String.eqb (Row.category r) category) rows).

(** ORDER BY count DESC. *)
Definition byCountDesc (a b : string * nat) : bool := snd b <=? snd a.

Definition selectCategoryCounts (db : Schema.Database F) : list (string * nat) :=
  JS.sort byCountDesc
    (map (fun category => (category, countOf category (Schema.standards db)))
       (categoriesOf (Schema.standards db))).

Definition runSelect {R} (q : Select R) (db : Schema.Database F) : list R :=
  match q in Select R return list R with
  | StandardById id => selectById id db
  | AllStandards => selectAll db
  | CategoryCounts => selectCategoryCounts db
  end.

#[global] Instance schemaReader : Reader (Schema.World F V) := {
  sqlite_get R q :=
    Schema.onDatabase (fun db => (db, Ok (hd_error (runSelect q db))));
  sqlite_select R q := Schema.onDatabase (fun db => (db, Ok (runSelect q db)))
}.

End Database.

(** The order of [getAllStandards]: by category, then by title. *)
Definition catalogueOrder (a b : Standard.t) : Prop :=
  OrderedTypeEx.String_as_OT.lt (Standard.category a) (Standard.category b)
  \/ (Standard.category a = Standard.category b
      /\ String.leb (Standard.title a) (Standard.title b) = true).

(** The document that [rowToStandard] reads back from the row that
    [insertStandard] writes when CURRENT_TIMESTAMP reads [now]. *)
Definition stored {runtime : Platform} (standard : Standard.t) (now : Timestamp)
  : Standard.t :=
  {| Standard.id := Standard.id standard;
     Standard.title := Standard.title standard;
     Standard.category := Standard.category standard;
     Standard.url := Standard.url standard;
     Standard.content := Standard.content standard;
     Standard.summary := orNull (Standard.summary standard);
     Standard.lastUpdated := Standard.lastUpdated standard;
     Standard.sourceOrg := orNull (Standard.sourceOrg standard);
     Standard.tags := Standard.tags standard;
     Standard.complianceLevel := Standard.complianceLevel standard;
     Standard.relatedStandards := Standard.relatedStandards standard;
     Standard.createdAt := Date_parse now;
     Standard.updatedAt := Date_parse now |}.

End Reads.

(** The standard of the tests of insertion (test/database.test.ts) and the
    three standards of the test of the categories. *)
Module StoreSample.
Import JS DatabaseManager Sample.

Definition mockStandard : Standard.t :=
  {| Standard.id := "test-standard-1";
     Standard.title := "Test API Standard";
     Standard.category := "APIs";
     Standard.url := "https://www.gov.uk/test-api-standard";
     Standard.content :=
       "This is a test standard for API development with OAuth authentication and REST principles.";
     Standard.summary := Some "Test standard for API development";
     Standard.lastUpdated := None;
     Standard.sourceOrg := Some "GDS";
     Standard.tags := ["api"; "oauth"; "rest"];
     Standard.complianceLevel := Some recommended;
     Standard.relatedStandards := [];
     Standard.createdAt := 5%Z;
     Standard.updatedAt := 5%Z |}.

Definition updatedStandard : Standard.t :=
  {| Standard.id := Standard.id mockStandard;
     Standard.title := "Updated API Standard";
     Standard.category := Standard.category mockStandard;
     Standard.url := Standard.url mockStandard;
     Standard.content := Standard.content mockStandard;
     Standard.summary := Standard.summary mockStandard;
     Standard.lastUpdated := Standard.lastUpdated mockStandard;
     Standard.sourceOrg := Standard.sourceOrg mockStandard;
     Standard.tags := Standard.tags mockStandard;
     Standard.complianceLevel := Standard.complianceLevel mockStandard;
     Standard.relatedStandards := Standard.relatedStandards mockStandard;
     Standard.createdAt := Standard.createdAt mockStandard;
     Standard.updatedAt := Standard.updatedAt mockStandard |}.


Definition categoryStandard (id category title : string) : Standard.t :=
  {| Standard.id := id;
     Standard.title := title;
     Standard.category := category;
     Standard.url := "http://test.com/" ++ id;
     Standard.content := "content";
     Standard.summary := None;
     Standard.lastUpdated := None;
     Standard.sourceOrg := None;
     Standard.tags := [];
     Standard.complianceLevel := None;
     Standard.relatedStandards := [];
     Standard.createdAt := 0%Z;
     Standard.updatedAt := 0%Z |}.

(** The state after the standards are inserted one after the other into the
    empty store. *)
Definition inserted (standards : list Standard.t) : @State World :=
  fold_left (fun s standard => fst (insertStandard standard s)) standards
    (start (emptyWorld None)).

Definition categoriesState : @State World :=
  inserted [ categoryStandard "1" "APIs" "API 1";
             categoryStandard "2" "APIs" "API 2";
             categoryStandard "3" "Security & Cyber Security" "Security 1" ].

End StoreSample.

(** ** mcp/server.ts: the compliance check *)

Module ComplianceCheck.
Import JS ContentProcessor DatabaseManager.

Definition serviceStopWords : list string :=
  [ "the"; "and"; "for"; "are"; "but"; "not"; "you"; "all"; "can"; "had";
    "her"; "was"; "one"; "our"; "out"; "day"; "get"; "has"; "him"; "his";
    "how"; "man"; "new"; "now"; "old"; "see"; "two"; "way"; "who"; "its";
    "did"; "yes" ].

Definition extractServiceKeywords (description : string) : list string :=
  let words :=
    filter (fun word => 2 <? String.length word)
      (map (fun word => toLowerCase (remove_chars (fun c => negb (is_word c)) word))
         (split_runs is_space description)) in
  filter (fun word => negb (array_includes serviceStopWords word)) words.

Definition categoryMappings : list (string * list string) :=
  [ ("APIs", ["api"; "rest"; "endpoint"; "service"; "integration"]);
    ("Security & Cyber Security", ["secure"; "security"; "auth"; "encrypt"; "protect"]);
    ("Accessibility", ["accessible"; "disability"; "screen reader"; "inclusive"]);
    ("Cloud Strategy", ["cloud"; "hosting"; "infrastructure"; "platform"]);
    ("Data Protection", ["data"; "privacy"; "gdpr"; "personal information"]);
    ("Digital Service Standard", ["user"; "research"; "design"; "service"]);
    ("Application Development", ["app"; "mobile"; "development"; "software"]) ].

(** The property names that an object literal inherits from
    [Object.prototype]: under them [categoryMappings[category]] is a function
    or an object, not an array, and the call of [some] on it throws. *)
Definition inheritedKeys : list string :=
  [ "constructor"; "hasOwnProperty"; "isPrototypeOf"; "propertyIsEnumerable";
    "toLocaleString"; "toString"; "valueOf"; "__proto__";
    "__defineGetter__"; "__defineSetter__"; "__lookupGetter__"; "__lookupSetter__" ].

Fixpoint lookup (key : string) (entries : list (string * list string))
  : option (list string) :=
  match entries with
  | [] => None
  | (k, v) :: entries' => if String.eqb k key then Some v else lookup key entries'
  end.

Definition isCategoryRelevant (category description : string) : Result bool :=
  match lookup category categoryMappings with
  | Some keywords => Ok (existsb (fun keyword => includes description keyword) keywords)
  | None =>
      if array_includes inheritedKeys category
      then Err (mkError "keywords.some is not a function")
      else Ok false
  end.

Module Relevant.
Record t : Type := mk { standard : Standard.t; score : nat }.
End Relevant.

(** The score that the body of [allStandards.forEach] gives a standard. *)
Definition scoreOf (descriptionLower : string) (standard : Standard.t) : Result nat :=
  let score := 0 in
  let standardText := textOf standard in
  let keywords := extractServiceKeywords descriptionLower in
  let score :=
    fold_left
      (fun score keyword =>
         if includes standardText keyword
         then score + (if 3 <? String.length keyword then 2 else 1)
         else score)
      keywords score in
  match isCategoryRelevant (Standard.category standard) descriptionLower with
  | Err e => Err e
  | Ok relevantCategory =>
      let score := if relevantCategory then score + 5 else score in
      let score :=
        match Standard.complianceLevel standard with
        | Some mandatory => score + 3
        | Some recommended => score + 1
        | _ => score
        end in
      Ok score
  end.

(** [allStandards.forEach], threading the array [relevant]. *)
Fixpoint collect (descriptionLower : string) (allStandards : list Standard.t)
  (relevant : list Relevant.t) : Result (list Relevant.t) :=
  match allStandards with
  | [] => Ok relevant
  | standard :: rest =>
      match scoreOf descriptionLower standard with
      | Err e => Err e
      | Ok score =>
          collect descriptionLower rest
            (if 0 <? score then (relevant ++ [Relevant.mk standard score])%list
             else relevant)
      end
  end.

Definition byScore (a b : Relevant.t) : bool := Relevant.score b <=? Relevant.score a.

Definition findRelevantStandards (serviceDescription : string)
  (allStandards : list Standard.t) : Result (list Standard.t) :=
  let descriptionLower := toLowerCase serviceDescription in
  match collect descriptionLower allStandards [] with
  | Err e => Err e
  | Ok relevant => Ok (map Relevant.standard (slice0 15 (JS.sort byScore relevant)))
  end.

Definition isRequirement (sentenceLower : string) : bool :=
  includes sentenceLower "must "
  || includes sentenceLower "shall "
  || includes sentenceLower "required"
  || includes sentenceLower "should ".

Definition extractRequirements (standard : Standard.t) : list string :=
  let content := Standard.content standard in
  let sentences :=
    filter (fun s => 20 <? String.length (trim s)) (split_runs is_terminator content) in
  let requirements :=
    fold_left
      (fun requirements sentence =>
         let sentenceLower := trim (toLowerCase sentence) in
         if isRequirement sentenceLower
         then (requirements ++ [trim sentence])%list
         else requirements)
      sentences [] in
  slice0 5 requirements.

Module Item.
Record t : Type := mk {
  standard : string;
  requirement : string;
  notes : string          (* the status is always 'unknown' *)
}.
End Item.

Module Report.
Record t : Type := mk {
  serviceDescription : string;
  relevantStandards : list Standard.t;
  complianceChecklist : list Item.t
}.
End Report.

Definition checklistOf (relevantStandards : list Standard.t) : list Item.t :=
  flat_map
    (fun standard =>
       map (fun requirement =>
              Item.mk (Standard.title standard) requirement
                ("Review " ++ Standard.title standard
                 ++ " for specific implementation requirements"))
         (extractRequirements standard))
    relevantStandards.

Section Server.
Context {W : Type} {backend : Backend W} {reader : Reader W} {runtime : Platform}.

Definition generateComplianceCheck (serviceDescription : string) : M Report.t :=
  bind Reads.getAllStandards
    (fun allStandards =>
       bind (lift (findRelevantStandards serviceDescription allStandards))
         (fun relevantStandards =>
            ret (Report.mk serviceDescription relevantStandards
                   (checklistOf relevantStandards)))).

End Server.

(** The score of a standard, 0 when the scoring throws. *)
Definition relevance (serviceDescription : string) (standard : Standard.t) : nat :=
  valueOr (scoreOf (toLowerCase serviceDescription) standard) 0.

End ComplianceCheck.

(** The two standards of the tests of the server (test/mcp-server.test.ts);
    the dates are counted in days from 2024-01-01. *)
Module ServerSample.

Definition mockStandards : list Standard.t :=
  [ {| Standard.id := "api-security-1";
       Standard.title := "API Security Guidelines";
       Standard.category := "APIs";
       Standard.url := "https://www.gov.uk/api-security";
       Standard.content :=
         "Comprehensive security guidelines for government APIs including OAuth 2.0 implementation. APIs must implement HTTPS encryption and should use proper authentication mechanisms.";
       Standard.summary := Some "Security guidelines for APIs";
       Standard.lastUpdated := None;
       Standard.sourceOrg := Some "GDS";
       Standard.tags := ["api"; "security"; "oauth"];
       Standard.complianceLevel := Some mandatory;
       Standard.relatedStandards := ["oauth-standard-1"];
       Standard.createdAt := 0%Z;
       Standard.updatedAt := 60%Z |};
    {| Standard.id := "wcag-accessibility-1";
       Standard.title := "WCAG 2.1 Accessibility Requirements";
       Standard.category := "Accessibility";
       Standard.url := "https://www.gov.uk/wcag-requirements";
       Standard.content :=
         "Requirements for meeting WCAG 2.1 Level AA accessibility standards in government services. Services must provide alternative text for images.";
       Standard.summary := Some "WCAG accessibility requirements";
       Standard.lastUpdated := None;
       Standard.sourceOrg := Some "GDS";
       Standard.tags := ["accessibility"; "wcag"; "compliance"];
       Standard.complianceLevel := Some mandatory;
       Standard.relatedStandards := [];
       Standard.createdAt := 14%Z;
       Standard.updatedAt := 45%Z |} ].

(** The store that holds these two standards. *)
Definition mockState : @DatabaseManager.State Sample.World :=
  StoreSample.inserted mockStandards.

End ServerSample.

(** ** scripts/update.ts: has a scraped page changed? *)

Module UpdateScript.
Import JS.

(** [tags.sort()] without a comparator orders the strings by their code
    units, in place. *)
Definition sortTags (tags : list string) : list string := JS.sort String.leb tags.

Definition withTags (standard : Standard.t) (tags : list string) : Standard.t :=
  {| Standard.id := Standard.id standard;
     Standard.title := Standard.title standard;
     Standard.category := Standard.category standard;
     Standard.url := Standard.url standard;
     Standard.content := Standard.content standard;
     Standard.summary := Standard.summary standard;
     Standard.lastUpdated := Standard.lastUpdated standard;
     Standard.sourceOrg := Standard.sourceOrg standard;
     Standard.tags := tags;
     Standard.complianceLevel := Standard.complianceLevel standard;
     Standard.relatedStandards := Standard.relatedStandards standard;
     Standard.createdAt := Standard.createdAt standard;
     Standard.updatedAt := Standard.updatedAt standard |}.

(** The answer, and the two standards as the call leaves them: when the
    comparison gets as far as the tags, the tags of both are sorted. *)
Definition hasContentChanged (existing updated : Standard.t)
  : bool * (Standard.t * Standard.t) :=
  if negb (String.eqb (Standard.title existing) (Standard.title updated))
  then (true, (existing, updated))
  else if negb (String.eqb (Standard.content existing) (Standard.content updated))
  then (true, (existing, updated))
  else if negb (String.eqb (Standard.category existing) (Standard.category updated))
  then (true, (existing, updated))
  else
    let existingTags := sortTags (Standard.tags existing) in
    let updatedTags := sortTags (Standard.tags updated) in
    (negb (String.eqb (JSON_stringify existingTags) (JSON_stringify updatedTags)),
     (withTags existing existingTags, withTags updated updatedTags)).

End UpdateScript.

(** ** services/embedding-service.ts: the text that is embedded *)

Module EmbeddingService.
Import JS.

(** [s.lastIndexOf(c)] for a one-character string: -1 when [c] is absent. *)
Fixpoint lastIndexFrom (c : ascii) (s : string) (index : nat) (found : Z) : Z :=
  match s with
  | EmptyString => found
  | String a s' =>
      lastIndexFrom c s' (S index) (if Ascii.eqb a c then Z.of_nat index else found)
  end.

Definition lastIndexOf (c : ascii) (s : string) : Z := lastIndexFrom c s 0 (-1)%Z.

Definition truncateContent (content : string) (maxLength : nat) : string :=
  if String.length content <=? maxLength then content
  else
    let truncated := substring0 maxLength content in
    let lastSentence :=
      Z.max (lastIndexOf "." truncated)
        (Z.max (lastIndexOf "!" truncated) (lastIndexOf "?" truncated)) in
    if negb (Qle_bool (inject_Z lastSentence)
               (inject_Z (Z.of_nat maxLength) * (8 # 10)))
    then substring0 (Z.to_nat (lastSentence + 1)) truncated
    else truncated ++ "...".

Definition newline : ascii := ascii_of_nat 10.

Definition createEmbeddingText (standard : Standard.t) : string :=
  let parts :=
    [ Standard.title standard;
      Standard.title standard;
      "Category: " ++ Standard.category standard;
      match Standard.summary standard with Some s => s | None => EmptyString end;
      if 0 <? List.length (Standard.tags standard)
      then "Tags: " ++ String.concat ", " (Standard.tags standard)
      else EmptyString;
      truncateContent (Standard.content standard) 1000 ] in
  String.concat (String newline (String newline EmptyString))
    (filter (fun part => negb (falsyString part)) parts).

End EmbeddingService.

(** ** services/vector-storage.ts *)

(** What [collection.query] resolves with: for each of the query texts, here
    one, the ids, distances, metadata and documents of the nearest records.
    A field or an entry may be missing. *)
Module QueryResponse.
Record t : Type := mk {
  ids : option (list (list string));
  distances : option (list (list (option Q)));
  metadatas : option (list (list (option Metadata.t)));
  documents : option (list (list (option string)))
}.
End QueryResponse.

(** The [where] clause of a query. *)
Module Where.
Record t : Type := mk { category : option string; sourceOrg : option string }.
End Where.

(** The Chroma client with its collection, and the embedding model behind
    it. *)
Class Chroma (C : Type) : Type := {
  chroma_connect : C -> C * JS.Result unit;
  chroma_query : string -> Z -> option Where.t -> C -> C * JS.Result QueryResponse.t;
  chroma_add : string -> string -> Metadata.t -> C -> C * JS.Result unit
}.

Module VectorStorageService.
Import JS.

Section Service.
Context {C : Type} {client : Chroma C}.

Record Service : Type := mkService { isInitialized : bool; chroma : C }.

Definition initialize (service : Service) : Service * Result unit :=
  if isInitialized service then (service, Ok tt)
  else
    match chroma_connect (chroma service) with
    | (c, Ok _) => (mkService true c, Ok tt)
    | (c, Err e) => (mkService false c, Err e)
    end.

(** [if (!this.isInitialized) await this.initialize()]. *)
Definition ensureInitialized (service : Service) : Service * Result unit :=
  if negb (isInitialized service) then initialize service else (service, Ok tt).

Definition addStandard (standard : Standard.t) (service : Service)
  : Service * Result unit :=
  match ensureInitialized service with
  | (service1, Err e) => (service1, Err e)
  | (service1, Ok _) =>
      let embeddingText := EmbeddingService.createEmbeddingText standard in
      let (c, r) :=
        chroma_add (Standard.id standard) embeddingText (Sample.metadataOf standard)
          (chroma service1) in
      (mkService (isInitialized service1) c, r)
  end.

(** Reading an index of [undefined] throws. *)
Definition undefinedRead (property : string) : Error :=
  mkError ("Cannot read properties of undefined (reading '" ++ property ++ "')").

(** The decimal digits of an index. *)
Fixpoint digits (d : Decimal.uint) : string :=
  match d with
  | Decimal.Nil => EmptyString
  | Decimal.D0 d' => String "0" (digits d')
  | Decimal.D1 d' => String "1" (digits d')
  | Decimal.D2 d' => String "2" (digits d')
  | Decimal.D3 d' => String "3" (digits d')
  | Decimal.D4 d' => String "4" (digits d')
  | Decimal.D5 d' => String "5" (digits d')
  | Decimal.D6 d' => String "6" (digits d')
  | Decimal.D7 d' => String "7" (digits d')
  | Decimal.D8 d' => String "8" (digits d')
  | Decimal.D9 d' => String "9" (digits d')
  end.

Definition decimal (n : nat) : string := digits (Nat.to_uint n).

(** [field[0][i]]: [field[0]] may be [undefined], and so may the entry. *)
Definition entry {A} (field : list (list (option A))) (i : nat) : Result (option A) :=
  match hd_error field with
  | None => Err (undefinedRead (decimal i))
  | Some entries =>
      Ok match nth_error entries i with
         | Some x => x
         | None => None
         end
  end.

(** The body of the loop over [results.ids[0]], from the index [i] on. *)
Fixpoint processFrom (threshold : Q) (ids : list string) (i : nat)
  (distances : list (list (option Q)))
  (metadatas : list (list (option Metadata.t)))
  (documents : list (list (option string)))
  (processedResults : list VectorResult.t) : Result (list VectorResult.t) :=
  match ids with
  | [] => Ok processedResults
  | id :: rest =>
      match entry distances i with
      | Err e => Err e
      | Ok distance =>
          let score := (1 - match distance with Some d => d | None => 0 end)%Q in
          if negb (Qeq_bool threshold 0) && negb (Qle_bool threshold score)
          then processFrom threshold rest (S i) distances metadatas documents
                 processedResults
          else
            match entry metadatas i with
            | Err e => Err e
            | Ok metadata =>
                match entry documents i with
                | Err e => Err e
                | Ok document =>
                    processFrom threshold rest (S i) distances metadatas documents
                      (processedResults
                       ++ [VectorResult.mk id score metadata
                             match document with
                             | Some text => text
                             | None => EmptyString
                             end])%list
                end
            end
      end
  end.

Definition processResults (threshold : Q) (results : QueryResponse.t)
  : Result (list VectorResult.t) :=
  match QueryResponse.ids results, QueryResponse.distances results,
        QueryResponse.metadatas results, QueryResponse.documents results with
  | Some ids, Some distances, Some metadatas, Some documents =>
      match hd_error ids with
      | None => Err (undefinedRead "length")
      | Some first => processFrom threshold first 0 distances metadatas documents []
      end
  | _, _, _, _ => Ok []
  end.

(** The [where] clause of the filters that are set, if any is. *)
Definition whereOf (options : SemanticOptions.t) : option Where.t :=
  match DatabaseManager.orNull (SemanticOptions.category options),
        DatabaseManager.orNull (SemanticOptions.sourceOrg options) with
  | None, None => None
  | category, sourceOrg => Some (Where.mk category sourceOrg)
  end.

Definition semanticSearch (query : string) (options : SemanticOptions.t)
  (service : Service) : Service * Result (list VectorResult.t) :=
  match ensureInitialized service with
  | (service1, Err e) => (service1, Err e)
  | (service1, Ok _) =>
      let nResults :=
        if (SemanticOptions.limit options =? 0)%Z then 10%Z
        else SemanticOptions.limit options in
      match chroma_query query nResults (whereOf options) (chroma service1) with
      | (c, Err e) => (mkService (isInitialized service1) c, Err e)
      | (c, Ok results) =>
          (mkService (isInitialized service1) c,
           processResults (SemanticOptions.threshold options) results)
      end
  end.

(** The service as the vector store of the manager. *)
#[global] Instance vectorStore : Schema.VectorStore Service := {
  Schema.vs_semanticSearch := semanticSearch;
  Schema.vs_addStandard := addStandard
}.

End Service.
Arguments Service C : clear implicits.

(** What a query returns for a standard that [addStandard] has written: its
    id, the metadata and the embedded text. *)
Definition recordOf (standard : Standard.t) (score : Q) : VectorResult.t :=
  VectorResult.mk (Standard.id standard) score (Some (Sample.metadataOf standard))
    (EmbeddingService.createEmbeddingText standard).

(** The document that [hybridSearch] makes of such a record. *)
Definition reconstructed (standard : Standard.t) : Standard.t :=
  {| Standard.id := Standard.id standard;
     Standard.title := Standard.title standard;
     Standard.category := Standard.category standard;
     Standard.url := Standard.url standard;
     Standard.content :=
       substring0 500 (EmbeddingService.createEmbeddingText standard) ++ "...";
     Standard.summary := None;
     Standard.lastUpdated := Standard.lastUpdated standard;
     Standard.sourceOrg := DatabaseManager.orNull (Standard.sourceOrg standard);
     Standard.tags := Standard.tags standard;
     Standard.complianceLevel := Standard.complianceLevel standard;
     Standard.relatedStandards := [];
     Standard.createdAt := Standard.createdAt standard;
     Standard.updatedAt := Standard.createdAt standard |}.

(** A collection that answers every query with the same response. *)
Definition Fixed : Type := QueryResponse.t.

#[global] Instance fixedClient : Chroma Fixed := {
  chroma_connect c := (c, Ok tt);
  chroma_query _ _ _ c := (c, Ok c);
  chroma_add _ _ _ c := (c, Ok tt)
}.

(** Three records: the second is too far from the query, the third has no
    distance. *)
Definition threeRecords : Fixed :=
  QueryResponse.mk
    (Some [["api-security-1"; "accessibility-wcag-1"; "cloud-hosting-1"]])
    (Some [[Some (2 # 10); Some (9 # 10); None]])
    (Some [[Some (Sample.metadataOf Sample.apiSecurity);
            Some (Sample.metadataOf Sample.accessibilityWcag);
            Some (Sample.metadataOf Sample.cloudHosting)]])
    (Some [[Some "API Security Guidelines"; None; Some "Cloud Hosting Guide"]]).

(** A Chroma server that is not running: nothing can be reached. *)
Inductive Offline : Type := offline.

#[global] Instance offlineClient : Chroma Offline := {
  chroma_connect c := (c, Err Sample.unavailable);
  chroma_query _ _ _ c := (c, Err Sample.unavailable);
  chroma_add _ _ _ c := (c, Err Sample.unavailable)
}.


End VectorStorageService.

(* ================================================================== *)
(** * Part II: properties                                              *)
(* ================================================================== *)

(** ** Strings and arrays *)

Module JSFacts.
Import JS.

Lemma length_append (s t : string) :
  String.length (s ++ t) = String.length s + String.length t.
Proof.
  induction s as [| c s IH]; simpl; [reflexivity | now rewrite IH].
Qed.

Lemma length_substring0 (n : nat) (s : string) :
  String.length (substring0 n s) = Nat.min n (String.length s).
Proof.
  unfold substring0. revert s.
  induction n as [| n IH]; intros s.
  - destruct s; reflexivity.
  - destruct s as [| c s]; simpl; [reflexivity | now rewrite IH].
Qed.

Lemma array_includes_In (l : list string) (x : string) :
  array_includes l x = true <-> In x l.
Proof.
  unfold array_includes. rewrite existsb_exists. split.
  - intros [y [Hy Heq]]. apply String.eqb_eq in Heq. now subst.
  - intros Hx. exists x. split; [assumption | apply String.eqb_refl].
Qed.

Lemma set_add_In (s : list string) (x y : string) :
  In y (set_add s x) <-> In y s \/ y = x.
Proof.
  unfold set_add. destruct (array_includes s x) eqn:E.
  - apply array_includes_In in E. split; [now left |].
    intros [Hy | ->]; assumption.
  - rewrite in_app_iff. simpl. split.
    + intros [Hy | [-> | []]]; [now left | now right].
    + intros [Hy | ->]; [now left | right; now left].
Qed.

Lemma firstn_In {A} (n : nat) (l : list A) (x : A) : In x (firstn n l) -> In x l.
Proof.
  revert l. induction n as [| n IH]; intros [| y l]; simpl; try tauto.
  intros [-> | Hx]; [now left | right; now apply IH].
Qed.

End JSFacts.

(** ** The content classifier *)

Module ContentProcessorFacts.
Import JS JSFacts ContentProcessor ValidationRules.

(** *** The tests of the repository, on the model *)

Example test_id_of_page :
  option_map Standard.id
    (match processScrapedPage (runtime := Sample.platform) 0%Z 0%Z
             Sample.mockScrapedPage with
     | Ok d => Some d
     | Err _ => None
     end)
  = Some ("guidance-gds-api-technical-and-data-standards-"
          ++ substring0 8 (Sample.digest (ScrapedPage.url Sample.mockScrapedPage))).
Proof. vm_compute. reflexivity. Qed.

Example test_tags_of_page :
  extractTags (ScrapedPage.title Sample.mockScrapedPage)
    (ScrapedPage.content Sample.mockScrapedPage)
  = ["api"; "rest"; "json"; "oauth"; "https"; "gds"].
Proof. vm_compute. reflexivity. Qed.

Example test_government_terms :
  extractTags "Government Standard"
    "GDS Digital Service Standard for Cabinet Office applications"
  = ["gds"; "cabinet office"; "digital service standard"].
Proof. vm_compute. reflexivity. Qed.

Example test_mandatory :
  determineComplianceLevel
    "Services must implement HTTPS. This is mandatory for all government applications."
  = Some mandatory.
Proof. vm_compute. reflexivity. Qed.

Example test_recommended :
  determineComplianceLevel
    "Services should implement OAuth 2.0. This is recommended best practice."
  = Some recommended.
Proof. vm_compute. reflexivity. Qed.

Example test_optional :
  determineComplianceLevel
    "Services may implement caching. This could improve performance."
  = Some optional.
Proof. vm_compute. reflexivity. Qed.

Example test_related_by_tags :
  findRelatedStandards Sample.apiStandard
    [Sample.apiStandard; Sample.securityStandard; Sample.unrelatedStandard]
  = ["security-standard-1"].
Proof. vm_compute. reflexivity. Qed.

Example test_valid_standard :
  validateStandard (runtime := Sample.platform) validStandard = mkValidation true [].
Proof. vm_compute. reflexivity. Qed.

(** *** Compliance level *)

(** C4.  With the three indicator counts taken by containment, so that an
    indicator counts once however often it occurs, [determineComplianceLevel]
    answers mandatory exactly when the mandatory count is strictly above both
    others; otherwise recommended exactly when the recommended count is
    strictly above the optional one; otherwise optional exactly when the
    optional count is positive; otherwise nothing.  A tie between the
    mandatory and the recommended count is decided by the comparison of the
    recommended with the optional count, and the example contents are
    classified mandatory, recommended, optional and unset. *)
Theorem compliance_level_decision_rule :
  (forall content : string,
     let m := indicatorCount (toLowerCase content) mandatoryIndicators in
     let r := indicatorCount (toLowerCase content) recommendedIndicators in
     let o := indicatorCount (toLowerCase content) optionalIndicators in
     m <= List.length mandatoryIndicators /\
     r <= List.length recommendedIndicators /\
     o <= List.length optionalIndicators /\
     (determineComplianceLevel content = Some mandatory <-> r < m /\ o < m) /\
     (determineComplianceLevel content = Some recommended <->
        ~ (r < m /\ o < m) /\ o < r) /\
     (determineComplianceLevel content = Some optional <->
        ~ (r < m /\ o < m) /\ ~ o < r /\ 0 < o) /\
     (determineComplianceLevel content = None <->
        ~ (r < m /\ o < m) /\ ~ o < r /\ ~ 0 < o) /\
     (m = r ->
        determineComplianceLevel content =
          if o <? r then Some recommended
          else if 0 <? o then Some optional else None) /\
     (m = 0 -> r = 0 -> o = 0 -> determineComplianceLevel content = None)) /\
  indicatorCount (toLowerCase "Services must implement HTTPS and must log access.")
    mandatoryIndicators = 1 /\
  determineComplianceLevel "Services must implement HTTPS and must log access."
    = Some mandatory /\
  determineComplianceLevel "Services should implement caching. This is recommended."
    = Some recommended /\
  determineComplianceLevel "Services may cache responses." = Some optional /\
  determineComplianceLevel "The weather in Leeds was fine." = None.
Proof.
  split; [| repeat split; vm_compute; reflexivity].
  intros content m r o.
  assert (Hlen : forall l, indicatorCount (toLowerCase content) l <= List.length l)
    by (intros l; unfold indicatorCount; apply filter_length_le).
  split; [apply Hlen |]. split; [apply Hlen |]. split; [apply Hlen |].
  unfold determineComplianceLevel. fold m r o.
  destruct (Nat.ltb_spec r m), (Nat.ltb_spec o m), (Nat.ltb_spec o r),
    (Nat.ltb_spec 0 o); simpl;
    repeat split; intros; try discriminate; try reflexivity; try lia;
    try (exfalso; lia);
    repeat match goal with
      | Hc : _ /\ _ |- _ => destruct Hc
      end; try lia;
    try match goal with
      | Hn : ~ _ |- _ => exfalso; apply Hn; lia
      end;
    try (subst; repeat match goal with
           | |- context [?a <? ?b] => destruct (Nat.ltb_spec a b); try lia
           end; reflexivity).
Qed.

(** *** Validation *)

(** C7, as worded, fails: a content of fifty characters that ends in
    spaces satisfies "content has at least 50 characters", and
    [validateStandard] reports it all the same, because it measures the
    content after trimming. *)
Lemma validation_as_worded_fails :
  String.length paddedContent = 50 /\
  violationsAsWorded (runtime := Sample.platform) (withContent validStandard paddedContent) = [] /\
  errors (validateStandard (runtime := Sample.platform) (withContent validStandard paddedContent))
    = ["Standard content must be at least 50 characters long"] /\
  ~ (forall d : Standard.t,
       errors (validateStandard (runtime := Sample.platform) d)
       = violationsAsWorded (runtime := Sample.platform) d).
Proof.
  split; [reflexivity |]. split; [reflexivity |]. split; [reflexivity |].
  intros Hall. specialize (Hall (withContent validStandard paddedContent)).
  vm_compute in Hall. discriminate Hall.
Qed.

(** C7, amended.  [validateStandard] runs all five checks and reports one
    message for each rule that is violated, in the order of the checks: id,
    title and category not blank, url not empty and accepted by the URL
    parser, content of at least fifty characters once the surrounding white
    space is trimmed.  [valid] holds exactly when no message is reported, and
    the otherwise valid standard with an empty id, an empty title and a
    malformed url gets exactly three. *)
Theorem validation_accumulates {runtime : Platform} :
  (forall d : Standard.t,
     errors (validateStandard d) = violations d /\
     List.length (errors (validateStandard d))
       = countTrue [idMissing d; titleMissing d; urlInvalid d;
                    contentShort d; categoryMissing d] /\
     (valid (validateStandard d) = true <-> errors (validateStandard d) = [])) /\
  (forall d id title url,
     blank id = true -> blank title = true -> isValidUrl url = false ->
     contentShort d = false -> categoryMissing d = false ->
     errors (validateStandard (withIdTitleUrl d id title url))
     = ["Standard ID is required"; "Standard title is required";
        "Valid URL is required"]).
Proof.
  split.
  - intros d.
    assert (E : errors (validateStandard d) = violations d).
    { unfold validateStandard, violations, report, idMissing, titleMissing,
        urlInvalid, contentShort, categoryMissing, blank. simpl.
      destruct (falsyString (Standard.id d) || _);
      destruct (falsyString (Standard.title d) || _);
      destruct (falsyString (Standard.url d) || _);
      destruct (falsyString (Standard.content d) || _);
      destruct (falsyString (Standard.category d) || _); reflexivity. }
    split; [exact E |]. split.
    + rewrite E. unfold violations, report, countTrue.
      destruct (idMissing d), (titleMissing d), (urlInvalid d),
        (contentShort d), (categoryMissing d); reflexivity.
    + unfold validateStandard at 1. cbv zeta. simpl valid. rewrite Nat.eqb_eq.
      change (List.length (errors (validateStandard d)) = 0
              <-> errors (validateStandard d) = []).
      apply length_zero_iff_nil.
  - intros d id title url Hid Htitle Hurl Hcontent Hcategory.
    unfold validateStandard, withIdTitleUrl. simpl.
    unfold blank in Hid, Htitle. rewrite Hid, Htitle, Hurl.
    unfold contentShort in Hcontent. unfold categoryMissing, blank in Hcategory.
    simpl in Hcontent, Hcategory. rewrite Hcontent, Hcategory.
    rewrite orb_true_r. reflexivity.
Qed.

(** The standard of the test "should accumulate multiple validation errors". *)
Lemma validation_accumulates_witness :
  blank EmptyString = true /\
  isValidUrl (runtime := Sample.platform) "invalid" = false /\
  contentShort validStandard = false /\
  categoryMissing validStandard = false /\
  errors (validateStandard (runtime := Sample.platform)
            (withIdTitleUrl validStandard EmptyString EmptyString "invalid"))
  = ["Standard ID is required"; "Standard title is required";
     "Valid URL is required"].
Proof.
  split; [reflexivity |]. split; [reflexivity |].
  split; [reflexivity |]. split; [reflexivity |].
  apply (proj2 (validation_accumulates (runtime := Sample.platform)));
    vm_compute; reflexivity.
Defined.

(** *** Bounds on the derived fields *)

Lemma extractTags_length (title content : string) :
  List.length (extractTags title content) <= 20.
Proof. unfold extractTags. apply firstn_le_length. Qed.

Lemma generateSummary_length (content : string) (maxLength : nat) :
  3 <= maxLength -> String.length (generateSummary content maxLength) <= maxLength.
Proof.
  intros Hmax. unfold generateSummary.
  destruct (filter _ (split_runs is_terminator content)) as [| s0 sentences];
    [simpl; lia |].
  set (summary := (String.concat ". " _ ++ ".")%string).
  destruct (Nat.ltb_spec maxLength (String.length summary)) as [Hlong | Hshort].
  - rewrite length_append, length_substring0. simpl. lia.
  - exact Hshort.
Qed.

Lemma relatedStep_not_self (standard : Standard.t) (text : string)
  (related : list string) (other : Standard.t) :
  ~ In (Standard.id standard) related ->
  ~ In (Standard.id standard) (relatedStep standard text related other).
Proof.
  intros Hnot. unfold relatedStep.
  destruct (String.eqb_spec (Standard.id other) (Standard.id standard)) as [| Hne];
    [assumption |].
  assert (Hadd : forall l, ~ In (Standard.id standard) l ->
                           ~ In (Standard.id standard) (set_add l (Standard.id other))).
  { intros l Hl Hin. apply set_add_In in Hin. destruct Hin as [Hin | Heq].
    - now apply Hl.
    - now apply Hne. }
  repeat match goal with
    | |- context [if ?b then _ else _] => destruct b
    end; auto.
Qed.

Lemma related_fold_not_self (standard : Standard.t) (text : string)
  (allStandards : list Standard.t) (related : list string) :
  ~ In (Standard.id standard) related ->
  ~ In (Standard.id standard)
      (fold_left (relatedStep standard text) allStandards related).
Proof.
  revert related. induction allStandards as [| other rest IH]; intros related Hnot.
  - exact Hnot.
  - simpl. apply IH. now apply relatedStep_not_self.
Qed.

Lemma findRelatedStandards_bounds (standard : Standard.t)
  (allStandards : list Standard.t) :
  List.length (findRelatedStandards standard allStandards) <= 10 /\
  ~ In (Standard.id standard) (findRelatedStandards standard allStandards).
Proof.
  unfold findRelatedStandards. split.
  - apply firstn_le_length.
  - intros Hin. apply firstn_In in Hin.
    revert Hin. apply related_fold_not_self. intros [].
Qed.

(** C8.  A document that [processScrapedPage] produces has at most twenty
    tags and a summary of at most five hundred characters; the related
    standards that [findRelatedStandards] computes, for it and for any
    standard, are at most ten and never include the standard itself. *)
Theorem derived_field_bounds {runtime : Platform} :
  forall (createdNow updatedNow : Date) (page : ScrapedPage.t) (d : Standard.t)
         (standard : Standard.t) (allStandards : list Standard.t),
    processScrapedPage createdNow updatedNow page = Ok d ->
    (0 <= List.length (Standard.tags d) /\ List.length (Standard.tags d) <= 20) /\
    (forall s, Standard.summary d = Some s -> String.length s <= 500) /\
    (List.length (findRelatedStandards d allStandards) <= 10 /\
     ~ In (Standard.id d) (findRelatedStandards d allStandards)) /\
    (List.length (findRelatedStandards standard allStandards) <= 10 /\
     ~ In (Standard.id standard) (findRelatedStandards standard allStandards)).
Proof.
  intros createdNow updatedNow page d standard allStandards Hd.
  unfold processScrapedPage in Hd.
  destruct (generateStandardId (ScrapedPage.url page)) as [id | e];
    [| discriminate Hd].
  injection Hd as <-. simpl.
  split; [split; [lia | apply extractTags_length] |].
  split.
  - intros s Hs. injection Hs as <-. apply generateSummary_length. lia.
  - split; apply findRelatedStandards_bounds.
Qed.

(** The page of the classifier tests, and the three standards of the
    related-standards tests. *)
Lemma derived_field_bounds_witness :
  exists d : Standard.t,
    processScrapedPage (runtime := Sample.platform) 0%Z 0%Z Sample.mockScrapedPage = Ok d /\
    List.length (Standard.tags d) <= 20 /\
    (forall s, Standard.summary d = Some s -> String.length s <= 500) /\
    List.length (findRelatedStandards d
                   [Sample.apiStandard; Sample.securityStandard;
                    Sample.unrelatedStandard]) <= 10.
Proof.
  destruct (processScrapedPage (runtime := Sample.platform) 0%Z 0%Z Sample.mockScrapedPage)
    as [d | e] eqn:E; [| vm_compute in E; discriminate E].
  exists d. split; [reflexivity |].
  destruct (derived_field_bounds (runtime := Sample.platform) 0%Z 0%Z
              Sample.mockScrapedPage d d
              [Sample.apiStandard; Sample.securityStandard;
               Sample.unrelatedStandard] E)
    as [[_ Htags] [Hsum [[Hrel _] _]]].
  split; [exact Htags |]. split; [exact Hsum | exact Hrel].
Defined.

End ContentProcessorFacts.

(** ** Sorting *)

Module SortFacts.
Import JS.

Section Sort.
Context {A : Type} (before : A -> A -> bool).
Hypothesis before_total : forall x y, before x y = true \/ before y x = true.
Hypothesis before_trans :
  forall x y z, before x y = true -> before y z = true -> before x z = true.

Lemma insert_sorted_perm (x : A) (l : list A) :
  Permutation (insert_sorted before x l) (x :: l).
Proof.
  induction l as [| y l IH]; simpl; [reflexivity |].
  destruct (before x y); [reflexivity |].
  rewrite IH. apply perm_swap.
Qed.

Lemma sort_perm (l : list A) : Permutation (sort before l) l.
Proof.
  induction l as [| x l IH]; simpl; [reflexivity |].
  rewrite insert_sorted_perm. now apply perm_skip.
Qed.

Lemma insert_sorted_strongly (x : A) (l : list A) :
  StronglySorted (fun a b => before a b = true) l ->
  StronglySorted (fun a b => before a b = true) (insert_sorted before x l).
Proof.
  induction 1 as [| y l Hl IH Hy]; simpl.
  - constructor; constructor.
  - destruct (before x y) eqn:E.
    + constructor; [constructor; assumption |].
      constructor; [exact E |].
      rewrite Forall_forall in *. intros z Hz.
      eapply before_trans; [exact E | now apply Hy].
    + constructor; [assumption |].
      rewrite Forall_forall in *. intros z Hz.
      apply (Permutation_in _ (insert_sorted_perm x l)) in Hz.
      destruct Hz as [<- | Hz]; [| now apply Hy].
      destruct (before_total x y) as [Hxy | Hyx]; [congruence | exact Hyx].
Qed.

Lemma sort_strongly_sorted (l : list A) :
  StronglySorted (fun a b => before a b = true) (sort before l).
Proof.
  induction l as [| x l IH]; simpl; [constructor |].
  now apply insert_sorted_strongly.
Qed.

(** A list that is in order already is left as it is. *)
Lemma sort_sorted (l : list A) :
  StronglySorted (fun a b => before a b = true) l -> sort before l = l.
Proof.
  induction 1 as [| x l Hl IH Hx]; simpl; [reflexivity |].
  rewrite IH. destruct l as [| y l']; [reflexivity |]. simpl.
  inversion Hx as [| ? ? Hxy _]; subst. now rewrite Hxy.
Qed.

End Sort.

Lemma StronglySorted_weaken {A} (R R' : A -> A -> Prop) (l : list A) :
  (forall x y, R x y -> R' x y) -> StronglySorted R l -> StronglySorted R' l.
Proof.
  intros Himpl. induction 1 as [| x l Hl IH Hx]; constructor; [assumption |].
  rewrite Forall_forall in *. intros y Hy. now apply Himpl, Hx.
Qed.

Lemma StronglySorted_firstn {A} (R : A -> A -> Prop) (n : nat) (l : list A) :
  StronglySorted R l -> StronglySorted R (firstn n l).
Proof.
  intros Hl. revert n. induction Hl as [| x l Hl IH Hx]; intros [| n]; simpl;
    try constructor.
  - apply IH.
  - rewrite Forall_forall in *. intros y Hy. apply Hx.
    clear - Hy. revert l Hy. induction n as [| n IHn]; intros [| z l]; simpl; try tauto.
    intros [-> | Hy]; [now left | right; now apply IHn].
Qed.

Lemma slice0_firstn {A} (n : Z) (l : list A) :
  (0 <= n)%Z -> slice0 n l = firstn (Z.to_nat n) l.
Proof.
  intros Hn. unfold slice0. destruct (Z.ltb_spec n 0); [lia | reflexivity].
Qed.

End SortFacts.

(** ** The document store *)

Module DatabaseManagerFacts.
Import JS JSFacts SortFacts DatabaseManager Ranking.

(** *** Recovery of a damaged index *)

Section Recovery.
Context {W : Type} {backend : Backend W}.

Lemma all_unfold {R} (sql : Query R) (s : State) :
  all sql s =
    let (w1, r1) := sqlite_all sql (world s) in
    let s1 := mkState w1 (calls s ++ [CallAll sql]) in
    match r1 with
    | Ok rows => (s1, Ok rows)
    | Err err =>
        if isCorruption err
        then
          match rebuildFTSIndex s1 with
          | (s2, Ok _) =>
              let (w3, r3) := sqlite_all sql (world s2) in
              (mkState w3 (calls s2 ++ [CallAll sql]), r3)
          | (s2, Err e) => (s2, Err e)
          end
        else (s1, Err err)
    end.
Proof.
  unfold all, try_catch, db_all, primitive, bind, throw.
  destruct (sqlite_all sql (world s)) as [w1 [rows | err]]; [reflexivity |].
  destruct (isCorruption err); [| reflexivity].
  destruct (rebuildFTSIndex _) as [s2 [[] | e]]; reflexivity.
Qed.

Lemma rebuildFTSIndex_ok (s : State) (w2 w3 w4 : W) :
  sqlite_exec DropFts (world s) = (w2, Ok tt) ->
  sqlite_exec CreateFts w2 = (w3, Ok tt) ->
  sqlite_exec RebuildFts w3 = (w4, Ok tt) ->
  rebuildFTSIndex s =
    (mkState w4 (calls s ++ [CallExec DropFts; CallExec CreateFts; CallExec RebuildFts]),
     Ok tt).
Proof.
  intros Hdrop Hcreate Hrebuild.
  unfold rebuildFTSIndex, try_catch, bind, exec, db_exec, primitive.
  rewrite Hdrop. simpl. rewrite Hcreate. simpl. rewrite Hrebuild. simpl.
  now rewrite <- !app_assoc.
Qed.

(** A script of the rebuild that fails ends the rebuild, and [all] rejects
    with that error without running the query again. *)
Lemma all_rebuild_fails {R} (sql : Query R) (s : State) (w1 w2 : W) (err e : Error) :
  sqlite_all sql (world s) = (w1, Err err) ->
  isCorruption err = true ->
  sqlite_exec DropFts w1 = (w2, Err e) ->
  all sql s = (mkState w2 (calls s ++ [CallAll sql; CallExec DropFts]), Err e).
Proof.
  intros Hall Hsig Hdrop. rewrite all_unfold, Hall. cbv beta iota zeta.
  rewrite Hsig.
  unfold rebuildFTSIndex, try_catch, bind, exec, db_exec, primitive, throw.
  cbn [world calls]. rewrite Hdrop. now rewrite <- app_assoc.
Qed.

(** C3.  When the query fails with an error whose message carries the
    signature of a damaged index, [all] drops the FTS table, creates it
    again, rebuilds it from the table of standards and runs the query once
    more, exactly once: the outcome of that second run, rows or error, is the
    outcome of [all].  An error without the signature is passed on at once and
    nothing is rebuilt. *)
Theorem all_self_healing :
  forall (R : Type) (sql : Query R) (s : State) (w1 : W) (err : Error),
    sqlite_all sql (world s) = (w1, Err err) ->
    (isCorruption err = false ->
       all sql s = (mkState w1 (calls s ++ [CallAll sql]), Err err)) /\
    (isCorruption err = true ->
       forall w2 w3 w4 : W,
         sqlite_exec DropFts w1 = (w2, Ok tt) ->
         sqlite_exec CreateFts w2 = (w3, Ok tt) ->
         sqlite_exec RebuildFts w3 = (w4, Ok tt) ->
         all sql s =
           (mkState (fst (sqlite_all sql w4))
              (calls s ++ [CallAll sql; CallExec DropFts; CallExec CreateFts;
                           CallExec RebuildFts; CallAll sql]),
            snd (sqlite_all sql w4))).
Proof.
  intros R sql s w1 err Hall. split; intros Hsig.
  - rewrite all_unfold, Hall. cbv beta iota zeta. now rewrite Hsig.
  - intros w2 w3 w4 Hdrop Hcreate Hrebuild.
    rewrite all_unfold, Hall. cbv beta iota zeta. rewrite Hsig.
    rewrite (rebuildFTSIndex_ok (mkState w1 _) w2 w3 w4 Hdrop Hcreate Hrebuild).
    cbn [world calls]. destruct (sqlite_all sql w4) as [w5 r5]. cbn [fst snd].
    now rewrite <- !app_assoc.
Qed.

End Recovery.

(** *** The result map of the hybrid ranker *)

Section Fusion.
Context {runtime : Platform}.

Lemma map_get_set_same (m : ResultMap) (k : string) (v : SearchResult.t) :
  map_get (map_set m k v) k = Some v.
Proof.
  induction m as [| [k' v'] m IH]; simpl.
  - now rewrite String.eqb_refl.
  - destruct (String.eqb_spec k' k) as [-> | Hne]; simpl.
    + now rewrite String.eqb_refl.
    + destruct (String.eqb_spec k' k); [contradiction | exact IH].
Qed.

Lemma map_get_set_other (m : ResultMap) (k k' : string) (v : SearchResult.t) :
  k <> k' -> map_get (map_set m k v) k' = map_get m k'.
Proof.
  intros Hne. induction m as [| [k0 v0] m IH]; simpl.
  - destruct (String.eqb_spec k k'); [contradiction | reflexivity].
  - destruct (String.eqb_spec k0 k) as [-> | Hk]; simpl.
    + destruct (String.eqb_spec k k'); [contradiction | reflexivity].
    + destruct (String.eqb_spec k0 k'); [reflexivity | exact IH].
Qed.

Lemma map_set_keys (m : ResultMap) (k k' : string) (v : SearchResult.t) :
  In k' (map fst (map_set m k v)) <-> In k' (map fst m) \/ k' = k.
Proof.
  induction m as [| [k0 v0] m IH]; simpl.
  - intuition.
  - destruct (String.eqb_spec k0 k) as [-> | Hk]; simpl; [intuition |].
    rewrite IH. intuition.
Qed.

Lemma map_set_NoDup (m : ResultMap) (k : string) (v : SearchResult.t) :
  NoDup (map fst m) -> NoDup (map fst (map_set m k v)).
Proof.
  induction m as [| [k0 v0] m IH]; simpl; intros Hm.
  - constructor; [intros [] | constructor].
  - inversion Hm as [| ? ? Hk0 Hm']; subst.
    destruct (String.eqb_spec k0 k) as [-> | Hk]; simpl.
    + now constructor.
    + constructor; [| now apply IH].
      rewrite map_set_keys. intros [Hin | Heq]; [contradiction | contradiction].
Qed.

Lemma map_set_keyed (m : ResultMap) (k : string) (v : SearchResult.t) :
  keyed m -> k = resultId v -> keyed (map_set m k v).
Proof.
  unfold keyed. intros Hm Hk.
  induction m as [| [k0 v0] m IH]; simpl.
  - constructor; [exact Hk | constructor].
  - inversion Hm as [| ? ? Hk0 Hm']; subst k.
    destruct (String.eqb_spec k0 (resultId v)) as [-> | Hne].
    + constructor; [reflexivity | assumption].
    + constructor; [assumption | now apply IH].
Qed.

Lemma map_get_In (m : ResultMap) (k : string) (v : SearchResult.t) :
  NoDup (map fst m) -> In (k, v) m -> map_get m k = Some v.
Proof.
  induction m as [| [k0 v0] m IH]; simpl; intros Hm Hin; [contradiction |].
  inversion Hm as [| ? ? Hk0 Hm']; subst.
  destruct Hin as [Heq | Hin].
  - injection Heq as -> ->. now rewrite String.eqb_refl.
  - destruct (String.eqb_spec k0 k) as [-> | Hne]; [| now apply IH].
    exfalso. apply Hk0. apply in_map_iff. now exists (k, v).
Qed.

Lemma map_get_keyed (m : ResultMap) (x : SearchResult.t) :
  NoDup (map fst m) -> keyed m -> In x (map_values m) ->
  map_get m (resultId x) = Some x.
Proof.
  intros Hnd Hkeyed Hin. unfold map_values in Hin. apply in_map_iff in Hin.
  destruct Hin as [[k v] [Hv Hin]]. simpl in Hv. subst v.
  unfold keyed in Hkeyed. rewrite Forall_forall in Hkeyed.
  specialize (Hkeyed _ Hin). simpl in Hkeyed. subst k.
  now apply map_get_In.
Qed.

(** The lexical pass. *)

Lemma addFts_wf (w : Q) (l : list SearchResult.t) (m : ResultMap) :
  NoDup (map fst m) -> keyed m ->
  NoDup (map fst (fold_left (addFtsResult w) l m))
  /\ keyed (fold_left (addFtsResult w) l m).
Proof.
  revert m. induction l as [| r l IH]; intros m Hnd Hk; simpl; [now split |].
  apply IH.
  - now apply map_set_NoDup.
  - now apply map_set_keyed.
Qed.

Lemma addFts_other (w : Q) (l : list SearchResult.t) (m : ResultMap) (k : string) :
  ~ In k (map resultId l) ->
  map_get (fold_left (addFtsResult w) l m) k = map_get m k.
Proof.
  revert m. induction l as [| r l IH]; intros m Hk; simpl; [reflexivity |].
  simpl in Hk. rewrite IH by tauto.
  apply map_get_set_other. intros Heq. apply Hk. now left.
Qed.

Lemma addFts_same (w : Q) (l : list SearchResult.t) (m : ResultMap) (r : SearchResult.t) :
  NoDup (map resultId l) -> In r l ->
  map_get (fold_left (addFtsResult w) l m) (resultId r) = Some (scaled w r).
Proof.
  revert m. induction l as [| a l IH]; intros m Hnd Hin; [contradiction |].
  simpl in Hnd. inversion Hnd as [| ? ? Ha Hl]; subst. simpl.
  destruct Hin as [-> | Hin].
  - rewrite addFts_other by exact Ha. apply map_get_set_same.
  - now apply IH.
Qed.

Lemma addFts_values (w : Q) (l : list SearchResult.t) (m : ResultMap) :
  NoDup (map fst m ++ map resultId l) ->
  fold_left (addFtsResult w) l m
  = (m ++ map (fun r => (resultId r, scaled w r)) l)%list.
Proof.
  revert m. induction l as [| r l IH]; intros m Hnd; simpl.
  - now rewrite app_nil_r.
  - assert (Hset : addFtsResult w m r = (m ++ [(resultId r, scaled w r)])%list).
    { unfold addFtsResult. fold (resultId r). fold (scaled w r).
      assert (Hr : ~ In (resultId r) (map fst m)).
      { intros Hin. apply NoDup_remove_2 in Hnd. apply Hnd.
        apply in_or_app. now left. }
      clear - Hr. induction m as [| [k v] m IHm]; simpl; [reflexivity |].
      destruct (String.eqb_spec k (resultId r)) as [-> | Hne].
      - exfalso. apply Hr. now left.
      - f_equal. apply IHm. intros Hin. apply Hr. now right. }
    rewrite Hset, IH.
    + now rewrite <- app_assoc.
    + rewrite map_app. simpl. rewrite <- app_assoc. simpl.
      replace (map fst m ++ resultId r :: map resultId l)%list
        with (map fst m ++ map resultId (r :: l))%list by reflexivity.
      exact Hnd.
Qed.

(** The semantic pass. *)

Lemma standardOfVector_id (v : VectorResult.t) (standard : Standard.t) :
  standardOfVector v = Ok standard -> Standard.id standard = VectorResult.id v.
Proof.
  unfold standardOfVector.
  destruct (VectorResult.metadata v) as [metadata |]; [| discriminate].
  destruct (if falsyString (Metadata.tags metadata) then _ else _); [| discriminate].
  intros Heq. injection Heq as <-. reflexivity.
Qed.

Lemma addVector_wf (w : Q) (m m' : ResultMap) (v : VectorResult.t) :
  NoDup (map fst m) -> keyed m ->
  addVectorResult w m v = Ok m' ->
  NoDup (map fst m') /\ keyed m'.
Proof.
  intros Hnd Hk. unfold addVectorResult.
  destruct (map_get m (VectorResult.id v)) as [existing |] eqn:Hget.
  - intros Heq. injection Heq as <-. split; [now apply map_set_NoDup |].
    apply map_set_keyed; [assumption |].
    unfold resultId. simpl.
    assert (Hin : In (VectorResult.id v, existing) m).
    { clear - Hget. induction m as [| [k0 v0] m IH]; simpl in *; [discriminate |].
      destruct (String.eqb_spec k0 (VectorResult.id v)) as [-> | Hne].
      - injection Hget as ->. now left.
      - right. now apply IH. }
    unfold keyed in Hk. rewrite Forall_forall in Hk. apply (Hk _ Hin).
  - destruct (standardOfVector v) as [standard | e] eqn:Hstd; [| discriminate].
    intros Heq. injection Heq as <-. split; [now apply map_set_NoDup |].
    apply map_set_keyed; [assumption |].
    unfold resultId. simpl. symmetry. now apply standardOfVector_id.
Qed.

Lemma addVectors_wf (w : Q) (vs : list VectorResult.t) (m m' : ResultMap) :
  NoDup (map fst m) -> keyed m ->
  addVectorResults w m vs = Ok m' ->
  NoDup (map fst m') /\ keyed m'.
Proof.
  revert m. induction vs as [| v vs IH]; intros m Hnd Hk; simpl.
  - intros Heq. injection Heq as <-. now split.
  - destruct (addVectorResult w m v) as [m1 | e] eqn:Hv; [| discriminate].
    destruct (addVector_wf w m m1 v Hnd Hk Hv) as [Hnd1 Hk1].
    now apply IH.
Qed.

Lemma addVector_other (w : Q) (m m' : ResultMap) (v : VectorResult.t) (k : string) :
  addVectorResult w m v = Ok m' -> VectorResult.id v <> k ->
  map_get m' k = map_get m k.
Proof.
  unfold addVectorResult. intros Hv Hne.
  destruct (map_get m (VectorResult.id v)).
  - injection Hv as <-. now apply map_get_set_other.
  - destruct (standardOfVector v); [| discriminate].
    injection Hv as <-. now apply map_get_set_other.
Qed.

Lemma addVectors_other (w : Q) (vs : list VectorResult.t) (m m' : ResultMap) (k : string) :
  addVectorResults w m vs = Ok m' -> ~ In k (map VectorResult.id vs) ->
  map_get m' k = map_get m k.
Proof.
  revert m. induction vs as [| v vs IH]; intros m; simpl.
  - intros Heq _. now injection Heq as <-.
  - destruct (addVectorResult w m v) as [m1 | e] eqn:Hv; [| discriminate].
    intros Hrest Hk. rewrite (IH m1 Hrest) by tauto.
    apply (addVector_other w m m1 v k Hv). tauto.
Qed.

Lemma addVector_same (w : Q) (m m' : ResultMap) (v : VectorResult.t) :
  addVectorResult w m v = Ok m' ->
  fusedAt w (map_get m (VectorResult.id v)) v (map_get m' (VectorResult.id v)).
Proof.
  unfold addVectorResult, fusedAt.
  destruct (map_get m (VectorResult.id v)) as [existing |].
  - intros Heq. injection Heq as <-. apply map_get_set_same.
  - destruct (standardOfVector v) as [standard | e]; [| discriminate].
    intros Heq. injection Heq as <-. exists standard.
    split; [reflexivity | apply map_get_set_same].
Qed.

Lemma addVectors_same (w : Q) (vs : list VectorResult.t) (m m' : ResultMap)
  (v : VectorResult.t) :
  NoDup (map VectorResult.id vs) -> In v vs ->
  addVectorResults w m vs = Ok m' ->
  fusedAt w (map_get m (VectorResult.id v)) v (map_get m' (VectorResult.id v)).
Proof.
  revert m. induction vs as [| a vs IH]; intros m Hnd Hin; [contradiction |].
  simpl in Hnd. inversion Hnd as [| ? ? Ha Hvs]; subst. simpl.
  destruct (addVectorResult w m a) as [m1 | e] eqn:Ha1; [| discriminate].
  intros Hrest. destruct Hin as [-> | Hin].
  - rewrite (addVectors_other w vs m1 m' _ Hrest Ha).
    now apply addVector_same.
  - assert (Hne : VectorResult.id a <> VectorResult.id v).
    { intros Heq. apply Ha. rewrite Heq. now apply in_map. }
    rewrite <- (addVector_other w m m1 a _ Ha1 Hne).
    now apply IH.
Qed.

End Fusion.

(** *** Hybrid search *)

Section Hybrid.
Context {W : Type} {backend : Backend W} {runtime : Platform}.

Lemma hybridSearch_unfold (query : string) (category organisation : option string)
  (options : HybridOptions.t) (s : State) :
  hybridSearch query category organisation options s =
    match searchStandards query category organisation s with
    | (s1, Err _) => searchStandards query category organisation s1
    | (s1, Ok ftsResults) =>
        let (s2, r) :=
          vectorStorage_semanticSearch query
            (semanticOptionsOf category organisation options) s1 in
        let vectorResults := match r with Ok v => v | Err _ => [] end in
        match fuse (weightOf options) (limitOf options) ftsResults vectorResults with
        | Ok results => (s2, Ok results)
        | Err _ => searchStandards query category organisation s2
        end
    end.
Proof.
  unfold hybridSearch, try_catch, bind, lift, ret.
  fold (weightOf options). fold (limitOf options).
  change (SemanticOptions.mk (limitOf options) category organisation
            (orDefault (HybridOptions.semanticThreshold options) (3 # 10)))
    with (semanticOptionsOf category organisation options).
  destruct (searchStandards query category organisation s) as [s1 [ftsResults | e]];
    [| reflexivity].
  destruct (vectorStorage_semanticSearch query _ s1) as [s2 [vectorResults | e]];
    destruct (fuse _ _ _ _); reflexivity.
Qed.

Lemma byScoreDesc_total (x y : SearchResult.t) :
  byScoreDesc x y = true \/ byScoreDesc y x = true.
Proof.
  unfold byScoreDesc. rewrite !Qle_bool_iff.
  destruct (Qlt_le_dec (SearchResult.relevanceScore x) (SearchResult.relevanceScore y))
    as [Hlt | Hle]; [right; now apply Qlt_le_weak | now left].
Qed.

Lemma byScoreDesc_trans (x y z : SearchResult.t) :
  byScoreDesc x y = true -> byScoreDesc y z = true -> byScoreDesc x z = true.
Proof.
  unfold byScoreDesc. rewrite !Qle_bool_iff. intros Hxy Hyz.
  now apply Qle_trans with (SearchResult.relevanceScore y).
Qed.

Lemma sorted_descending (l : list SearchResult.t) :
  StronglySorted descending (JS.sort byScoreDesc l).
Proof.
  pose proof (sort_strongly_sorted byScoreDesc byScoreDesc_total byScoreDesc_trans l)
    as Hs.
  induction Hs as [| x l' Hl IH Hx]; constructor; [assumption |].
  rewrite Forall_forall in *. intros y Hy. specialize (Hx y Hy).
  unfold descending. unfold byScoreDesc in Hx. now apply Qle_bool_iff.
Qed.

Lemma combine_wf (w : Q) (ftsResults : list SearchResult.t)
  (vectorResults : list VectorResult.t) (combined : ResultMap) :
  combine w ftsResults vectorResults = Ok combined ->
  NoDup (map fst combined) /\ keyed combined.
Proof.
  unfold combine.
  destruct (addFts_wf w ftsResults []) as [Hnd Hk]; [constructor | constructor |].
  now apply addVectors_wf.
Qed.

(** C1.  With weight [w], a document that both searches return, with
    lexical score [L] and semantic score [S], stands in the fused map with
    score [L * (1 - w) + S * w] and with "semantic" appended to its matched
    fields; a document that only the semantic search returns stands there
    with score [S * w] and the matched fields ["semantic"]; and
    [hybridSearch] returns the entries of that map sorted by descending score
    and cut to the first [maxResults]. *)
Theorem hybrid_fusion :
  forall (query : string) (category organisation : option string)
         (options : HybridOptions.t) (s s1 s2 : State)
         (ftsResults : list SearchResult.t) (vectorResults : list VectorResult.t)
         (combined : ResultMap),
    let w := weightOf options in
    let maxResults := limitOf options in
    searchStandards query category organisation s = (s1, Ok ftsResults) ->
    vectorStorage_semanticSearch query
      (semanticOptionsOf category organisation options) s1 = (s2, Ok vectorResults) ->
    NoDup (map resultId ftsResults) ->
    NoDup (map VectorResult.id vectorResults) ->
    combine w ftsResults vectorResults = Ok combined ->
    (0 <= maxResults)%Z ->
    (forall r v,
       In r ftsResults -> In v vectorResults -> resultId r = VectorResult.id v ->
       map_get combined (VectorResult.id v)
       = Some (SearchResult.mk (SearchResult.standard r)
                 (SearchResult.relevanceScore r * (1 - w)
                  + VectorResult.score v * w)%Q
                 (SearchResult.matchedFields r ++ ["semantic"])%list)) /\
    (forall v,
       In v vectorResults -> ~ In (VectorResult.id v) (map resultId ftsResults) ->
       exists standard,
         standardOfVector v = Ok standard /\
         map_get combined (VectorResult.id v)
         = Some (SearchResult.mk standard (VectorResult.score v * w)%Q ["semantic"])) /\
    exists results,
      hybridSearch query category organisation options s = (s2, Ok results) /\
      results = firstn (Z.to_nat maxResults) (JS.sort byScoreDesc (map_values combined)) /\
      StronglySorted descending results /\
      List.length results <= Z.to_nat maxResults /\
      (forall x, In x results -> map_get combined (resultId x) = Some x) /\
      Permutation (JS.sort byScoreDesc (map_values combined)) (map_values combined).
Proof.
  intros query category organisation options s s1 s2 ftsResults vectorResults
    combined w maxResults Hfts Hvec Hnd_fts Hnd_vec Hcombine Hmax.
  pose proof Hcombine as Hc. unfold combine in Hc.
  split; [| split].
  - intros r v Hr Hv Hid.
    pose proof (addVectors_same w vectorResults _ combined v Hnd_vec Hv Hc) as Hfused.
    rewrite <- Hid in Hfused at 1.
    rewrite (addFts_same w ftsResults [] r Hnd_fts Hr) in Hfused.
    exact Hfused.
  - intros v Hv Hnot.
    pose proof (addVectors_same w vectorResults _ combined v Hnd_vec Hv Hc) as Hfused.
    rewrite (addFts_other w ftsResults [] _ Hnot) in Hfused.
    exact Hfused.
  - exists (firstn (Z.to_nat maxResults) (JS.sort byScoreDesc (map_values combined))).
    split; [| split; [reflexivity | split; [| split; [| split]]]].
    + rewrite hybridSearch_unfold, Hfts, Hvec. cbv zeta.
      unfold fuse. fold w. rewrite Hcombine. unfold rank. fold maxResults.
      now rewrite slice0_firstn.
    + apply StronglySorted_firstn, sorted_descending.
    + apply firstn_le_length.
    + intros x Hx. apply firstn_In in Hx.
      apply (Permutation_in _ (sort_perm byScoreDesc (map_values combined))) in Hx.
      destruct (combine_wf w ftsResults vectorResults combined Hcombine) as [Hnd Hk].
      now apply map_get_keyed.
    + apply sort_perm.
Qed.

(** C2, amended.  After a lexical search that succeeds, a semantic search
    that throws is taken for an empty semantic result: [hybridSearch]
    resolves with the lexical results, each score multiplied by
    [1 - semanticWeight], sorted by descending score (which is the lexical
    order when that list is in descending order and the weight is at most 1)
    and cut to [maxResults].
    A fusion that throws makes [hybridSearch] run the lexical search again
    and resolve or reject as that search does.  The error of the semantic
    search or of the fusion is never the outcome. *)
Theorem semantic_failure_degrades :
  forall (query : string) (category organisation : option string)
         (options : HybridOptions.t) (s s1 s2 : State)
         (ftsResults : list SearchResult.t),
    let w := weightOf options in
    let maxResults := limitOf options in
    searchStandards query category organisation s = (s1, Ok ftsResults) ->
    (forall e,
       vectorStorage_semanticSearch query
         (semanticOptionsOf category organisation options) s1 = (s2, Err e) ->
       hybridSearch query category organisation options s
       = (s2, Ok (rank maxResults (fold_left (addFtsResult w) ftsResults []))) /\
       (NoDup (map resultId ftsResults) ->
        rank maxResults (fold_left (addFtsResult w) ftsResults [])
        = slice0 maxResults (JS.sort byScoreDesc (map (scaled w) ftsResults)) /\
        ((0 <= maxResults)%Z ->
         List.length (rank maxResults (fold_left (addFtsResult w) ftsResults []))
         = Nat.min (Z.to_nat maxResults) (List.length ftsResults)) /\
        (StronglySorted descending ftsResults -> (w <= 1)%Q ->
         rank maxResults (fold_left (addFtsResult w) ftsResults [])
         = slice0 maxResults (map (scaled w) ftsResults)))) /\
    (forall vectorResults e,
       vectorStorage_semanticSearch query
         (semanticOptionsOf category organisation options) s1 = (s2, Ok vectorResults) ->
       fuse w maxResults ftsResults vectorResults = Err e ->
       hybridSearch query category organisation options s
       = searchStandards query category organisation s2).
Proof.
  intros query category organisation options s s1 s2 ftsResults w maxResults Hfts.
  split.
  - intros e Hvec. split.
    + rewrite hybridSearch_unfold, Hfts, Hvec. reflexivity.
    + intros Hnd.
      assert (Hvalues : map_values (fold_left (addFtsResult w) ftsResults [])
                        = map (scaled w) ftsResults).
      { rewrite addFts_values by exact Hnd. simpl. unfold map_values.
        rewrite map_map. reflexivity. }
      unfold rank. rewrite Hvalues. split; [reflexivity |]. split.
      * intros Hmax. rewrite slice0_firstn by exact Hmax.
        rewrite length_firstn.
        rewrite (Permutation_length (sort_perm byScoreDesc _)).
        now rewrite length_map.
      * intros Hsorted Hw. f_equal. apply sort_sorted.
        clear - Hsorted Hw. induction Hsorted as [| x l Hl IH Hx]; simpl;
          constructor; [assumption |].
        rewrite Forall_forall in *. intros y Hy. apply in_map_iff in Hy.
        destruct Hy as [z [<- Hz]]. specialize (Hx z Hz).
        unfold byScoreDesc, scaled, descending in *. simpl.
        apply Qle_bool_iff. apply Qmult_le_compat_r; [exact Hx |].
        unfold Qminus. rewrite <- (Qplus_opp_r w).
        apply Qplus_le_compat; [exact Hw | apply Qle_refl].
  - intros vectorResults e Hvec Hfuse.
    rewrite hybridSearch_unfold, Hfts, Hvec. cbv zeta.
    fold w. fold maxResults. now rewrite Hfuse.
Qed.

End Hybrid.

(** *** The properties on the sample store *)

Section OnSample.
Import Sample.

Ltac by_computation := vm_compute; reflexivity.

Ltac distinct :=
  vm_compute;
  repeat (constructor; [simpl; intuition discriminate |]);
  constructor.

(** The store of the search tests.  With a damaged index the query fails
    once, the three scripts run, and the second run of the query gives the
    rows that the undamaged store gives.  With the table of the index
    missing the error has no corruption signature and is passed on after the
    one call. *)
Lemma all_self_healing_witness :
  let sql := SelectFtsMatch "API OAuth" [] in
  let s := start (corruptWorld (Some [])) in
  let s' := start (withIndex Missing (Some [])) in
  isCorruption (mkError "SQLITE_CORRUPT: database disk image is malformed") = true /\
  all sql s
  = (mkState (fst (sqlite_all sql (testWorld (Some []))))
       [CallAll sql; CallExec DropFts; CallExec CreateFts; CallExec RebuildFts;
        CallAll sql],
     snd (sqlite_all sql (testWorld (Some [])))) /\
  snd (all sql s) = snd (all sql (testState (Some []))) /\
  isCorruption (mkError "SQLITE_ERROR: no such table: standards_fts") = false /\
  all sql s'
  = (mkState (withIndex Missing (Some [])) [CallAll sql],
     Err (mkError "SQLITE_ERROR: no such table: standards_fts")).
Proof.
  intros sql s s'. split; [reflexivity |].
  assert (Hall : all sql s
    = (mkState (fst (sqlite_all sql (testWorld (Some []))))
         (calls s ++ [CallAll sql; CallExec DropFts; CallExec CreateFts;
                      CallExec RebuildFts; CallAll sql]),
       snd (sqlite_all sql (testWorld (Some []))))).
  { refine (proj2 (all_self_healing _ sql s (corruptWorld (Some []))
                     (mkError "SQLITE_CORRUPT: database disk image is malformed") _)
              _ (fst (sqlite_exec DropFts (corruptWorld (Some []))))
              (fst (sqlite_exec CreateFts
                      (fst (sqlite_exec DropFts (corruptWorld (Some []))))))
              (testWorld (Some [])) _ _ _); by_computation. }
  split; [exact Hall |]. split; [rewrite Hall; by_computation |].
  split; [reflexivity |].
  refine (proj1 (all_self_healing _ sql s' (withIndex Missing (Some []))
                   (mkError "SQLITE_ERROR: no such table: standards_fts") _) _);
    by_computation.
Defined.

(** The two standards of the search tests and a semantic answer of two
    records: the standard found by both searches and the one found by the
    semantic search alone get the scores of the rule, in descending order. *)
Lemma hybrid_fusion_witness :
  let s := testState (Some semanticHits) in
  exists results,
    snd (hybridSearch "OAuth" None None defaults s) = Ok results /\
    map (fun x => (resultId x, SearchResult.relevanceScore x,
                   SearchResult.matchedFields x)) results
    = [("api-security-1", (2 * (1 - (6 # 10)) + (8 # 10) * (6 # 10))%Q,
        ["content"; "tags"; "semantic"]);
       ("cloud-hosting-1", ((1 # 2) * (6 # 10))%Q, ["semantic"])] /\
    StronglySorted descending results.
Proof.
  intros s.
  pose (r1 := searchStandards "OAuth" None None s).
  pose (fts := match snd r1 with Ok l => l | Err _ => [] end).
  pose (r2 := vectorStorage_semanticSearch "OAuth"
                (semanticOptionsOf None None defaults) (fst r1)).
  pose (comb := match combine (weightOf defaults) fts semanticHits with
                | Ok m => m
                | Err _ => []
                end).
  destruct (hybrid_fusion "OAuth" None None defaults s (fst r1) (fst r2) fts
              semanticHits comb)
    as (_ & _ & results & Hrun & Heq & Hsorted & _).
  - by_computation.
  - by_computation.
  - distinct.
  - distinct.
  - by_computation.
  - vm_compute. discriminate.
  - exists results. split; [now rewrite Hrun |].
    split; [rewrite Heq; by_computation | exact Hsorted].
Defined.

(** C2, as worded, fails on the store of the search tests.  The semantic
    search throws.  With the options both servers pass, [hybridSearch] does
    not return the list of the lexical search, whose scores are 1, but that
    list with the scores 0.4; with [maxResults] 1 it returns one of the two
    lexical results. *)
Lemma degradation_as_worded_fails :
  let s := testState None in
  let one := HybridOptions.mk None None (Some 1%Z) in
  snd (vectorStorage_semanticSearch EmptyString
         (semanticOptionsOf None None defaults) s) = Err unavailable /\
  (exists lexical,
     snd (searchStandards EmptyString None None s) = Ok lexical /\
     map (fun x => (resultId x, SearchResult.relevanceScore x)) lexical
     = [("api-security-1", 1%Q); ("accessibility-wcag-1", 1%Q)]) /\
  (exists results,
     snd (hybridSearch EmptyString None None defaults s) = Ok results /\
     map (fun x => (resultId x, SearchResult.relevanceScore x)) results
     = [("api-security-1", (4 # 10)%Q); ("accessibility-wcag-1", (4 # 10)%Q)]) /\
  (exists results,
     snd (hybridSearch EmptyString None None one s) = Ok results /\
     map resultId results = ["api-security-1"]) /\
  snd (hybridSearch EmptyString None None defaults s)
  <> snd (searchStandards EmptyString None None s).
Proof.
  intros s one. split; [by_computation |]. split; [| split; [| split]].
  - eexists. split; by_computation.
  - eexists. split; by_computation.
  - eexists. split; by_computation.
  - vm_compute. intros Heq. discriminate Heq.
Qed.

(** On the store of the search tests: without the semantic index the
    lexical result comes back with its score scaled, and a semantic record
    without metadata, on which the fusion throws, gives the answer of the
    lexical search. *)
Lemma semantic_failure_degrades_witness :
  (exists results,
     snd (hybridSearch "OAuth" None None defaults (testState None)) = Ok results /\
     map (fun x => (resultId x, SearchResult.relevanceScore x)) results
     = [("api-security-1", (2 * (1 - (6 # 10)))%Q)]) /\
  snd (hybridSearch "OAuth" None None defaults (testState (Some brokenHits)))
  = snd (searchStandards "OAuth" None None (testState (Some brokenHits))).
Proof.
  split.
  - pose (s := testState None).
    pose (r1 := searchStandards "OAuth" None None s).
    pose (fts := match snd r1 with Ok l => l | Err _ => [] end).
    pose (r2 := vectorStorage_semanticSearch "OAuth"
                  (semanticOptionsOf None None defaults) (fst r1)).
    assert (Hfts : searchStandards "OAuth" None None s = (fst r1, Ok fts))
      by by_computation.
    destruct (proj1 (semantic_failure_degrades "OAuth" None None defaults s
                       (fst r1) (fst r2) fts Hfts) unavailable)
      as [Hrun _]; [by_computation |].
    eexists. split; [fold s; rewrite Hrun; reflexivity | by_computation].
  - pose (s := testState (Some brokenHits)).
    pose (r1 := searchStandards "OAuth" None None s).
    pose (fts := match snd r1 with Ok l => l | Err _ => [] end).
    pose (r2 := vectorStorage_semanticSearch "OAuth"
                  (semanticOptionsOf None None defaults) (fst r1)).
    assert (Hfts : searchStandards "OAuth" None None s = (fst r1, Ok fts))
      by by_computation.
    fold s.
    rewrite (proj2 (semantic_failure_degrades "OAuth" None None defaults s
                      (fst r1) (fst r2) fts Hfts) brokenHits
               (mkError "Cannot read properties of null (reading 'title')"));
      by_computation.
Defined.

End OnSample.

End DatabaseManagerFacts.

(** ** The store on the database of the schema *)

Module SchemaFacts.
Import JS JSFacts SortFacts DatabaseManager Ranking Store Schema.

Lemma trimEnd_empty (s : string) :
  trimEnd s = EmptyString <-> whitespaceOnly s = true.
Proof.
  induction s as [| c s IH]; simpl; [tauto |].
  destruct (trimEnd s) as [| c' t] eqn:E.
  - destruct (is_space c); simpl.
    + tauto.
    + split; discriminate.
  - rewrite andb_true_iff. split; [discriminate |].
    intros [_ Hs]. apply IH in Hs. discriminate Hs.
Qed.

Lemma whitespaceOnly_trimStart (s : string) :
  whitespaceOnly (trimStart s) = whitespaceOnly s.
Proof.
  induction s as [| c s IH]; simpl; [reflexivity |].
  destruct (is_space c) eqn:E; simpl; [exact IH | now rewrite E].
Qed.

(** The test of [searchStandards] for a query that is empty or blank. *)
Lemma blank_query (query : string) :
  falsyString query || String.eqb (trim query) EmptyString = whitespaceOnly query.
Proof.
  unfold falsyString, trim.
  destruct (String.eqb_spec (trimEnd (trimStart query)) EmptyString) as [He | Hne].
  - rewrite orb_true_r. symmetry.
    rewrite <- whitespaceOnly_trimStart. now apply trimEnd_empty.
  - rewrite orb_false_r.
    destruct (String.eqb_spec query EmptyString) as [-> | Hq];
      [exfalso; now apply Hne |].
    symmetry. apply not_true_is_false. intros Hw. apply Hne.
    apply trimEnd_empty. now rewrite whitespaceOnly_trimStart.
Qed.

Lemma leb_lt_eq (a b : string) :
  String.leb a b = true <-> a = b \/ OrderedTypeEx.String_as_OT.lt a b.
Proof.
  unfold String.leb.
  destruct (String.compare a b) eqn:E.
  - apply OrderedTypeEx.String_as_OT.cmp_eq in E. tauto.
  - apply OrderedTypeEx.String_as_OT.cmp_lt in E. tauto.
  - split; [discriminate |]. intros [-> | Hlt].
    + assert (Heq : String.compare b b = Eq)
        by now apply OrderedTypeEx.String_as_OT.cmp_eq.
      congruence.
    + apply OrderedTypeEx.String_as_OT.cmp_lt in Hlt.
      unfold OrderedTypeEx.String_as_OT.cmp in Hlt. congruence.
Qed.

Lemma leb_trans (a b c : string) :
  String.leb a b = true -> String.leb b c = true -> String.leb a c = true.
Proof.
  rewrite !leb_lt_eq. intros [-> | Hab] [-> | Hbc]; auto.
  right. now apply OrderedTypeEx.String_as_OT.lt_trans with b.
Qed.



Lemma whereAll_conditions (category organisation : option string) (row : Row.t) :
  whereAll (conditions category organisation) row
  = passesFilters category organisation row.
Proof.
  unfold whereAll, conditions, passesFilters.
  destruct (orNull category), (orNull organisation); simpl;
    rewrite ?andb_true_r; reflexivity.
Qed.

Section OnSchema.
Context {F V : Type} {index : Fts5 F} {collection : VectorStore V}
  {runtime : Platform}.



(** *** Ranked search *)

Lemma Qabs_nonpos (x : Q) : (x <= 0)%Q -> Qabs x = (- x)%Q.
Proof.
  destruct x as [n d]. unfold Qle, Qabs, Qopp. simpl. intros Hn.
  f_equal. lia.
Qed.

Lemma byRank_total (x y : Row.t * Q) : byRank x y = true \/ byRank y x = true.
Proof.
  unfold byRank. rewrite !Qle_bool_iff.
  destruct (Qlt_le_dec (snd y) (snd x)) as [Hlt | Hle];
    [right; now apply Qlt_le_weak | now left].
Qed.

Lemma byRank_trans (x y z : Row.t * Q) :
  byRank x y = true -> byRank y z = true -> byRank x z = true.
Proof.
  unfold byRank. rewrite !Qle_bool_iff. intros Hxy Hyz.
  now apply Qle_trans with (snd y).
Qed.

Lemma searchStandards_ranked (query : string) (category organisation : option string)
  (w : World F V) (log : list Call) (hits : list (string * Q)) :
  whitespaceOnly query = false ->
  fts5_match (fts (database w)) (standards (database w)) query = Ok hits ->
  searchStandards query category organisation (mkState w log)
  = (mkState w (log ++ [CallAll (SelectFtsMatch query (conditions category organisation))]),
     Ok (map (ranked query)
           (JS.sort byRank
              (joinFts (conditions category organisation) (database w) hits)))).
Proof.
  intros Hquery Hhits. unfold searchStandards. rewrite blank_query, Hquery.
  unfold bind, all, try_catch, db_all, primitive, ret. simpl.
  unfold selectFtsMatch. rewrite Hhits.
  destruct w as [db v]. reflexivity.
Qed.

Lemma joinFts_In (category organisation : option string) (db : Database F)
  (hits : list (string * Q)) (row : Row.t) (rank : Q) :
  In (row, rank) (joinFts (conditions category organisation) db hits)
  <-> In (Row.id row, rank) hits /\ In row (standards db)
      /\ passesFilters category organisation row = true.
Proof.
  unfold joinFts. rewrite in_flat_map. split.
  - intros [[i q] [Hhit Hin]]. apply in_map_iff in Hin.
    destruct Hin as [s [Heq Hs]]. injection Heq as -> <-.
    apply filter_In in Hs. destruct Hs as [Hs Hcond].
    apply andb_true_iff in Hcond. destruct Hcond as [Hid Hwhere].
    simpl in Hid. apply String.eqb_eq in Hid. subst i.
    rewrite whereAll_conditions in Hwhere. tauto.
  - intros [Hhit [Hrow Hpass]]. exists (Row.id row, rank). split; [exact Hhit |].
    apply in_map_iff. exists row. split; [reflexivity |].
    apply filter_In. split; [exact Hrow |]. simpl.
    now rewrite String.eqb_refl, whereAll_conditions.
Qed.

Lemma rankedAnswer_joined (query : string) (category organisation : option string)
  (db : Database F) (hits : list (string * Q)) :
  rankedAnswer query category organisation (standards db) hits
    (map (ranked query)
       (JS.sort byRank (joinFts (conditions category organisation) db hits))).
Proof.
  set (joined := joinFts (conditions category organisation) db hits).
  exists (JS.sort byRank joined).
  assert (Hin : forall row rank,
             In (row, rank) (JS.sort byRank joined)
             <-> In (Row.id row, rank) hits /\ In row (standards db)
                 /\ passesFilters category organisation row = true).
  { intros row rank. rewrite <- joinFts_In. fold joined.
    split; apply Permutation_in;
      [apply sort_perm | symmetry; apply sort_perm]. }
  assert (Hasc : StronglySorted (fun a b => (snd a <= snd b)%Q) (JS.sort byRank joined)).
  { apply (StronglySorted_weaken (fun a b => byRank a b = true)).
    - intros x y Hxy. unfold byRank in Hxy. now apply Qle_bool_iff.
    - apply sort_strongly_sorted; [apply byRank_total | apply byRank_trans]. }
  split; [reflexivity |]. split; [exact Hin |]. split; [exact Hasc |].
  intros Hranks.
  assert (Hnonpos : forall r, In r (JS.sort byRank joined) -> (snd r <= 0)%Q).
  { intros [row rank] Hr. apply Hin in Hr. destruct Hr as [Hr _].
    rewrite Forall_forall in Hranks. exact (Hranks _ Hr). }
  assert (Hscore : forall r, In r (JS.sort byRank joined) ->
             SearchResult.relevanceScore (ranked query r) = (- snd r)%Q).
  { intros r Hr. simpl. apply Qabs_nonpos. now apply Hnonpos. }
  assert (Hinv : forall a b,
             In a (JS.sort byRank joined) -> In b (JS.sort byRank joined) ->
             ((snd a <= snd b)%Q <-> descending (ranked query a) (ranked query b))).
  { intros a b Ha Hb. unfold descending. rewrite (Hscore a Ha), (Hscore b Hb).
    split; intros Hle.
    - now apply Qopp_le_compat.
    - apply Qopp_le_compat in Hle. now rewrite !Qopp_involutive in Hle. }
  split; [| split; [exact Hinv |]].
  - intros r Hr. split; [now apply Hscore |]. simpl. apply Qabs_nonneg.
  - revert Hinv. generalize (JS.sort byRank joined) Hasc. clear.
    intros rows Hasc. induction Hasc as [| x l Hl IH Hx]; intros Hinv; simpl;
      constructor.
    + apply IH. intros a b Ha Hb. apply Hinv; now right.
    + rewrite Forall_forall in *. intros y Hy. apply in_map_iff in Hy.
      destruct Hy as [z [<- Hz]].
      apply Hinv; [now left | now right | now apply Hx].
Qed.

(** A ranked search is [all] on the statement of the search: it resolves
    with the documents of the rows that [all] resolves with, and it rejects
    as [all] does. *)
Lemma searchStandards_all (query : string) (category organisation : option string)
  (s : @State (World F V)) :
  whitespaceOnly query = false ->
  searchStandards query category organisation s
  = (fst (all (SelectFtsMatch query (conditions category organisation)) s),
     match snd (all (SelectFtsMatch query (conditions category organisation)) s) with
     | Ok rows => Ok (map (ranked query) rows)
     | Err e => Err e
     end).
Proof.
  intros Hquery. unfold searchStandards. rewrite blank_query, Hquery.
  unfold bind, ret.
  destruct (all (SelectFtsMatch query (conditions category organisation)) s)
    as [s' [rows | e]]; reflexivity.
Qed.

(** The statement of the ranked search on the database of the schema. *)
Lemma sqlite_all_match (query : string) (conds : list Cond) (w : World F V) :
  sqlite_all (SelectFtsMatch query conds) w
  = (w, match fts5_match (fts (database w)) (standards (database w)) query with
        | Ok hits => Ok (JS.sort byRank (joinFts conds (database w) hits))
        | Err e => Err e
        end).
Proof. destruct w as [db v]. reflexivity. Qed.

(** C9.  A query that is not blank is handed to the index as it stands.
    When the index takes it, the lexical search returns the documents of the
    rows that the index matches and that pass the filters that are set; on an
    index whose bm25 ranks are not positive (FTS5 gives the better match the
    lower rank) the score it exposes is the rank with its sign turned, so that
    a better rank is a higher score, and the list is in the order of the
    ranks, best first: the exposed scores never increase.  When the index
    refuses the query, the search returns no list: it rejects with the error
    of the index, at once if the error does not carry the signature of a
    damaged index, and otherwise after the index has been rebuilt and the
    statement has run once more, with the outcome of that second run. *)
Theorem ranked_search_best_first :
  forall (query : string) (category organisation : option string)
         (w : World F V) (log : list Call),
    whitespaceOnly query = false ->
    let sql := SelectFtsMatch query (conditions category organisation) in
    let s1 := mkState w (log ++ [CallAll sql]) in
    let search := searchStandards query category organisation (mkState w log) in
    let hitsOn := fun db : Database F => fts5_match (fts db) (standards db) query in
    (forall hits,
       hitsOn (database w) = Ok hits ->
       exists results,
         search = (s1, Ok results) /\
         rankedAnswer query category organisation (standards (database w)) hits
           results) /\
    (forall e,
       hitsOn (database w) = Err e -> isCorruption e = false ->
       search = (s1, Err e)) /\
    (forall e,
       hitsOn (database w) = Err e -> isCorruption e = true ->
       forall s2 : @State (World F V),
         (forall e2, rebuildFTSIndex s1 = (s2, Err e2) -> search = (s2, Err e2)) /\
         (rebuildFTSIndex s1 = (s2, Ok tt) ->
          let s3 := mkState (world s2) (calls s2 ++ [CallAll sql]) in
          let db2 := database (world s2) in
          (forall e3, hitsOn db2 = Err e3 -> search = (s3, Err e3)) /\
          (forall hits,
             hitsOn db2 = Ok hits ->
             exists results,
               search = (s3, Ok results) /\
               rankedAnswer query category organisation (standards db2) hits
                 results))).
Proof.
  intros query category organisation w log Hquery. cbv zeta.
  rewrite (searchStandards_all query category organisation (mkState w log) Hquery).
  rewrite DatabaseManagerFacts.all_unfold. cbn [world calls].
  rewrite sqlite_all_match.
  split; [| split].
  - intros hits Hhits. rewrite Hhits. eexists.
    split; [reflexivity | apply rankedAnswer_joined].
  - intros e Hhits Hsig. rewrite Hhits, Hsig. reflexivity.
  - intros e Hhits Hsig s2. rewrite Hhits, Hsig. split.
    + intros e2 Hrebuild. rewrite Hrebuild. reflexivity.
    + intros Hrebuild. rewrite Hrebuild, sqlite_all_match. split.
      * intros e3 Hretry. rewrite Hretry. reflexivity.
      * intros hits Hretry. rewrite Hretry. eexists.
        split; [reflexivity | apply rankedAnswer_joined].
Qed.

(** *** Matched fields *)

Lemma columnIncludes_orNull (column : option string) (query : string) :
  columnIncludes column (toLowerCase query) = containsQuery query (orNull column).
Proof.
  unfold columnIncludes, containsQuery, orNull.
  destruct column as [s |]; [| reflexivity].
  destruct (falsyString s); reflexivity.
Qed.

Lemma orNull_JSON_stringify (tags : option (list string)) :
  orNull (option_map JSON_stringify tags) = option_map JSON_stringify tags.
Proof. destruct tags as [l |]; reflexivity. Qed.

Lemma getMatchedFields_containment (row : Row.t) (query : string) :
  getMatchedFields row query
  = map fst (filter (fun f => containsQuery query (snd f)) (fieldTexts row)).
Proof.
  unfold getMatchedFields, fieldTexts.
  rewrite !columnIncludes_orNull, orNull_JSON_stringify.
  change (includes (toLowerCase (Row.title row)) (toLowerCase query))
    with (containsQuery query (Some (Row.title row))).
  change (includes (toLowerCase (Row.content row)) (toLowerCase query))
    with (containsQuery query (Some (Row.content row))).
  cbn [filter snd].
  generalize (containsQuery query (Some (Row.title row)))
    (containsQuery query (Some (Row.content row)))
    (containsQuery query (orNull (Row.summary row)))
    (containsQuery query (option_map JSON_stringify (Row.tags row))).
  intros b1 b2 b3 b4.
  destruct b1, b2, b3, b4; reflexivity.
Qed.

(** C10.  [getMatchedFields] names the fields, among title, content,
    summary and tags, whose lower-cased text contains the whole lower-cased
    query.  So a row that the index matches, word by word, without any of its
    four texts containing the query as it stands, is returned with an empty
    list of matched fields. *)
Theorem matched_fields_may_be_empty :
  (forall (row : Row.t) (query : string),
     getMatchedFields row query
     = map fst (filter (fun f => containsQuery query (snd f)) (fieldTexts row))) /\
  (forall (row : Row.t) (query : string),
     getMatchedFields row query = []
     <-> forall f, In f (fieldTexts row) -> containsQuery query (snd f) = false) /\
  (forall (query : string) (category organisation : option string)
          (w : World F V) (log : list Call) (hits : list (string * Q))
          (row : Row.t) (rank : Q),
     whitespaceOnly query = false ->
     fts5_match (fts (database w)) (standards (database w)) query = Ok hits ->
     In (Row.id row, rank) hits ->
     In row (standards (database w)) ->
     passesFilters category organisation row = true ->
     (forall f, In f (fieldTexts row) -> containsQuery query (snd f) = false) ->
     exists results,
       snd (searchStandards query category organisation (mkState w log)) = Ok results /\
       In (SearchResult.mk (rowToStandard row) (Qabs rank) []) results).
Proof.
  assert (Hempty : forall (row : Row.t) (query : string),
     getMatchedFields row query = []
     <-> forall f, In f (fieldTexts row) -> containsQuery query (snd f) = false).
  { intros row query. rewrite getMatchedFields_containment.
    generalize (fieldTexts row). intros l. induction l as [| f l IH]; simpl.
    - split; [intros _ f [] | reflexivity].
    - destruct (containsQuery query (snd f)) eqn:E; simpl.
      + split; [discriminate |]. intros Hall.
        specialize (Hall f (or_introl eq_refl)). congruence.
      + rewrite IH. split.
        * intros Hall g [<- | Hg]; [exact E | now apply Hall].
        * intros Hall g Hg. apply Hall. now right. }
  split; [exact getMatchedFields_containment |]. split; [exact Hempty |].
  intros query category organisation w log hits row rank Hquery Hhits Hhit Hrow
    Hpass Hnone.
  rewrite (searchStandards_ranked query category organisation w log hits Hquery Hhits).
  eexists. split; [reflexivity |].
  apply in_map_iff. exists (row, rank). split.
  - unfold ranked. simpl. f_equal. now apply Hempty.
  - apply (Permutation_in _ (Permutation_sym (sort_perm byRank _))).
    apply joinFts_In. tauto.
Qed.

(** *** Ingestion *)

Lemma insertStandard_schema (d : Standard.t) (w : World F V) (log : list Call) :
  insertStandard d (mkState w log)
  = (mkState
       (mkWorld
          (insertOrReplaceCategoryCount (Standard.category d)
             (insertOrReplaceStandard (insertParams d) (database w)))
          (fst (vs_addStandard d (vectors w))))
       (log ++ [CallRun (InsertOrReplaceStandard (insertParams d));
                CallRun (InsertOrReplaceCategoryCount (Standard.category d));
                CallAddStandard d]),
     Ok tt).
Proof.
  unfold insertStandard, updateCategoryCount, run, db_run, bind, try_catch,
    vectorStorage_addStandard, primitive, ret.
  destruct w as [db v]. simpl. unfold onVectors. simpl.
  destruct (vs_addStandard d v) as [v' [[] | e]]; simpl;
    now rewrite <- !app_assoc.
Qed.

Lemma processScrapedPage_same_params (c1 u1 c2 u2 : Date) (page : ScrapedPage.t)
  (d1 d2 : Standard.t) :
  ContentProcessor.processScrapedPage c1 u1 page = Ok d1 ->
  ContentProcessor.processScrapedPage c2 u2 page = Ok d2 ->
  Standard.id d1 = Standard.id d2
  /\ insertParams d1 = insertParams d2
  /\ Standard.category d1 = Standard.category d2.
Proof.
  unfold ContentProcessor.processScrapedPage.
  destruct (ContentProcessor.generateStandardId (ScrapedPage.url page)) as [id | e];
    [| discriminate].
  intros Hd1 Hd2. injection Hd1 as <-. injection Hd2 as <-.
  repeat split.
Qed.

Lemma processScrapedPage_same_id (c1 u1 c2 u2 : Date) (page1 page2 : ScrapedPage.t)
  (d1 d2 : Standard.t) :
  ScrapedPage.url page2 = ScrapedPage.url page1 ->
  ContentProcessor.processScrapedPage c1 u1 page1 = Ok d1 ->
  ContentProcessor.processScrapedPage c2 u2 page2 = Ok d2 ->
  Standard.id d2 = Standard.id d1.
Proof.
  unfold ContentProcessor.processScrapedPage. intros ->.
  destruct (ContentProcessor.generateStandardId (ScrapedPage.url page1)) as [id | e];
    [| discriminate].
  intros Hd1 Hd2. injection Hd1 as <-. injection Hd2 as <-. reflexivity.
Qed.

Lemma conflicts_rowOf (p : InsertParams.t) (t1 t2 : Date) (r : Row.t) :
  conflicts (rowOf p t1) r = conflicts (rowOf p t2) r.
Proof. reflexivity. Qed.

Lemma replace_twice (p : InsertParams.t) (t1 t2 : Date) (rows : list Row.t) :
  (filter (fun r => negb (conflicts (rowOf p t2) r))
     (filter (fun r => negb (conflicts (rowOf p t1) r)) rows ++ [rowOf p t1])
   ++ [rowOf p t2])%list
  = (filter (fun r => negb (conflicts (rowOf p t2) r)) rows ++ [rowOf p t2])%list.
Proof.
  rewrite filter_app. simpl.
  assert (Hself : conflicts (rowOf p t2) (rowOf p t1) = true).
  { unfold conflicts. simpl. now rewrite String.eqb_refl. }
  rewrite Hself. simpl. rewrite app_nil_r. f_equal.
  induction rows as [| r rows IH]; simpl; [reflexivity |].
  rewrite (conflicts_rowOf p t1 t2 r).
  destruct (conflicts (rowOf p t2) r) eqn:E; simpl; [exact IH |].
  rewrite E. simpl. now rewrite IH.
Qed.

Lemma replaced_once (p : InsertParams.t) (now : Date) (rows : list Row.t) :
  filter (fun r => String.eqb (Row.id r) (InsertParams.id p))
    (filter (fun r => negb (conflicts (rowOf p now) r)) rows ++ [rowOf p now])
  = [rowOf p now].
Proof.
  rewrite filter_app. simpl. rewrite String.eqb_refl.
  replace (filter _ (filter _ rows)) with (@nil Row.t); [reflexivity |].
  symmetry. induction rows as [| r rows IH]; simpl; [reflexivity |].
  destruct (conflicts (rowOf p now) r) eqn:E; simpl; [exact IH |].
  unfold conflicts in E. simpl in E. apply orb_false_iff in E.
  destruct E as [E _]. rewrite E. exact IH.
Qed.

Lemma replace_keeps_ids_distinct (p : InsertParams.t) (now : Date) (rows : list Row.t) :
  NoDup (map Row.id rows) ->
  NoDup (map Row.id
           (filter (fun r => negb (conflicts (rowOf p now) r)) rows ++ [rowOf p now])).
Proof.
  intros Hnd. rewrite map_app. simpl.
  assert (Hfilter : NoDup (map Row.id
            (filter (fun r => negb (conflicts (rowOf p now) r)) rows))).
  { induction rows as [| r rows IH]; simpl; [constructor |].
    simpl in Hnd. inversion Hnd as [| ? ? Hr Hrows]; subst.
    destruct (conflicts (rowOf p now) r); simpl; [now apply IH |].
    constructor; [| now apply IH].
    intros Hin. apply Hr. apply in_map_iff in Hin.
    destruct Hin as [x [Hx Hin]]. apply filter_In in Hin.
    apply in_map_iff. exists x. tauto. }
  apply NoDup_app; [exact Hfilter | repeat constructor; intros [] |].
  intros x Hx [<- | []]. apply in_map_iff in Hx.
  destruct Hx as [r [Hid Hr]]. apply filter_In in Hr. destruct Hr as [_ Hc].
  unfold conflicts in Hc. simpl in Hc, Hid. rewrite Hid in Hc.
  rewrite String.eqb_refl in Hc. discriminate Hc.
Qed.

Lemma replace_category_twice (category : string) (x y : CategoryRow.t)
  (cats : list CategoryRow.t) :
  CategoryRow.name x = category ->
  (filter (fun c => negb (String.eqb (CategoryRow.name c) category))
     (filter (fun c => negb (String.eqb (CategoryRow.name c) category)) cats ++ [x])
   ++ [y])%list
  = (filter (fun c => negb (String.eqb (CategoryRow.name c) category)) cats ++ [y])%list.
Proof.
  intros Hx. rewrite filter_app. simpl. rewrite Hx, String.eqb_refl. simpl.
  rewrite app_nil_r. f_equal.
  induction cats as [| c cs IH]; simpl; [reflexivity |].
  destruct (String.eqb (CategoryRow.name c) category) eqn:E; simpl; [exact IH |].
  rewrite E. simpl. now rewrite IH.
Qed.

(** The two tables under a second ingestion.  Processing a page twice gives
    documents with the same id, whatever the time of processing: the id
    depends on the URL alone.  Inserting the second after the first leaves
    the tables [standards] and [categories] as inserting the second alone at
    that time does: the table holds one row with that id, the row of the
    second insert, and ids that were distinct before stay distinct.  When the
    clock has not moved between the two inserts, the second changes nothing
    in the two tables. *)
Lemma reingestion_replaces_rows :
  forall (c1 u1 c2 u2 : Date) (page : ScrapedPage.t) (d1 d2 : Standard.t)
         (w : World F V) (t2 : Timestamp),
    ContentProcessor.processScrapedPage c1 u1 page = Ok d1 ->
    ContentProcessor.processScrapedPage c2 u2 page = Ok d2 ->
    let first := insertStandard d1 (mkState w []) in
    let second := insertStandard d2 (mkState (atTime t2 (world (fst first))) []) in
    let alone := insertStandard d2 (mkState (atTime t2 w) []) in
    let twice := database (world (fst second)) in
    let once := database (world (fst alone)) in
    Standard.id d1 = Standard.id d2 /\
    (forall (c u : Date) (page' : ScrapedPage.t) (d' : Standard.t),
       ScrapedPage.url page' = ScrapedPage.url page ->
       ContentProcessor.processScrapedPage c u page' = Ok d' ->
       Standard.id d' = Standard.id d1) /\
    snd first = Ok tt /\ snd second = Ok tt /\
    standards twice = standards once /\
    categories twice = categories once /\
    filter (fun r => String.eqb (Row.id r) (Standard.id d2)) (standards twice)
    = [rowOf (insertParams d2) t2] /\
    (NoDup (map Row.id (standards (database w))) ->
     NoDup (map Row.id (standards twice))) /\
    (t2 = clock (database w) ->
     standards twice = standards (database (world (fst first))) /\
     categories twice = categories (database (world (fst first)))).
Proof.
  intros c1 u1 c2 u2 page d1 d2 w t2 Hd1 Hd2.
  destruct (processScrapedPage_same_params c1 u1 c2 u2 page d1 d2 Hd1 Hd2)
    as [Hid [Hparams Hcategory]].
  cbv zeta. rewrite !insertStandard_schema. simpl.
  rewrite Hparams, Hcategory.
  set (p := insertParams d2). set (t1 := clock (database w)).
  set (rows := standards (database w)).
  assert (Hrows :
    (filter (fun r => negb (conflicts (rowOf p t2) r))
       (filter (fun r => negb (conflicts (rowOf p t1) r)) rows ++ [rowOf p t1])
     ++ [rowOf p t2])%list
    = (filter (fun r => negb (conflicts (rowOf p t2) r)) rows ++ [rowOf p t2])%list)
    by apply replace_twice.
  split; [exact Hid |].
  split; [intros c u page' d' Hurl Hd'; now apply (processScrapedPage_same_id
            c1 u1 c u page page' d1 d') |].
  split; [reflexivity |]. split; [reflexivity |].
  split; [exact Hrows |]. split; [| split; [| split]].
  - rewrite Hrows. now apply replace_category_twice.
  - rewrite Hrows. apply (replaced_once p t2 rows).
  - intros Hnd. rewrite Hrows. now apply replace_keeps_ids_distinct.
  - intros Ht. rewrite Hrows, Ht. fold t1. split; [reflexivity |].
    now apply replace_category_twice.
Qed.

End OnSchema.

(** *** The index under INSERT OR REPLACE *)

Section Reingestion.
Import Sample.
Context {V : Type} {collection : VectorStore V} {runtime : Platform}.

Lemma id_determines_row (rows : list Row.t) (r r' : Row.t) :
  NoDup (map Row.id rows) -> In r rows -> In r' rows -> Row.id r = Row.id r' ->
  r = r'.
Proof.
  induction rows as [| x rows IH]; simpl; intros Hnd Hr Hr' Hid; [destruct Hr |].
  inversion Hnd as [| ? ? Hx Hrows]; subst.
  destruct Hr as [-> | Hr], Hr' as [-> | Hr'].
  - reflexivity.
  - exfalso. apply Hx. rewrite Hid. now apply in_map.
  - exfalso. apply Hx. rewrite <- Hid. now apply in_map.
  - now apply IH.
Qed.

(** In a table with distinct ids, the rows with the id of a deleted row are
    the deleted rows. *)
Lemma deleted_by_id (row : Row.t) (rows : list Row.t) (r : Row.t) :
  NoDup (map Row.id rows) -> In r rows ->
  array_includes (map Row.id (filter (conflicts row) rows)) (Row.id r)
  = conflicts row r.
Proof.
  intros Hnd Hr. destruct (conflicts row r) eqn:E.
  - apply array_includes_In. apply in_map. apply filter_In. now split.
  - apply not_true_is_false. intros Hin. apply array_includes_In in Hin.
    apply in_map_iff in Hin. destruct Hin as [r' [Hid Hr']].
    apply filter_In in Hr'. destruct Hr' as [Hr' Hc].
    assert (Heq : r' = r) by now apply (id_determines_row rows).
    subst r'. congruence.
Qed.

(** An index whose live entries are the rows of the table keeps them so
    under a replacement, and keeps the entries of the deleted rows as
    orphans. *)
Lemma written_in_sync (row : Row.t) (rows orphans : list Row.t) :
  NoDup (map Row.id rows) ->
  written (Healthy rows orphans) (filter (conflicts row) rows) row
  = Healthy (filter (fun r => negb (conflicts row r)) rows ++ [row])
      (orphans ++ filter (conflicts row) rows).
Proof.
  intros Hnd. unfold written. f_equal.
  - f_equal. apply filter_ext_in. intros r Hr. now rewrite deleted_by_id.
  - f_equal. apply filter_ext_in. intros r Hr. now apply deleted_by_id.
Qed.

Lemma insertStandard_index (d : Standard.t) (w : Schema.World Index V)
  (log : list Call) (orphans : list Row.t) :
  NoDup (map Row.id (standards (database w))) ->
  fts (database w) = Healthy (standards (database w)) orphans ->
  fts (database (world (fst (insertStandard d (mkState w log)))))
  = Healthy (standards (database (world (fst (insertStandard d (mkState w log))))))
      (orphans
       ++ filter (conflicts (rowOf (insertParams d) (clock (database w))))
            (standards (database w))).
Proof.
  intros Hnd Hfts. rewrite insertStandard_schema.
  cbn [fst world database fts standards insertOrReplaceCategoryCount
       insertOrReplaceStandard fts5_written fts5].
  rewrite Hfts. now apply written_in_sync.
Qed.

Lemma kept_rows_do_not_conflict (row : Row.t) (rows : list Row.t) :
  filter (conflicts row) (filter (fun r => negb (conflicts row r)) rows) = [].
Proof.
  induction rows as [| r rows IH]; simpl; [reflexivity |].
  destruct (conflicts row r) eqn:E; simpl; [exact IH |].
  now rewrite E.
Qed.

Lemma matchRows_app (words : list string) (a b : list Row.t) :
  matchRows words (a ++ b) = (matchRows words a ++ matchRows words b)%list.
Proof.
  induction a as [| r a IH]; simpl; [reflexivity |].
  destruct (matchRow words r); simpl; now rewrite IH.
Qed.

(** C6.  Processing a page twice gives documents with the same id, and the
    second insert replaces the row of the first: the tables [standards] and
    [categories] are those of a single ingestion at the time of the second,
    with one row of that id.  The index is not that of a single ingestion.
    INSERT OR REPLACE deletes the first row without running the trigger
    [standards_fts_delete], so that the entry of that row stays in the index
    with no row behind it, beside the entry of the second row: on a store
    whose index was in step with the table, the index after two ingestions
    has one orphan more than after one, and the statement of a lexical search
    that the text of the first row matches fails on it. *)
Theorem reingestion_orphans_index_entry :
  forall (c1 u1 c2 u2 : Date) (page : ScrapedPage.t) (d1 d2 : Standard.t)
         (w : Schema.World Index V) (orphans : list Row.t) (t2 : Timestamp),
    ContentProcessor.processScrapedPage c1 u1 page = Ok d1 ->
    ContentProcessor.processScrapedPage c2 u2 page = Ok d2 ->
    NoDup (map Row.id (standards (database w))) ->
    fts (database w) = Healthy (standards (database w)) orphans ->
    let first := insertStandard d1 (mkState w []) in
    let second := insertStandard d2 (mkState (atTime t2 (world (fst first))) []) in
    let alone := insertStandard d2 (mkState (atTime t2 w) []) in
    let twice := database (world (fst second)) in
    let once := database (world (fst alone)) in
    let row1 := rowOf (insertParams d1) (clock (database w)) in
    let replaced := filter (conflicts row1) (standards (database w)) in
    Standard.id d1 = Standard.id d2 /\
    standards twice = standards once /\
    categories twice = categories once /\
    filter (fun r => String.eqb (Row.id r) (Standard.id d2)) (standards twice)
    = [rowOf (insertParams d2) t2] /\
    fts once = Healthy (standards once) (orphans ++ replaced) /\
    fts twice = Healthy (standards twice) (orphans ++ replaced ++ [row1]) /\
    fts twice <> fts once /\
    (forall (query : string) (conds : list Cond),
       refused query = None ->
       matchRow (tokens query) row1 <> None ->
       exists e, runQuery (SelectFtsMatch query conds) twice = Err e).
Proof.
  intros c1 u1 c2 u2 page d1 d2 w orphans t2 Hd1 Hd2 Hnd Hfts
    first second alone twice once row1 replaced.
  destruct (processScrapedPage_same_params c1 u1 c2 u2 page d1 d2 Hd1 Hd2)
    as [_ [Hparams _]].
  destruct (reingestion_replaces_rows c1 u1 c2 u2 page d1 d2 w t2 Hd1 Hd2)
    as (Hid & _ & _ & _ & Hrows & Hcats & Hone & _ & _).
  fold first second alone twice once in Hrows, Hcats, Hone.
  assert (Hreplaced : filter (conflicts (rowOf (insertParams d2) t2))
                        (standards (database w)) = replaced).
  { unfold replaced, row1. rewrite Hparams. apply filter_ext. intros r.
    apply conflicts_rowOf. }
  assert (Honce : fts once = Healthy (standards once) (orphans ++ replaced)).
  { unfold once, alone. destruct w as [db v].
    rewrite (insertStandard_index d2 (atTime t2 (mkWorld db v)) [] orphans);
      [now rewrite <- Hreplaced | exact Hnd | exact Hfts]. }
  assert (Hfirst : fts (database (world (fst first)))
                   = Healthy (standards (database (world (fst first))))
                       (orphans ++ replaced))
    by (apply insertStandard_index; assumption).
  assert (Hnd1 : NoDup (map Row.id (standards (database (world (fst first)))))).
  { unfold first. rewrite insertStandard_schema. simpl.
    now apply replace_keeps_ids_distinct. }
  assert (Hgone : filter (conflicts (rowOf (insertParams d2) t2))
                    (standards (database (world (fst first)))) = [row1]).
  { unfold first. rewrite insertStandard_schema. simpl. rewrite filter_app.
    fold row1. rewrite <- Hparams.
    rewrite (filter_ext _ (conflicts row1) (conflicts_rowOf _ _ _)).
    rewrite kept_rows_do_not_conflict.
    simpl. unfold conflicts at 1. simpl. now rewrite String.eqb_refl. }
  assert (Htwice : fts twice
                   = Healthy (standards twice) (orphans ++ replaced ++ [row1])).
  { unfold twice, second. destruct (world (fst first)) as [db1 v1] eqn:Hw1.
    simpl in Hfirst, Hnd1, Hgone.
    rewrite (insertStandard_index d2 (atTime t2 (mkWorld db1 v1)) []
               (orphans ++ replaced));
      [| exact Hnd1 | exact Hfirst].
    simpl. rewrite Hgone. now rewrite <- app_assoc. }
  split; [exact Hid |]. split; [exact Hrows |]. split; [exact Hcats |].
  split; [exact Hone |]. split; [exact Honce |]. split; [exact Htwice |].
  split.
  - rewrite Honce, Htwice, Hrows. intros Heq. injection Heq as Heq.
    apply app_inv_head in Heq. apply (f_equal (@List.length Row.t)) in Heq.
    rewrite length_app in Heq. simpl in Heq. lia.
  - intros query conds Hquery Hmatch.
    unfold runQuery, selectFtsMatch. rewrite Htwice.
    cbn [fts5_match fts5 matchIndex]. rewrite Hquery.
    rewrite !matchRows_app. cbn [matchRows].
    destruct (matchRow (tokens query) row1) as [hit |]; [| contradiction].
    destruct (matchRows (tokens query) orphans); simpl; [| eauto].
    destruct (matchRows (tokens query) replaced); simpl; eauto.
Qed.

End Reingestion.

(** *** The properties on the sample store *)

Section OnSample.
Import Sample.

Ltac by_computation := vm_compute; reflexivity.

(** The search tests of the repository (test/database.test.ts). *)

Example test_search_by_query_terms :
  found (searchStandards "API OAuth" None None (testState None))
  = ["api-security-1"].
Proof. by_computation. Qed.

Example test_filter_by_category :
  found (searchStandards "standard" (Some "Accessibility") None (testState None))
  = ["accessibility-wcag-1"].
Proof. by_computation. Qed.

Example test_filter_by_organisation :
  found (searchStandards "guidelines" None (Some "GDS") (testState None))
  = ["api-security-1"].
Proof. by_computation. Qed.

Example test_no_match :
  found (searchStandards "nonexistent query terms" None None (testState None)) = [].
Proof. by_computation. Qed.


(** The store of the search tests and the query "for": the standard with
    the lower rank comes first and has the higher score. *)
Lemma ranked_search_best_first_witness :
  whitespaceOnly "for" = false /\
  hitsFor "for" None
  = [("api-security-1", (-2 # 1)%Q); ("accessibility-wcag-1", (-1 # 1)%Q)] /\
  exists results,
    searchStandards "for" None None (testState None)
    = (mkState (testWorld None) [CallAll (SelectFtsMatch "for" [])], Ok results) /\
    map (fun x => (resultId x, SearchResult.relevanceScore x)) results
    = [("api-security-1", (2 # 1)%Q); ("accessibility-wcag-1", (1 # 1)%Q)] /\
    StronglySorted descending results.
Proof.
  split; [reflexivity |]. split; [by_computation |].
  destruct (proj1 (ranked_search_best_first "for" None None (testWorld None) []
                     eq_refl) (hitsFor "for" None))
    as (results & Hrun & rows & Hrows & _ & _ & Hscores).
  - by_computation.
  - destruct Hscores as (_ & _ & Hsorted);
      [vm_compute; repeat constructor; discriminate |].
    exists results. unfold testState, start.
    split; [exact Hrun |]. split; [| exact Hsorted].
    assert (Hres : results
                   = valueOr (snd (searchStandards "for" None None (testState None))) []).
    { unfold testState, start. now rewrite Hrun. }
    rewrite Hres. by_computation.
Defined.

(** C9, as worded, fails on the store of the search tests.  The query
    "OAuth 2.0" is not empty, and the content of the first standard contains
    it as it stands.  FTS5 cannot parse the full stop: the statement fails,
    the error has the signature that [all] takes for a damaged index, the
    index is rebuilt, the statement fails again, and the search rejects
    instead of returning the matching document. *)
Lemma ranked_search_as_worded_fails :
  let sql := SelectFtsMatch "OAuth 2.0" [] in
  let e := mkError ("SQLITE_ERROR: fts5: syntax error near "
                    ++ String dquote (String "." (String dquote EmptyString))) in
  whitespaceOnly "OAuth 2.0" = false /\
  (exists row,
     In row (standards (database (testWorld None))) /\
     Row.id row = "api-security-1" /\
     getMatchedFields row "OAuth 2.0" = ["content"]) /\
  isCorruption e = true /\
  searchStandards "OAuth 2.0" None None (testState None)
  = (mkState (testWorld None)
       [CallAll sql; CallExec DropFts; CallExec CreateFts; CallExec RebuildFts;
        CallAll sql],
     Err e).
Proof.
  intros sql e. split; [reflexivity |]. split; [| split].
  - eexists. split; [left; reflexivity |]. split; by_computation.
  - by_computation.
  - by_computation.
Qed.

(** The query of the test "should search by query terms": the index matches
    the standard on the words "api" and "oauth", none of its texts contains
    "api oauth", and it is returned without a matched field. *)
Lemma matched_fields_may_be_empty_witness :
  let row := rowOf (insertParams apiSecurity) 0%Z in
  hitsFor "API OAuth" None = [("api-security-1", (-5 # 1)%Q)] /\
  map (fun f => containsQuery "API OAuth" (snd f)) (fieldTexts row)
  = [false; false; false; false] /\
  exists results,
    snd (searchStandards "API OAuth" None None (testState None)) = Ok results /\
    map (fun x => (resultId x, SearchResult.matchedFields x)) results
    = [("api-security-1", [])].
Proof.
  intros row. split; [by_computation |]. split; [by_computation |].
  destruct (proj2 (proj2 matched_fields_may_be_empty) "API OAuth" None None
              (testWorld None) [] (hitsFor "API OAuth" None) row (-5 # 1)%Q)
    as (results & Hrun & _).
  - reflexivity.
  - by_computation.
  - vm_compute. now left.
  - vm_compute. now left.
  - by_computation.
  - intros f Hf. vm_compute in Hf.
    repeat (destruct Hf as [<- | Hf]; [by_computation |]). destruct Hf.
  - exists results. unfold testState, start.
    split; [exact Hrun |].
    assert (Hres : results
                   = valueOr (snd (searchStandards "API OAuth" None None
                                     (testState None))) []).
    { unfold testState, start. now rewrite Hrun. }
    rewrite Hres. by_computation.
Defined.

(** The page of the classifier tests, processed at two times and inserted
    twice into the store of the search tests.  The tables are those of one
    ingestion.  The index is not: it holds the entry of the first row, whose
    row is gone, and the statement of a search for "API", which that entry
    matches, fails on it. *)
Lemma reingestion_orphans_index_entry_witness :
  exists d1 d2,
    ContentProcessor.processScrapedPage 10%Z 10%Z mockScrapedPage = Ok d1 /\
    ContentProcessor.processScrapedPage 20%Z 20%Z mockScrapedPage = Ok d2 /\
    let w := testWorld None in
    let first := insertStandard d1 (mkState w []) in
    let second := insertStandard d2 (mkState (atTime 30%Z (world (fst first))) []) in
    let alone := insertStandard d2 (mkState (atTime 30%Z w) []) in
    let twice := database (world (fst second)) in
    let once := database (world (fst alone)) in
    let sql := SelectFtsMatch "API" [] in
    Standard.id d1 = Standard.id d2 /\
    standards twice = standards once /\
    categories twice = categories once /\
    List.length (standards twice) = 3 /\
    fts once = Healthy (standards once) [] /\
    fts twice = Healthy (standards twice) [rowOf (insertParams d1) 0%Z] /\
    fts twice <> fts once /\
    (exists rows, runQuery sql once = Ok rows /\ List.length rows = 2) /\
    exists e, runQuery sql twice = Err e.
Proof.
  destruct (ContentProcessor.processScrapedPage 10%Z 10%Z mockScrapedPage)
    as [d1 | e1] eqn:E1; [| vm_compute in E1; discriminate E1].
  destruct (ContentProcessor.processScrapedPage 20%Z 20%Z mockScrapedPage)
    as [d2 | e2] eqn:E2; [| vm_compute in E2; discriminate E2].
  exists d1, d2. split; [reflexivity |]. split; [reflexivity |].
  assert (Hnd : NoDup (map Row.id (standards (database (testWorld None))))).
  { vm_compute. repeat (constructor; [simpl; intuition discriminate |]).
    constructor. }
  assert (Hfts : fts (database (testWorld None))
                 = Healthy (standards (database (testWorld None))) [])
    by by_computation.
  destruct (reingestion_orphans_index_entry 10%Z 10%Z 20%Z 20%Z mockScrapedPage
              d1 d2 (testWorld None) [] 30%Z E1 E2 Hnd Hfts)
    as (Hid & Hrows & Hcats & _ & _ & _ & Hne & Hfails).
  cbv zeta. split; [exact Hid |]. split; [exact Hrows |]. split; [exact Hcats |].
  split; [| split; [| split; [| split; [exact Hne | split]]]].
  5: { apply (Hfails "API" []); [reflexivity |].
       vm_compute in E1. injection E1 as <-. vm_compute. discriminate. }
  4: { vm_compute in E2. injection E2 as <-. eexists. split; by_computation. }
  all: vm_compute in E1; injection E1 as <-; vm_compute in E2; injection E2 as <-;
    by_computation.
Defined.

End OnSample.

End SchemaFacts.

(* ================================================================== *)
(** * Part III: the code around the claims                             *)
(* ================================================================== *)

(** ** The content classifier, function by function *)

Module ClassifierProperties.
Import JS JSFacts ContentProcessor ValidationRules Relatedness Store.

(** *** [extractTags] *)

Lemma NoDup_filter_left {A} (p : A -> bool) (a b : list A) :
  NoDup (a ++ b)%list -> NoDup (filter p a ++ b)%list.
Proof.
  induction a as [| x a IH]; simpl; intros Hnd; [exact Hnd |].
  inversion Hnd as [| ? ? Hx Hrest]; subst.
  destruct (p x); [| now apply IH].
  simpl. constructor; [| now apply IH].
  intros Hin. apply Hx. apply in_app_or in Hin. apply in_or_app.
  destruct Hin as [Hin | Hin]; [left | now right].
  apply filter_In in Hin. tauto.
Qed.

(** Terms that are not yet tags are added in their order, when contained. *)
Lemma add_terms_fresh (text : string) (terms tags : list string) :
  NoDup (tags ++ terms)%list ->
  add_terms text tags terms
  = (tags ++ filter (fun term => includes text term) terms)%list.
Proof.
  unfold add_terms. revert tags.
  induction terms as [| term terms IH]; intros tags Hnd; simpl.
  - now rewrite app_nil_r.
  - assert (Hfresh : ~ In term tags).
    { intros Hin. apply NoDup_remove_2 in Hnd. apply Hnd, in_or_app. now left. }
    destruct (includes text term).
    + unfold set_add. destruct (array_includes tags term) eqn:E;
        [apply array_includes_In in E; contradiction |].
      rewrite IH.
      * now rewrite <- app_assoc.
      * rewrite <- app_assoc. exact Hnd.
    + apply IH. now apply NoDup_remove_1 in Hnd.
Qed.

Lemma vocabulary_distinct :
  NoDup (technicalTerms ++ govTerms ++ complianceTerms)%list.
Proof.
  assert (Hfixed : nodup string_dec (technicalTerms ++ govTerms ++ complianceTerms)%list
                   = (technicalTerms ++ govTerms ++ complianceTerms)%list)
    by (vm_compute; reflexivity).
  rewrite <- Hfixed. apply NoDup_nodup.
Qed.


(** X1.  The tags of a page are the terms of the three vocabularies that its
    lower-cased title and content contain, in the order of the vocabularies
    (technical, government, compliance), cut to the first twenty: no tag
    occurs twice, every tag is a contained term, and no contained term is
    missing unless more than twenty are contained. *)
Theorem extractTags_characterised :
  forall title content : string,
    let text := toLowerCase (title ++ " " ++ content) in
    let vocabulary := (technicalTerms ++ govTerms ++ complianceTerms)%list in
    let contained := filter (fun term => includes text term) vocabulary in
    extractTags title content = firstn 20 contained /\
    NoDup (extractTags title content) /\
    (forall tag, In tag (extractTags title content) ->
       In tag vocabulary /\ includes text tag = true) /\
    (List.length contained <= 20 ->
     forall term, In term vocabulary -> includes text term = true ->
       In term (extractTags title content)).
Proof.
  intros title content text vocabulary contained.
  assert (Heq : extractTags title content = firstn 20 contained).
  { unfold extractTags. fold text. f_equal.
    pose proof vocabulary_distinct as Hnd.
    rewrite (add_terms_fresh text technicalTerms []).
    2:{ simpl. now apply NoDup_app_remove_r in Hnd. }
    cbn [app].
    rewrite (add_terms_fresh text govTerms).
    2:{ apply NoDup_filter_left. rewrite app_assoc in Hnd.
        now apply NoDup_app_remove_r in Hnd. }
    rewrite (add_terms_fresh text complianceTerms).
    2:{ rewrite <- filter_app. apply NoDup_filter_left.
        now rewrite <- app_assoc. }
    unfold contained, vocabulary. rewrite !filter_app, <- app_assoc. reflexivity. }
  assert (Hcontained : NoDup contained)
    by (apply NoDup_filter, vocabulary_distinct).
  split; [exact Heq |]. rewrite Heq. split; [| split].
  - clear - Hcontained. revert Hcontained. generalize 20.
    induction contained as [| x l IH]; intros n Hnd; destruct n; simpl;
      try constructor.
    + inversion Hnd as [| ? ? Hx Hl]; subst. intros Hin. apply Hx.
      now apply firstn_In in Hin.
    + inversion Hnd; subst. now apply IH.
  - intros tag Htag. apply firstn_In in Htag. apply filter_In in Htag. exact Htag.
  - intros Hlen term Hterm Hinc. rewrite firstn_all2 by exact Hlen.
    apply filter_In. now split.
Qed.

(** *** Case *)

Lemma lower_char_idempotent (c : ascii) : lower_char (lower_char c) = lower_char c.
Proof.
  destruct c as [[] [] [] [] [] [] [] []]; reflexivity.
Qed.

Lemma toLowerCase_idempotent (s : string) : toLowerCase (toLowerCase s) = toLowerCase s.
Proof.
  induction s as [| c s IH]; simpl; [reflexivity |].
  now rewrite lower_char_idempotent, IH.
Qed.

Lemma toLowerCase_append (s t : string) :
  toLowerCase (s ++ t) = toLowerCase s ++ toLowerCase t.
Proof.
  induction s as [| c s IH]; simpl; [reflexivity | now rewrite IH].
Qed.

(** X2.  The classification does not look at the case of the letters: two
    pages whose titles and contents differ in case only get the same tags
    and the same compliance level. *)
Theorem classification_ignores_case :
  forall title title' content content' : string,
    toLowerCase title = toLowerCase title' ->
    toLowerCase content = toLowerCase content' ->
    extractTags title content = extractTags title' content' /\
    determineComplianceLevel content = determineComplianceLevel content'.
Proof.
  intros title title' content content' Ht Hc. split.
  - unfold extractTags. rewrite !toLowerCase_append, Ht, Hc. reflexivity.
  - unfold determineComplianceLevel. rewrite Hc. reflexivity.
Qed.

Lemma classification_ignores_case_witness :
  extractTags "API SECURITY" "Use OAuth and HTTPS. You MUST comply."
  = extractTags "api security" "use oauth and https. you must comply."
  /\ determineComplianceLevel "Use OAuth and HTTPS. You MUST comply."
     = determineComplianceLevel "use oauth and https. you must comply.".
Proof.
  apply (classification_ignores_case "API SECURITY" "api security"
           "Use OAuth and HTTPS. You MUST comply."
           "use oauth and https. you must comply."); reflexivity.
Defined.


(** *** [generateStandardId] *)

Lemma chars_toLowerCase (s : string) :
  list_ascii_of_string (toLowerCase s) = map lower_char (list_ascii_of_string s).
Proof.
  induction s as [| c s IH]; simpl; [reflexivity | now rewrite IH].
Qed.

Lemma chars_remove_chars (cls : ascii -> bool) (s : string) (c : ascii) :
  In c (list_ascii_of_string (remove_chars cls s)) ->
  cls c = false /\ In c (list_ascii_of_string s).
Proof.
  induction s as [| a s IH]; simpl; [tauto |].
  destruct (cls a) eqn:E; simpl.
  - intros Hin. apply IH in Hin. tauto.
  - intros [<- | Hin]; [tauto |]. apply IH in Hin. tauto.
Qed.

Lemma length_toLowerCase (s : string) : String.length (toLowerCase s) = String.length s.
Proof.
  induction s as [| c s IH]; simpl; [reflexivity | now rewrite IH].
Qed.

Lemma length_remove_chars (cls : ascii -> bool) (s : string) :
  String.length (remove_chars cls s) <= String.length s.
Proof.
  induction s as [| c s IH]; simpl; [lia |]. destruct (cls c); simpl; lia.
Qed.

Lemma length_replace_chars (cls : ascii -> bool) (r : ascii) (s : string) :
  String.length (replace_chars cls r s) = String.length s.
Proof.
  induction s as [| c s IH]; simpl; [reflexivity | now rewrite IH].
Qed.

Lemma slugChar_lower (c : ascii) :
  not_slug_char c = false -> slugChar (lower_char c) = true.
Proof.
  destruct c as [[] [] [] [] [] [] [] []]; intros H;
    solve [reflexivity | discriminate H].
Qed.

(** The id that a URL with a path gets. *)
Lemma generateStandardId_ok {runtime : Platform} (url urlPath : string) :
  URL_pathname url = Some urlPath ->
  exists slug,
    generateStandardId url = Ok (slug ++ "-" ++ substring0 8 (md5_hex url)) /\
    String.length slug <= String.length urlPath /\
    forall c, In c (list_ascii_of_string slug) -> slugChar c = true.
Proof.
  intros Hurl. unfold generateStandardId. rewrite Hurl.
  eexists. split; [reflexivity |]. split.
  - rewrite length_toLowerCase.
    eapply Nat.le_trans; [apply length_remove_chars |].
    rewrite length_replace_chars. unfold strip_leading_slash.
    destruct urlPath as [| c p]; simpl; [lia |]. destruct (is_slash c); simpl; lia.
  - intros c Hc. rewrite chars_toLowerCase in Hc. apply in_map_iff in Hc.
    destruct Hc as [a [<- Ha]]. apply chars_remove_chars in Ha.
    now apply slugChar_lower.
Qed.

(** X3.  The id of a page is made of its URL alone.  When the URL does not
    parse the id is refused with the error of the parser; otherwise the id is
    a slug, a hyphen and the first eight characters of the MD5 digest of the
    URL, where the slug is not longer than the path of the URL and holds
    lower-case letters, digits and hyphens only. *)
Theorem generateStandardId_shape {runtime : Platform} :
  forall url : string,
    match URL_pathname url with
    | None => generateStandardId url = Err (mkError "Invalid URL")
    | Some urlPath =>
        exists slug,
          generateStandardId url = Ok (slug ++ "-" ++ substring0 8 (md5_hex url)) /\
          String.length slug <= String.length urlPath /\
          forall c, In c (list_ascii_of_string slug) -> slugChar c = true
    end.
Proof.
  intros url. destruct (URL_pathname url) as [urlPath |] eqn:Hurl.
  - now apply generateStandardId_ok.
  - unfold generateStandardId. now rewrite Hurl.
Qed.

(** *** [generateSummary] *)

Lemma append_assoc (a b c : string) : (a ++ b) ++ c = a ++ b ++ c.
Proof.
  induction a as [| x a IH]; simpl; [reflexivity | now rewrite IH].
Qed.

(** X4.  The summary is empty exactly when the content has no sentence of
    more than ten characters, white space at its ends not counted; otherwise
    it ends with a full stop.  The limit either plays no part, the summary
    being the same under every larger limit, or is met exactly: the summary
    is then cut to [maxLength] characters (three, for a smaller limit), the
    last three of them an ellipsis. *)
Theorem generateSummary_shape :
  forall (content : string) (maxLength : nat),
    let sentences :=
      filter (fun s => 10 <? String.length (trim s))
        (split_runs is_terminator content) in
    (sentences = [] <-> generateSummary content maxLength = EmptyString) /\
    (sentences <> [] ->
     exists body, generateSummary content maxLength = body ++ ".") /\
    ((forall n, maxLength <= n ->
        generateSummary content n = generateSummary content maxLength)
     \/ (String.length (generateSummary content maxLength) = Nat.max maxLength 3
         /\ exists body, generateSummary content maxLength = body ++ "...")).
Proof.
  intros content maxLength sentences.
  unfold generateSummary. fold sentences.
  destruct sentences as [| s0 rest] eqn:Hs.
  - split; [tauto |]. split; [congruence |]. left. reflexivity.
  - set (summary := String.concat ". " _ ++ ".").
    assert (Hdot : forall n,
      exists body,
        (if n <? String.length summary
         then substring0 (n - 3) summary ++ "..." else summary) = body ++ ".").
    { intros n. destruct (n <? String.length summary).
      - exists (substring0 (n - 3) summary ++ "..").
        rewrite append_assoc. reflexivity.
      - eexists. reflexivity. }
    split; [| split].
    + split; [discriminate |]. intros Hempty.
      destruct (Hdot maxLength) as [body Hbody]. rewrite Hbody in Hempty.
      destruct body; discriminate Hempty.
    + intros _. apply Hdot.
    + destruct (maxLength <? String.length summary) eqn:Hcut.
      * right. apply Nat.ltb_lt in Hcut. split; [| eexists; reflexivity].
        rewrite length_append, length_substring0. simpl. lia.
      * left. intros n Hn. apply Nat.ltb_ge in Hcut.
        assert (Hn' : (n <? String.length summary) = false)
          by (apply Nat.ltb_ge; lia).
        now rewrite Hn'.
Qed.


(** *** [extractKeywords] *)

Lemma keywordChar_lower (c : ascii) :
  is_word c = true -> keywordChar (lower_char c) = true.
Proof.
  destruct c as [[] [] [] [] [] [] [] []]; intros H;
    solve [reflexivity | discriminate H].
Qed.

(** X5.  A keyword of a text has more than three characters, all of them
    lower-case letters, digits or underscores, and is none of the stop
    words. *)
Theorem extractKeywords_sound :
  forall (text word : string),
    In word (extractKeywords text) ->
    3 < String.length word /\
    ~ In word stopWords /\
    forall c, In c (list_ascii_of_string word) -> keywordChar c = true.
Proof.
  intros text word Hin. unfold extractKeywords in Hin.
  apply filter_In in Hin. destruct Hin as [Hin Hstop].
  apply filter_In in Hin. destruct Hin as [Hin Hlen].
  apply in_map_iff in Hin. destruct Hin as [piece [<- _]].
  split; [now apply Nat.ltb_lt |]. split.
  - intros Hstopword. apply array_includes_In in Hstopword.
    rewrite Hstopword in Hstop. discriminate Hstop.
  - intros c Hc. rewrite chars_toLowerCase in Hc. apply in_map_iff in Hc.
    destruct Hc as [a [<- Ha]]. apply chars_remove_chars in Ha.
    destruct Ha as [Hword _]. apply negb_false_iff in Hword.
    now apply keywordChar_lower.
Qed.

Lemma extractKeywords_sound_witness :
  In "security" (extractKeywords "API Security: guidance, from the (government)!")
  /\ 3 < String.length "security" /\ ~ In "security" stopWords.
Proof.
  assert (Hin : In "security"
                  (extractKeywords "API Security: guidance, from the (government)!"))
    by (vm_compute; tauto).
  split; [exact Hin |].
  destruct (extractKeywords_sound _ _ Hin) as (Hlen & Hstop & _).
  split; assumption.
Defined.

(** *** [findRelatedStandards] *)

Lemma set_add_NoDup (s : list string) (x : string) : NoDup s -> NoDup (set_add s x).
Proof.
  intros Hs. unfold set_add. destruct (array_includes s x) eqn:E; [exact Hs |].
  apply NoDup_app; [exact Hs | repeat constructor; intros [] |].
  intros y Hy [<- | []].
  apply array_includes_In in Hy. congruence.
Qed.

Lemma set_add_length (s : list string) (x : string) :
  List.length s <= List.length (set_add s x) <= S (List.length s).
Proof.
  unfold set_add. destruct (array_includes s x); [lia |].
  rewrite length_app. simpl. lia.
Qed.

Section Related.
Variable standard : Standard.t.

Local Abbreviation step := (relatedStep standard (textOf standard)).

Lemma relatedStep_NoDup (acc : list string) (other : Standard.t) :
  NoDup acc -> NoDup (step acc other).
Proof.
  intros Hacc. unfold relatedStep.
  destruct (String.eqb _ _); [exact Hacc |].
  repeat match goal with
         | |- NoDup (if ?b then _ else _) => destruct b
         | |- NoDup (set_add _ _) => apply set_add_NoDup
         end; exact Hacc.
Qed.

Lemma relatedStep_keeps (acc : list string) (other : Standard.t) (i : string) :
  In i acc -> In i (step acc other).
Proof.
  intros Hacc. unfold relatedStep.
  destruct (String.eqb _ _); [exact Hacc |].
  repeat match goal with
         | |- In _ (if ?b then _ else _) => destruct b
         | |- In _ (set_add _ _) => apply set_add_In; left
         end; exact Hacc.
Qed.

Lemma relatedStep_length (acc : list string) (other : Standard.t) :
  List.length acc <= List.length (step acc other) <= S (List.length acc).
Proof.
  unfold relatedStep.
  destruct (String.eqb _ _); [lia |].
  assert (Hadd : forall (b : bool) (s : list string) (x : string),
            (if b then set_add s x else s) = s
            \/ ((if b then set_add s x else s) = (s ++ [x])%list /\ In x (s ++ [x])%list)).
  { intros b s x. destruct b; [| now left]. unfold set_add.
    destruct (array_includes s x); [now left | right].
    split; [reflexivity | apply in_or_app; right; now left]. }
  set (id := Standard.id other).
  destruct (Hadd (2 <=? List.length
              (filter (fun tag => array_includes (Standard.tags other) tag)
                 (Standard.tags standard))) acc id) as [-> | [-> Hin1]].
  - destruct (Hadd (String.eqb (Standard.category standard) (Standard.category other)
                    && (List.length acc <? 10)) acc id) as [-> | [-> Hin2]].
    + match goal with |- context [if ?b then _ else _] =>
        destruct (Hadd b acc id) as [-> | [-> _]] end;
        rewrite ?length_app; simpl; lia.
    + match goal with |- context [if ?b then set_add ?s _ else _] =>
        destruct b end; [| rewrite length_app; simpl; lia].
      unfold set_add. apply array_includes_In in Hin2. rewrite Hin2.
      rewrite length_app. simpl. lia.
  - assert (Hsame : forall b : bool,
              (if b then set_add (acc ++ [id]) id else (acc ++ [id])%list)
              = (acc ++ [id])%list).
    { intros b. destruct b; [| reflexivity]. unfold set_add.
      apply array_includes_In in Hin1. now rewrite Hin1. }
    rewrite length_app. simpl.
    match goal with |- context [if ?b then set_add (if ?c then _ else _) _ else _] =>
      replace (if c then set_add (acc ++ [id]) id else (acc ++ [id])%list)
        with (acc ++ [id])%list by (symmetry; apply Hsame) end.
    rewrite Hsame, length_app. simpl. lia.
Qed.

(** An id enters the set on one of the three grounds only. *)
Lemma relatedStep_sound (acc : list string) (other : Standard.t) (i : string) :
  In i (step acc other) ->
  In i acc \/ (i = Standard.id other /\ i <> Standard.id standard
               /\ related standard other = true).
Proof.
  unfold relatedStep, related, commonTags, commonKeywords.
  destruct (String.eqb_spec (Standard.id other) (Standard.id standard)) as [Heq | Hne];
    [now left |].
  destruct (2 <=? _) eqn:Htags; destruct (String.eqb (Standard.category standard) _) eqn:Hcat;
    destruct (3 <=? _) eqn:Hkw; simpl;
    repeat match goal with
           | |- context [if ?b then _ else _] => destruct b
           end;
    rewrite ?set_add_In; intuition (subst; auto).
Qed.

(** A related standard enters the set, unless the set has ten members and
    the category is the only ground. *)
Lemma relatedStep_complete (acc : list string) (other : Standard.t) :
  List.length acc < 10 ->
  Standard.id other <> Standard.id standard ->
  related standard other = true ->
  In (Standard.id other) (step acc other).
Proof.
  intros Hlen Hne.
  unfold relatedStep, related, commonTags, commonKeywords.
  destruct (String.eqb_spec (Standard.id other) (Standard.id standard));
    [contradiction |].
  apply Nat.ltb_lt in Hlen.
  destruct (2 <=? _) eqn:Htags.
  - intros _.
    repeat match goal with
           | |- In _ (if ?b then _ else _) => destruct b
           end;
      rewrite ?set_add_In; tauto.
  - destruct (String.eqb (Standard.category standard) _) eqn:Hcat.
    + intros _. rewrite Hlen. cbn [andb].
      match goal with |- In _ (if ?b then _ else _) => destruct b end;
        rewrite ?set_add_In; tauto.
    + cbn [orb andb]. intros ->. rewrite set_add_In. tauto.
Qed.

Lemma related_fold_keeps (l : list Standard.t) (acc : list string) (i : string) :
  In i acc -> In i (fold_left step l acc).
Proof.
  revert acc. induction l as [| o l IH]; intros acc Hacc; simpl; [exact Hacc |].
  apply IH. now apply relatedStep_keeps.
Qed.

Lemma related_fold_length (l : list Standard.t) (acc : list string) :
  List.length acc <= List.length (fold_left step l acc)
  <= List.length acc + List.length l.
Proof.
  revert acc. induction l as [| o l IH]; intros acc; simpl; [lia |].
  pose proof (IH (step acc o)). pose proof (relatedStep_length acc o). lia.
Qed.

Lemma related_fold_NoDup (l : list Standard.t) (acc : list string) :
  NoDup acc -> NoDup (fold_left step l acc).
Proof.
  revert acc. induction l as [| o l IH]; intros acc Hacc; simpl; [exact Hacc |].
  apply IH. now apply relatedStep_NoDup.
Qed.

Lemma related_fold_sound (l : list Standard.t) (acc : list string) (i : string) :
  In i (fold_left step l acc) ->
  In i acc \/ exists other, In other l /\ Standard.id other = i
                            /\ i <> Standard.id standard
                            /\ related standard other = true.
Proof.
  revert acc. induction l as [| o l IH]; intros acc; simpl; [tauto |].
  intros Hin. apply IH in Hin. destruct Hin as [Hin | [other [Hother Hrest]]].
  - apply relatedStep_sound in Hin. destruct Hin as [Hin | (Hid & Hne & Hrel)];
      [now left | right]. exists o. subst i. tauto.
  - right. exists other. tauto.
Qed.

Lemma related_fold_complete (l : list Standard.t) (acc : list string)
  (other : Standard.t) :
  List.length (fold_left step l acc) < 10 \/ List.length acc + List.length l <= 10 ->
  In other l ->
  Standard.id other <> Standard.id standard ->
  related standard other = true ->
  In (Standard.id other) (fold_left step l acc).
Proof.
  revert acc. induction l as [| o l IH]; intros acc Hroom Hin Hne Hrel;
    [contradiction |].
  simpl in *. destruct Hin as [-> | Hin].
  - apply related_fold_keeps. apply relatedStep_complete; [| assumption | assumption].
    pose proof (related_fold_length l (step acc other)).
    pose proof (relatedStep_length acc other). lia.
  - apply IH; try assumption.
    pose proof (relatedStep_length acc o). lia.
Qed.

End Related.

(** X6.  Every id that [findRelatedStandards] returns is the id of a
    standard of the corpus, other than the standard itself, that shares two
    tags, the category or three keywords with it; and no id is returned
    twice. *)
Theorem findRelatedStandards_sound :
  forall (standard : Standard.t) (allStandards : list Standard.t),
    NoDup (findRelatedStandards standard allStandards) /\
    forall id, In id (findRelatedStandards standard allStandards) ->
      exists other,
        In other allStandards /\ Standard.id other = id /\
        id <> Standard.id standard /\ related standard other = true.
Proof.
  intros standard allStandards. unfold findRelatedStandards. split.
  - assert (Hnd : NoDup (fold_left (relatedStep standard (textOf standard))
                           allStandards []))
      by (apply related_fold_NoDup; constructor).
    revert Hnd. generalize (fold_left (relatedStep standard (textOf standard))
                              allStandards []). generalize 10.
    intros n l. revert n.
    induction l as [| x l IH]; intros n Hnd; destruct n; simpl; try constructor.
    + inversion Hnd as [| ? ? Hx Hl]; subst. intros Hin. apply Hx.
      now apply firstn_In in Hin.
    + inversion Hnd; subst. now apply IH.
  - intros id Hin. apply firstn_In in Hin. apply related_fold_sound in Hin.
    destruct Hin as [[] | Hin]. exact Hin.
Qed.

(** X7.  When fewer than ten ids are returned, or the corpus has at most
    ten standards, [findRelatedStandards] misses nothing: it returns the id
    of every standard of the corpus, other than the standard itself, that
    shares two tags, the category or three keywords with it. *)
Theorem findRelatedStandards_complete :
  forall (standard other : Standard.t) (allStandards : list Standard.t),
    List.length (findRelatedStandards standard allStandards) < 10
    \/ List.length allStandards <= 10 ->
    In other allStandards ->
    Standard.id other <> Standard.id standard ->
    related standard other = true ->
    In (Standard.id other) (findRelatedStandards standard allStandards).
Proof.
  intros standard other allStandards Hroom Hin Hne Hrel.
  unfold findRelatedStandards in *.
  set (found := fold_left (relatedStep standard (textOf standard)) allStandards []) in *.
  assert (Hlen : List.length found <= 10).
  { destruct Hroom as [Hshort | Hsmall].
    - rewrite length_firstn in Hshort. lia.
    - pose proof (related_fold_length standard allStandards []) as Hfold.
      simpl in Hfold. unfold found. lia. }
  rewrite firstn_all2 by exact Hlen.
  apply related_fold_complete; try assumption.
  destruct Hroom as [Hshort | Hsmall]; [left | right; simpl; lia].
  rewrite firstn_all2 in Hshort by exact Hlen. exact Hshort.
Qed.


(** The corpus of the related-standards tests: the security standard shares
    three tags with the API standard. *)
Lemma findRelatedStandards_complete_witness :
  In "security-standard-1"
    (findRelatedStandards Sample.apiStandard
       [Sample.apiStandard; Sample.securityStandard; Sample.unrelatedStandard]).
Proof.
  apply (findRelatedStandards_complete Sample.apiStandard Sample.securityStandard).
  - right. simpl. lia.
  - simpl. tauto.
  - discriminate.
  - reflexivity.
Defined.

(** *** Processing, then validation *)

Lemma whitespaceOnly_append (a b : string) :
  whitespaceOnly (a ++ b) = whitespaceOnly a && whitespaceOnly b.
Proof.
  induction a as [| c a IH]; simpl; [reflexivity |].
  now rewrite IH, andb_assoc.
Qed.

Lemma blank_whitespaceOnly (s : string) : blank s = whitespaceOnly s.
Proof.
  unfold blank. rewrite <- SchemaFacts.blank_query. f_equal.
  destruct (trim s); reflexivity.
Qed.

(** X8.  A page that [processScrapedPage] accepts never fails the rule on
    the id: the generated id holds a hyphen.  Its URL has parsed, so the rule
    on the URL fails for the empty URL only, and the three other rules are
    rules on the title, the content and the category of the page as it was
    scraped. *)
Theorem processed_page_validation {runtime : Platform} :
  forall (createdNow updatedNow : Date) (page : ScrapedPage.t) (d : Standard.t),
    processScrapedPage createdNow updatedNow page = Ok d ->
    idMissing d = false /\
    errors (validateStandard d)
    = (report (blank (ScrapedPage.title page)) "Standard title is required"
       ++ report (falsyString (ScrapedPage.url page)) "Valid URL is required"
       ++ report (falsyString (ScrapedPage.content page)
                  || (String.length (trim (ScrapedPage.content page)) <? 50))
            "Standard content must be at least 50 characters long"
       ++ report (blank (ScrapedPage.category page)) "Standard category is required")%list.
Proof.
  intros createdNow updatedNow page d. unfold processScrapedPage.
  destruct (URL_pathname (ScrapedPage.url page)) as [urlPath |] eqn:Hurl.
  - destruct (generateStandardId_ok _ _ Hurl) as (slug & -> & _).
    intros Hd. injection Hd as <-.
    assert (Hblank : blank (slug ++ "-" ++ substring0 8 (md5_hex (ScrapedPage.url page)))
                     = false).
    { rewrite blank_whitespaceOnly, whitespaceOnly_append. simpl.
      apply andb_false_r. }
    split; [exact Hblank |].
    unfold validateStandard, isValidUrl, report, blank in *. cbv zeta.
    cbn [Standard.id Standard.title Standard.url Standard.content Standard.category].
    cbn [append] in Hblank. cbn [errors]. rewrite Hblank, Hurl, orb_false_r. cbn [negb].
    repeat match goal with
           | |- context [if ?b then _ else _] => destruct b
           end; reflexivity.
  - unfold generateStandardId. rewrite Hurl. discriminate.
Qed.

(** The page of the classifier tests: it is valid as it stands. *)
Lemma processed_page_validation_witness :
  exists d,
    processScrapedPage (runtime := Sample.platform) 0%Z 0%Z Sample.mockScrapedPage = Ok d
    /\ errors (validateStandard (runtime := Sample.platform) d) = [].
Proof.
  assert (E : exists d,
            processScrapedPage (runtime := Sample.platform) 0%Z 0%Z
              Sample.mockScrapedPage = Ok d)
    by (eexists; vm_compute; reflexivity).
  destruct E as [d E]. exists d. split; [exact E |].
  destruct (processed_page_validation (runtime := Sample.platform) 0%Z 0%Z
              Sample.mockScrapedPage d E) as [_ Herrors].
  rewrite Herrors. vm_compute. reflexivity.
Defined.

End ClassifierProperties.

(** ** The manager over any store: errors and the fusion *)

Module ManagerProperties.
Import JS JSFacts SortFacts DatabaseManager Ranking DatabaseManagerFacts.

Section AnyStore.
Context {W : Type} {backend : Backend W} {runtime : Platform}.

(** *** A rebuild that fails *)

(** X9.  When a query fails with the signature of a damaged index and a
    script of the rebuild fails in its turn, [all] rejects with the error of
    that script: the scripts after it are not run and the query is not run
    again. *)
Theorem failed_rebuild_rejects :
  forall (R : Type) (sql : Query R) (s : State) (w1 : W) (err : Error),
    sqlite_all sql (world s) = (w1, Err err) ->
    isCorruption err = true ->
    forall e : Error,
      (forall w2,
         sqlite_exec DropFts w1 = (w2, Err e) ->
         all sql s
         = (mkState w2 (calls s ++ [CallAll sql; CallExec DropFts]), Err e)) /\
      (forall w2 w3,
         sqlite_exec DropFts w1 = (w2, Ok tt) ->
         sqlite_exec CreateFts w2 = (w3, Err e) ->
         all sql s
         = (mkState w3 (calls s ++ [CallAll sql; CallExec DropFts; CallExec CreateFts]),
            Err e)) /\
      (forall w2 w3 w4,
         sqlite_exec DropFts w1 = (w2, Ok tt) ->
         sqlite_exec CreateFts w2 = (w3, Ok tt) ->
         sqlite_exec RebuildFts w3 = (w4, Err e) ->
         all sql s
         = (mkState w4
              (calls s ++ [CallAll sql; CallExec DropFts; CallExec CreateFts;
                           CallExec RebuildFts]),
            Err e)).
Proof.
  intros R sql s w1 err Hall Hsig e.
  repeat split; intros; rewrite all_unfold, Hall; cbv beta iota zeta; rewrite Hsig;
    unfold rebuildFTSIndex, try_catch, bind, exec, db_exec, primitive, throw;
    cbn [world calls];
    repeat match goal with
           | H : sqlite_exec _ _ = _ |- _ => rewrite H; clear H; cbn [world calls]
           end;
    now rewrite <- !app_assoc.
Qed.

(** *** Ingestion *)

(** X10.  [insertStandard] issues its two statements and the call on the
    vector store in that order and stops at the first statement that fails,
    rejecting with its error: after a failed count update the row of the
    standard stays written, and the vector store is not called.  A failure of
    the vector store is swallowed: once both statements have succeeded,
    [insertStandard] resolves. *)
Theorem insertStandard_outcomes :
  forall (standard : Standard.t) (s : State),
    let insert := InsertOrReplaceStandard (insertParams standard) in
    let count := InsertOrReplaceCategoryCount (Standard.category standard) in
    match sqlite_run insert (world s) with
    | (w1, Err e) =>
        insertStandard standard s = (mkState w1 (calls s ++ [CallRun insert]), Err e)
    | (w1, Ok _) =>
        match sqlite_run count w1 with
        | (w2, Err e) =>
            insertStandard standard s
            = (mkState w2 (calls s ++ [CallRun insert; CallRun count]), Err e)
        | (w2, Ok _) =>
            insertStandard standard s
            = (mkState (fst (vector_addStandard standard w2))
                 (calls s ++ [CallRun insert; CallRun count; CallAddStandard standard]),
               Ok tt)
        end
    end.
Proof.
  intros standard s insert count.
  unfold insertStandard, updateCategoryCount, run, db_run, bind, try_catch,
    vectorStorage_addStandard, primitive, ret.
  fold insert. fold count.
  destruct (sqlite_run insert (world s)) as [w1 [[] | e]]; [| reflexivity].
  cbn [world calls].
  destruct (sqlite_run count w1) as [w2 [[] | e]]; cbn [world calls].
  - destruct (vector_addStandard standard w2) as [w3 [[] | e]]; cbn [fst world calls];
      now rewrite <- !app_assoc.
  - now rewrite <- !app_assoc.
Qed.

(** *** Hybrid search *)

(** X11.  [hybridSearch] rejects only as the lexical search rejects: an
    error it rejects with is the error of a call of [searchStandards] for the
    same query and filters, the last thing it did.  An error of the vector
    store or of the fusion is never its outcome. *)
Theorem hybridSearch_rejects_as_lexical :
  forall (query : string) (category organisation : option string)
         (options : HybridOptions.t) (s s' : State) (e : Error),
    hybridSearch query category organisation options s = (s', Err e) ->
    exists s0, searchStandards query category organisation s0 = (s', Err e).
Proof.
  intros query category organisation options s s' e.
  rewrite hybridSearch_unfold.
  destruct (searchStandards query category organisation s) as [s1 [ftsResults | e1]].
  - destruct (vectorStorage_semanticSearch _ _ s1) as [s2 r]. cbv zeta.
    destruct (fuse _ _ _ _); [discriminate |].
    intros H. now exists s2.
  - intros H. now exists s1.
Qed.

End AnyStore.

(** *** The fusion on any two lists *)

Section Fusion.
Context {runtime : Platform}.

Lemma addFts_keys (w : Q) (l : list SearchResult.t) (m : ResultMap) (k : string) :
  In k (map fst (fold_left (addFtsResult w) l m))
  <-> In k (map fst m) \/ In k (map resultId l).
Proof.
  revert m. induction l as [| r l IH]; intros m; simpl; [tauto |].
  rewrite IH. unfold addFtsResult. rewrite map_set_keys. unfold resultId.
  intuition.
Qed.

Lemma addVector_keys (w : Q) (m m' : ResultMap) (v : VectorResult.t) (k : string) :
  addVectorResult w m v = Ok m' ->
  In k (map fst m') <-> In k (map fst m) \/ k = VectorResult.id v.
Proof.
  unfold addVectorResult.
  destruct (map_get m (VectorResult.id v)).
  - intros Heq. injection Heq as <-. apply map_set_keys.
  - destruct (standardOfVector v); [| discriminate].
    intros Heq. injection Heq as <-. apply map_set_keys.
Qed.

Lemma addVectors_keys (w : Q) (vs : list VectorResult.t) (m m' : ResultMap)
  (k : string) :
  addVectorResults w m vs = Ok m' ->
  In k (map fst m') <-> In k (map fst m) \/ In k (map VectorResult.id vs).
Proof.
  revert m. induction vs as [| v vs IH]; intros m; simpl.
  - intros Heq. injection Heq as <-. tauto.
  - destruct (addVectorResult w m v) as [m1 | e] eqn:Hv; [| discriminate].
    intros Hrest. rewrite (IH m1 Hrest), (addVector_keys w m m1 v k Hv).
    intuition.
Qed.

Lemma keyed_ids (m : ResultMap) : keyed m -> map resultId (map_values m) = map fst m.
Proof.
  unfold keyed, map_values. induction 1 as [| [k v] m Hk Hm IH]; simpl;
    [reflexivity |].
  simpl in Hk. now rewrite IH, Hk.
Qed.

Lemma NoDup_firstn {A} (n : nat) (l : list A) : NoDup l -> NoDup (firstn n l).
Proof.
  revert n. induction l as [| x l IH]; intros n Hnd; destruct n; simpl;
    try constructor.
  - inversion Hnd as [| ? ? Hx Hl]; subst. intros Hin. apply Hx.
    now apply firstn_In in Hin.
  - inversion Hnd; subst. now apply IH.
Qed.

Lemma slice0_is_firstn {A} (n : Z) (l : list A) : exists k, slice0 n l = firstn k l.
Proof.
  unfold slice0. destruct (n <? 0)%Z; eexists; reflexivity.
Qed.

(** X12.  Whatever the two result lists hold, also the same document more
    than once, the fused list names no document twice, names only documents
    of one of the two lists, and names all of them when [maxResults] is at
    least the number of results of both lists together. *)
Theorem fusion_one_entry_per_document :
  forall (semanticWeight : Q) (maxResults : Z)
         (ftsResults : list SearchResult.t) (vectorResults : list VectorResult.t)
         (results : list SearchResult.t),
    fuse semanticWeight maxResults ftsResults vectorResults = Ok results ->
    NoDup (map resultId results) /\
    (forall x, In x results ->
       In (resultId x) (map resultId ftsResults)
       \/ In (resultId x) (map VectorResult.id vectorResults)) /\
    List.length results <= List.length ftsResults + List.length vectorResults /\
    ((Z.of_nat (List.length ftsResults + List.length vectorResults) <= maxResults)%Z ->
     forall id,
       In id (map resultId ftsResults) \/ In id (map VectorResult.id vectorResults) ->
       In id (map resultId results)).
Proof.
  intros w maxResults ftsResults vectorResults results. unfold fuse.
  destruct (combine w ftsResults vectorResults) as [combined | e] eqn:Hcombine;
    [| discriminate].
  intros Heq. injection Heq as <-.
  destruct (combine_wf w ftsResults vectorResults combined Hcombine) as [Hnd Hkeyed].
  pose proof (sort_perm byScoreDesc (map_values combined)) as Hperm.
  assert (Hkeys : forall k, In k (map fst combined)
                            <-> In k (map resultId ftsResults)
                                \/ In k (map VectorResult.id vectorResults)).
  { intros k. unfold combine in Hcombine.
    rewrite (addVectors_keys w vectorResults _ combined k Hcombine), addFts_keys.
    simpl. tauto. }
  assert (Hsorted_ids : Permutation (map resultId (JS.sort byScoreDesc (map_values combined)))
                          (map fst combined)).
  { rewrite <- (keyed_ids combined Hkeyed). now apply Permutation_map. }
  assert (Hlen : List.length (map_values combined)
                 <= List.length ftsResults + List.length vectorResults).
  { unfold map_values. rewrite length_map, <- (length_map fst).
    rewrite <- (length_map resultId ftsResults),
      <- (length_map VectorResult.id vectorResults), <- length_app.
    apply NoDup_incl_length; [exact Hnd |].
    intros k Hk. apply in_or_app. now apply Hkeys. }
  unfold rank. destruct (slice0_is_firstn maxResults
                           (JS.sort byScoreDesc (map_values combined))) as [k Hk].
  split; [| split; [| split]].
  - rewrite Hk, <- firstn_map. apply NoDup_firstn.
    apply (Permutation_NoDup (Permutation_sym Hsorted_ids) Hnd).
  - intros x Hx. rewrite Hk in Hx. apply firstn_In in Hx.
    apply Hkeys. apply (Permutation_in _ Hsorted_ids). now apply in_map.
  - rewrite Hk, length_firstn, (Permutation_length Hperm). lia.
  - intros Hmax id Hid.
    unfold slice0. destruct (Z.ltb_spec maxResults 0) as [Hneg | Hpos]; [lia |].
    rewrite firstn_all2 by (rewrite (Permutation_length Hperm); lia).
    apply (Permutation_in _ (Permutation_sym Hsorted_ids)). now apply Hkeys.
Qed.

(** X13.  A document of the lexical results that the semantic search does
    not return stands in the fused map with its lexical score multiplied by
    [1 - semanticWeight], its document and its matched fields unchanged. *)
Theorem lexical_only_is_scaled :
  forall (semanticWeight : Q) (ftsResults : list SearchResult.t)
         (vectorResults : list VectorResult.t) (combined : ResultMap)
         (r : SearchResult.t),
    combine semanticWeight ftsResults vectorResults = Ok combined ->
    NoDup (map resultId ftsResults) ->
    In r ftsResults ->
    ~ In (resultId r) (map VectorResult.id vectorResults) ->
    map_get combined (resultId r) = Some (scaled semanticWeight r).
Proof.
  intros w ftsResults vectorResults combined r Hcombine Hnd Hr Hnot.
  unfold combine in Hcombine.
  rewrite (addVectors_other w vectorResults _ combined _ Hcombine Hnot).
  now apply addFts_same.
Qed.

End Fusion.

(** *** On the scripted store and the sample answers *)

Section OnSample.
Import Sample.

(** The query meets a damaged index, the table is dropped, and the script
    that creates it again fails. *)
Lemma failed_rebuild_rejects_witness :
  all (SelectStandards [])
    (Scripted.initial [Some Scripted.corrupt; None; Some Scripted.readonly; None])
  = (mkState [None]
       [CallAll (SelectStandards []); CallExec DropFts; CallExec CreateFts],
     Err Scripted.readonly).
Proof.
  refine (proj1 (proj2
            (failed_rebuild_rejects (W := Scripted.World) Row.t (SelectStandards [])
               (Scripted.initial [Some Scripted.corrupt; None; Some Scripted.readonly; None])
               [None; Some Scripted.readonly; None] Scripted.corrupt
               _ _ Scripted.readonly))
            [Some Scripted.readonly; None] [None] _ _);
    reflexivity.
Defined.

(** Both lexical attempts fail: the outcome is the error of the second. *)
Lemma hybridSearch_rejects_as_lexical_witness :
  exists s0,
    searchStandards (W := Scripted.World) "api" None None s0
    = (mkState [None]
         [CallAll (SelectFtsMatch "api" []); CallAll (SelectFtsMatch "api" [])],
       Err Scripted.readonly).
Proof.
  apply (hybridSearch_rejects_as_lexical (W := Scripted.World) "api" None None defaults
           (Scripted.initial [Some Scripted.busy; Some Scripted.readonly; None])).
  reflexivity.
Defined.

(** The lexical list names a standard twice, and the semantic answer names
    it once more. *)
Lemma fusion_one_entry_per_document_witness :
  exists results,
    fuse (6 # 10) 20
      [ SearchResult.mk apiSecurity 2 ["title"];
        SearchResult.mk accessibilityWcag 1 [];
        SearchResult.mk apiSecurity 1 ["content"] ]
      semanticHits
    = Ok results /\
    map resultId results
    = ["api-security-1"; "accessibility-wcag-1"; "cloud-hosting-1"] /\
    NoDup (map resultId results).
Proof.
  assert (E : exists results,
            fuse (6 # 10) 20
              [ SearchResult.mk apiSecurity 2 ["title"];
                SearchResult.mk accessibilityWcag 1 [];
                SearchResult.mk apiSecurity 1 ["content"] ]
              semanticHits
            = Ok results /\
            map resultId results
            = ["api-security-1"; "accessibility-wcag-1"; "cloud-hosting-1"])
    by (eexists; split; vm_compute; reflexivity).
  destruct E as (results & E & Hids). exists results.
  split; [exact E |]. split; [exact Hids |].
  exact (proj1 (fusion_one_entry_per_document _ _ _ _ _ E)).
Defined.

(** The accessibility standard is found by the lexical search alone. *)
Lemma lexical_only_is_scaled_witness :
  exists combined,
    combine (6 # 10)
      [SearchResult.mk apiSecurity 2 ["title"]; SearchResult.mk accessibilityWcag 1 []]
      semanticHits
    = Ok combined /\
    map_get combined "accessibility-wcag-1"
    = Some (SearchResult.mk accessibilityWcag (1 * (1 - (6 # 10)))%Q []).
Proof.
  assert (E : exists combined,
            combine (6 # 10)
              [SearchResult.mk apiSecurity 2 ["title"];
               SearchResult.mk accessibilityWcag 1 []]
              semanticHits
            = Ok combined)
    by (eexists; vm_compute; reflexivity).
  destruct E as [combined E]. exists combined. split; [exact E |].
  apply (lexical_only_is_scaled (6 # 10) _ _ combined
           (SearchResult.mk accessibilityWcag 1 []) E).
  - repeat constructor; simpl; intuition discriminate.
  - simpl. tauto.
  - simpl. intuition discriminate.
Defined.

End OnSample.

End ManagerProperties.

(** ** The store: reading back what was written *)

Module StoreProperties.
Import JS JSFacts SortFacts DatabaseManager Ranking Store Schema SchemaFacts Reads.







Section OnSchema.
Context {F V : Type} {index : Fts5 F} {collection : VectorStore V}
  {runtime : Platform}.

Lemma getStandard_schema (id : string) (w : World F V) (log : list Call) :
  getStandard id (mkState w log)
  = (mkState w log,
     Ok (option_map rowToStandard (hd_error (selectById id (database w))))).
Proof.
  unfold getStandard, get, db_get, bind, ret. destruct w as [db v]. simpl.
  destruct (hd_error (selectById id db)); reflexivity.
Qed.



(** [getStandard] resolves with nothing exactly when no row has the id, and
    otherwise with the document of a row of that id. *)
Lemma getStandard_lookup :
  forall (id : string) (w : World F V) (log : list Call),
    exists found,
      getStandard id (mkState w log) = (mkState w log, Ok found) /\
      (found = None <->
       forall r, In r (standards (database w)) -> Row.id r <> id) /\
      (forall x, found = Some x ->
       Standard.id x = id /\
       exists r, In r (standards (database w)) /\ x = rowToStandard r).
Proof.
  intros id w log. rewrite getStandard_schema. eexists. split; [reflexivity |].
  unfold selectById.
  destruct (filter (fun r => String.eqb (Row.id r) id) (standards (database w)))
    as [| r rest] eqn:Hfilter; simpl.
  - split.
    + split; [| reflexivity]. intros _ r Hr Hid.
      assert (Hin : In r (filter (fun r => String.eqb (Row.id r) id)
                            (standards (database w)))).
      { apply filter_In. split; [exact Hr |]. now apply String.eqb_eq. }
      rewrite Hfilter in Hin. exact Hin.
    + discriminate.
  - assert (Hr : In r (standards (database w)) /\ Row.id r = id).
    { assert (Hin : In r (filter (fun r => String.eqb (Row.id r) id)
                            (standards (database w))))
        by (rewrite Hfilter; now left).
      apply filter_In in Hin. destruct Hin as [Hin Hid].
      apply String.eqb_eq in Hid. tauto. }
    split.
    + split; [discriminate |]. intros Hnone. exfalso.
      now apply (Hnone r (proj1 Hr)).
    + intros x Hx. injection Hx as <-. split; [exact (proj2 Hr) |].
      exists r. tauto.
Qed.



(** *** The table of categories *)





(** *** [getCategories] *)

Lemma categories_fold (l acc : list string) :
  (NoDup acc -> NoDup (fold_left set_add l acc)) /\
  (forall x, In x (fold_left set_add l acc) <-> In x acc \/ In x l).
Proof.
  revert acc. induction l as [| a l IH]; intros acc; simpl.
  - split; [tauto | intros x; tauto].
  - destruct (IH (set_add acc a)) as [IHnd IHin]. split.
    + intros Hacc. apply IHnd. unfold set_add.
      destruct (array_includes acc a) eqn:E; [exact Hacc |].
      apply NoDup_app; [exact Hacc | repeat constructor; intros [] |].
      intros y Hy [<- | []]. apply array_includes_In in Hy. congruence.
    + intros x. rewrite IHin, set_add_In. intuition.
Qed.

Lemma categoriesOf_spec (rows : list Row.t) :
  NoDup (categoriesOf rows) /\
  forall c, In c (categoriesOf rows) <-> exists r, In r rows /\ Row.category r = c.
Proof.
  unfold categoriesOf.
  destruct (categories_fold (map Row.category rows) []) as [Hnd Hin].
  split; [apply Hnd; constructor |].
  intros c. rewrite Hin, in_map_iff. simpl. split.
  - intros [[] | [r [Hc Hr]]]. exists r. tauto.
  - intros [r [Hr Hc]]. right. exists r. tauto.
Qed.

Lemma list_sum_indicator (x : string) (cs : list string) :
  NoDup cs -> In x cs ->
  list_sum (map (fun c => if String.eqb x c then 1 else 0) cs) = 1.
Proof.
  induction cs as [| c cs IH]; intros Hnd Hin; [contradiction |].
  inversion Hnd as [| ? ? Hc Hcs]; subst. simpl.
  destruct (String.eqb_spec x c) as [-> | Hne].
  - f_equal. clear - Hc. induction cs as [| y cs IH]; simpl; [reflexivity |].
    destruct (String.eqb_spec c y) as [-> | _]; [exfalso; apply Hc; now left |].
    apply IH. intros Hin. apply Hc. now right.
  - destruct Hin as [-> | Hin]; [contradiction | now apply IH].
Qed.

Lemma list_sum_counts (cs : list string) (rows : list Row.t) :
  NoDup cs -> (forall r, In r rows -> In (Row.category r) cs) ->
  list_sum (map (fun c => countOf c rows) cs) = List.length rows.
Proof.
  intros Hnd. induction rows as [| r rows IH]; intros Hall.
  - clear. induction cs as [| c cs IHc]; simpl; [reflexivity | exact IHc].
  - assert (Hsplit : list_sum (map (fun c => countOf c (r :: rows)) cs)
                     = list_sum (map (fun c => if String.eqb (Row.category r) c
                                               then 1 else 0) cs)
                       + list_sum (map (fun c => countOf c rows) cs)).
    { clear. unfold countOf, list_sum. induction cs as [| c cs IHc]; [reflexivity |].
      cbn [map fold_right]. rewrite IHc. cbn [filter].
      destruct (String.eqb (Row.category r) c); simpl; lia. }
    rewrite Hsplit, IH by (intros x Hx; apply Hall; now right).
    rewrite (list_sum_indicator (Row.category r) cs Hnd) by (apply Hall; now left).
    reflexivity.
Qed.

Lemma list_sum_perm (a b : list nat) : Permutation a b -> list_sum a = list_sum b.
Proof. induction 1; simpl; lia. Qed.

Lemma byCountDesc_total (x y : string * nat) :
  byCountDesc x y = true \/ byCountDesc y x = true.
Proof.
  unfold byCountDesc. destruct (Nat.leb_spec (snd y) (snd x)); [now left | right].
  apply Nat.leb_le. lia.
Qed.

Lemma byCountDesc_trans (x y z : string * nat) :
  byCountDesc x y = true -> byCountDesc y z = true -> byCountDesc x z = true.
Proof. unfold byCountDesc. rewrite !Nat.leb_le. lia. Qed.

Lemma getCategories_schema (w : World F V) (log : list Call) :
  getCategories (mkState w log)
  = (mkState w log,
     Ok (map (fun row => Category.mk (fst row) (snd row))
           (selectCategoryCounts (database w)))).
Proof.
  unfold getCategories, Reads.all, Reads.db_all, bind, try_catch, ret.
  destruct w as [db v]. reflexivity.
Qed.

(** X18.  [getCategories] counts the standards as they are in the table at
    the time of the call: it names every category that has a standard, each
    once, with the number of its standards, the larger counts first, and the
    counts add up to the number of standards. *)
Theorem getCategories_counts_live :
  forall (w : World F V) (log : list Call),
    let rows := standards (database w) in
    exists cats,
      getCategories (mkState w log) = (mkState w log, Ok cats) /\
      NoDup (map Category.name cats) /\
      (forall name, In name (map Category.name cats)
                    <-> exists r, In r rows /\ Row.category r = name) /\
      (forall c, In c cats ->
         Category.count c = countOf (Category.name c) rows /\ 0 < Category.count c) /\
      StronglySorted (fun a b => Category.count b <= Category.count a) cats /\
      list_sum (map Category.count cats) = List.length rows.
Proof.
  intros w log rows. rewrite getCategories_schema. eexists. split; [reflexivity |].
  unfold selectCategoryCounts. fold rows.
  destruct (categoriesOf_spec rows) as [Hnd Hin].
  set (groups := map (fun category => (category, countOf category rows))
                   (categoriesOf rows)).
  pose proof (sort_perm byCountDesc groups) as Hperm.
  assert (Hnames : map fst groups = categoriesOf rows).
  { unfold groups. rewrite map_map. simpl. apply map_id. }
  assert (Hcounts : map snd groups = map (fun c => countOf c rows) (categoriesOf rows)).
  { unfold groups. now rewrite map_map. }
  split; [| split; [| split; [| split]]].
  - rewrite map_map. simpl.
    apply (Permutation_NoDup (l := map fst groups));
      [apply Permutation_map, Permutation_sym, Hperm | now rewrite Hnames].
  - intros name. rewrite map_map. simpl. rewrite <- Hin, <- Hnames. split; intros H.
    + apply (Permutation_in _ (Permutation_map fst Hperm)). exact H.
    + apply (Permutation_in _ (Permutation_map fst (Permutation_sym Hperm))). exact H.
  - intros c Hc. apply in_map_iff in Hc. destruct Hc as [[name n] [<- Hg]]. simpl.
    apply (Permutation_in _ Hperm) in Hg. unfold groups in Hg.
    apply in_map_iff in Hg. destruct Hg as [name' [Heq Hname]].
    injection Heq as -> <-. split; [reflexivity |].
    apply Hin in Hname. destruct Hname as [r [Hr Hcat]].
    unfold countOf.
    assert (Hfr : In r (filter (fun x => String.eqb (Row.category x) name) rows)).
    { apply filter_In. split; [exact Hr | now apply String.eqb_eq]. }
    destruct (filter _ rows); [contradiction | simpl; lia].
  - pose proof (sort_strongly_sorted byCountDesc byCountDesc_total byCountDesc_trans
                  groups) as Hs.
    clear Hperm.
    induction Hs as [| x l Hl IH Hx]; simpl; [constructor |].
    constructor; [assumption |].
    rewrite Forall_forall in *. intros y Hy. apply in_map_iff in Hy.
    destruct Hy as [z [<- Hz]]. simpl. specialize (Hx z Hz).
    unfold byCountDesc in Hx. now apply Nat.leb_le.
  - rewrite map_map.
    rewrite (map_ext _ snd) by reflexivity.
    rewrite (list_sum_perm _ _ (Permutation_map snd Hperm)), Hcounts.
    apply list_sum_counts; [exact Hnd |].
    intros r Hr. apply Hin. now exists r.
Qed.

(** *** [getAllStandards] *)

Lemma byCategoryTitle_spec (a b : Row.t) :
  byCategoryTitle a b = true
  <-> OrderedTypeEx.String_as_OT.lt (Row.category a) (Row.category b)
      \/ (Row.category a = Row.category b
          /\ String.leb (Row.title a) (Row.title b) = true).
Proof.
  unfold byCategoryTitle.
  destruct (String.compare (Row.category a) (Row.category b)) eqn:E.
  - apply OrderedTypeEx.String_as_OT.cmp_eq in E. split; [tauto |].
    intros [Hlt | [_ Hle]]; [| exact Hle].
    exfalso. rewrite E in Hlt.
    now apply (OrderedTypeEx.String_as_OT.lt_not_eq _ _ Hlt).
  - apply OrderedTypeEx.String_as_OT.cmp_lt in E. tauto.
  - split; [discriminate |]. intros [Hlt | [Heq _]].
    + apply OrderedTypeEx.String_as_OT.cmp_lt in Hlt.
      unfold OrderedTypeEx.String_as_OT.cmp in Hlt. congruence.
    + apply OrderedTypeEx.String_as_OT.cmp_eq in Heq.
      unfold OrderedTypeEx.String_as_OT.cmp in Heq. congruence.
Qed.

Lemma byCategoryTitle_total (x y : Row.t) :
  byCategoryTitle x y = true \/ byCategoryTitle y x = true.
Proof.
  unfold byCategoryTitle. rewrite (String.compare_antisym (Row.category y)).
  destruct (String.compare (Row.category x) (Row.category y)); simpl;
    [apply String.leb_total | now left | now right].
Qed.

Lemma byCategoryTitle_trans (x y z : Row.t) :
  byCategoryTitle x y = true -> byCategoryTitle y z = true ->
  byCategoryTitle x z = true.
Proof.
  rewrite !byCategoryTitle_spec.
  intros [Hxy | [Hxy Txy]] [Hyz | [Hyz Tyz]].
  - left. now apply OrderedTypeEx.String_as_OT.lt_trans with (Row.category y).
  - left. now rewrite <- Hyz.
  - left. now rewrite Hxy.
  - right. split; [congruence |]. now apply leb_trans with (Row.title y).
Qed.

Lemma getAllStandards_schema (w : World F V) (log : list Call) :
  getAllStandards (mkState w log)
  = (mkState w log, Ok (map rowToStandard (selectAll (database w)))).
Proof.
  unfold getAllStandards, Reads.all, Reads.db_all, bind, try_catch, ret.
  destruct w as [db v]. reflexivity.
Qed.

(** X19.  [getAllStandards] resolves with the documents of all the rows of
    the table, each once, ordered by category and, within a category, by
    title. *)
Theorem getAllStandards_complete_and_ordered :
  forall (w : World F V) (log : list Call),
    exists all,
      getAllStandards (mkState w log) = (mkState w log, Ok all) /\
      Permutation all (map rowToStandard (standards (database w))) /\
      StronglySorted catalogueOrder all.
Proof.
  intros w log. rewrite getAllStandards_schema. eexists. split; [reflexivity |].
  unfold selectAll. split; [apply Permutation_map, sort_perm |].
  pose proof (sort_strongly_sorted byCategoryTitle byCategoryTitle_total
                byCategoryTitle_trans (standards (database w))) as Hs.
  induction Hs as [| x l Hl IH Hx]; simpl; [constructor |].
  constructor; [assumption |].
  rewrite Forall_forall in *. intros y Hy. apply in_map_iff in Hy.
  destruct Hy as [z [<- Hz]]. specialize (Hx z Hz).
  apply byCategoryTitle_spec in Hx. exact Hx.
Qed.

End OnSchema.

(** *** On the sample store *)

Section OnSample.
Import Sample StoreSample.

Ltac by_computation := vm_compute; reflexivity.

(** The tests of the repository (test/database.test.ts). *)

Example test_insert_and_retrieve :
  option_map (fun d => (Standard.id d, Standard.title d, Standard.tags d))
    (valueOr (snd (getStandard "test-standard-1" (inserted [mockStandard]))) None)
  = Some ("test-standard-1", "Test API Standard", ["api"; "oauth"; "rest"]).
Proof. by_computation. Qed.

Example test_update_existing :
  option_map Standard.title
    (valueOr (snd (getStandard "test-standard-1"
                     (inserted [mockStandard; updatedStandard]))) None)
  = Some "Updated API Standard".
Proof. by_computation. Qed.

Example test_non_existent :
  snd (getStandard "non-existent-id" (start (emptyWorld None))) = Ok None.
Proof. by_computation. Qed.

(** An insert at 2026-11-02 09:22:44.883 UTC by a process whose zone is five
    hours behind UTC: the row holds the text 2026-11-02 09:22:44, and the
    document that is read back was created at 14:22:44.000 UTC. *)
Example test_created_at :
  let now := currentTimestamp 1793611364883%Z in
  option_map (fun d => (Standard.createdAt d, Standard.updatedAt d))
    (valueOr (snd (getStandard "test-standard-1"
                     (fst (insertStandard mockStandard
                             (start (atTime now (emptyWorld None))))))) None)
  = Some (1793629364000%Z, 1793629364000%Z).
Proof. by_computation. Qed.

Example test_categories_with_counts :
  snd (getCategories categoriesState)
  = Ok [Category.mk "APIs" 2; Category.mk "Security & Cyber Security" 1].
Proof. by_computation. Qed.



End OnSample.

End StoreProperties.

(** ** The compliance check of the server *)

Module ComplianceCheckProperties.
Import JS JSFacts SortFacts ContentProcessor DatabaseManager Schema Reads
  ComplianceCheck.

(** *** [findRelevantStandards] *)

Lemma collect_sound (d : string) (all : list Standard.t) (acc out : list Relevant.t) :
  collect d all acc = Ok out ->
  (forall x, In x out ->
     In x acc \/ (In (Relevant.standard x) all
                  /\ scoreOf d (Relevant.standard x) = Ok (Relevant.score x)
                  /\ 0 < Relevant.score x)) /\
  (forall s, In s all ->
     exists n, scoreOf d s = Ok n /\ (0 < n -> In (Relevant.mk s n) out)) /\
  (forall x, In x acc -> In x out) /\
  List.length out <= List.length acc + List.length all.
Proof.
  revert acc. induction all as [| s all IH]; intros acc; simpl.
  - intros Heq. injection Heq as <-.
    repeat split; try tauto; try lia; intros s [].
  - destruct (scoreOf d s) as [n | e] eqn:Hs; [| discriminate].
    intros Hrest. destruct (IH _ Hrest) as (Hout & Hall & Hacc & Hlen).
    assert (Hkeep : forall x, In x acc ->
              In x (if 0 <? n then (acc ++ [Relevant.mk s n])%list else acc)).
    { intros x Hx. destruct (0 <? n); [apply in_or_app; now left | exact Hx]. }
    repeat split.
    + intros x Hx. destruct (Hout x Hx) as [Hin | (Hin & Hscore & Hpos)].
      * destruct (0 <? n) eqn:Hn; [| now left].
        apply in_app_or in Hin. destruct Hin as [Hin | [<- | []]]; [now left |].
        right. simpl. apply Nat.ltb_lt in Hn. tauto.
      * right. tauto.
    + intros s' [<- | Hs'].
      * exists n. split; [exact Hs |]. intros Hpos. apply Hacc.
        apply Nat.ltb_lt in Hpos. rewrite Hpos. apply in_or_app. right. now left.
      * now apply Hall.
    + intros x Hx. apply Hacc. now apply Hkeep.
    + destruct (0 <? n); [rewrite length_app in Hlen; simpl in Hlen |]; lia.
Qed.

Lemma collect_throws (d : string) (all : list Standard.t) (acc : list Relevant.t) :
  (exists e, collect d all acc = Err e)
  <-> exists s e, In s all /\ scoreOf d s = Err e.
Proof.
  revert acc. induction all as [| s all IH]; intros acc; simpl.
  - split; [intros [e He]; discriminate | intros (s & e & [] & _)].
  - destruct (scoreOf d s) as [n | e] eqn:Hs.
    + rewrite IH. split.
      * intros (s' & e & Hin & He). exists s', e. tauto.
      * intros (s' & e & [<- | Hin] & He); [congruence |]. now exists s', e.
    + split; [| intros _; now exists e].
      intros _. exists s, e. tauto.
Qed.

Lemma scoreOf_throws (d : string) (s : Standard.t) :
  (exists e, scoreOf d s = Err e) <-> In (Standard.category s) inheritedKeys.
Proof.
  unfold scoreOf, isCategoryRelevant.
  destruct (lookup (Standard.category s) categoryMappings) as [keywords |] eqn:Hlook.
  - split; [intros [e He]; discriminate |].
    intros Hin. exfalso. revert Hlook.
    simpl in Hin.
    repeat (destruct Hin as [<- | Hin]; [discriminate |]). destruct Hin.
  - destruct (array_includes inheritedKeys (Standard.category s)) eqn:Hinc.
    + apply array_includes_In in Hinc. split; [tauto | intros _; eexists; reflexivity].
    + split; [intros [e He]; discriminate |].
      intros Hin. apply array_includes_In in Hin. congruence.
Qed.

Lemma byScore_total (x y : Relevant.t) : byScore x y = true \/ byScore y x = true.
Proof.
  unfold byScore. destruct (Nat.leb_spec (Relevant.score y) (Relevant.score x));
    [now left | right]. apply Nat.leb_le. lia.
Qed.

Lemma byScore_trans (x y z : Relevant.t) :
  byScore x y = true -> byScore y z = true -> byScore x z = true.
Proof. unfold byScore. rewrite !Nat.leb_le. lia. Qed.

(** The level of a standard alone gives it a positive score. *)
Lemma scoreOf_level (d : string) (s : Standard.t) (n : nat) :
  scoreOf d s = Ok n ->
  (Standard.complianceLevel s = Some mandatory -> 3 <= n) /\
  (Standard.complianceLevel s = Some recommended -> 1 <= n).
Proof.
  unfold scoreOf.
  destruct (isCategoryRelevant _ _) as [relevantCategory | e]; [| discriminate].
  intros Heq. injection Heq as <-.
  split; intros ->; destruct relevantCategory; lia.
Qed.

(** What is returned is taken from the corpus, fifteen at most. *)
Lemma relevant_sound (description : string) (all relevant : list Standard.t) :
  findRelevantStandards description all = Ok relevant ->
  List.length relevant <= 15 /\ forall s, In s relevant -> In s all.
Proof.
  unfold findRelevantStandards.
  destruct (collect (toLowerCase description) all []) as [found | e] eqn:Hcollect;
    [| discriminate].
  intros Heq. injection Heq as <-.
  rewrite slice0_firstn by discriminate. change (Z.to_nat 15) with 15.
  split; [rewrite length_map; apply firstn_le_length |].
  intros s Hs. apply in_map_iff in Hs. destruct Hs as [x [<- Hx]].
  apply firstn_In in Hx. apply (Permutation_in _ (sort_perm byScore found)) in Hx.
  destruct (collect_sound _ all [] found Hcollect) as (Hout & _).
  destruct (Hout x Hx) as [[] | (Hin & _)]. exact Hin.
Qed.

(** X20.  The standards that [findRelevantStandards] returns are standards
    of the corpus with a positive score, at most fifteen, the higher scores
    first.  A mandatory or a recommended standard has a positive score for
    every description, the empty one included, so that a corpus of at most
    fifteen standards gives back all of them. *)
Theorem findRelevantStandards_sound :
  forall (serviceDescription : string) (allStandards relevant : list Standard.t),
    findRelevantStandards serviceDescription allStandards = Ok relevant ->
    List.length relevant <= 15 /\
    (forall s, In s relevant ->
       In s allStandards /\ 0 < relevance serviceDescription s) /\
    StronglySorted
      (fun a b => relevance serviceDescription b <= relevance serviceDescription a)
      relevant /\
    (forall s, In s allStandards ->
       Standard.complianceLevel s = Some mandatory
       \/ Standard.complianceLevel s = Some recommended ->
       0 < relevance serviceDescription s) /\
    (List.length allStandards <= 15 ->
     forall s, In s allStandards -> 0 < relevance serviceDescription s ->
       In s relevant).
Proof.
  intros description all relevant. unfold findRelevantStandards, relevance.
  set (d := toLowerCase description).
  destruct (collect d all []) as [found | e] eqn:Hcollect; [| discriminate].
  intros Heq. injection Heq as <-.
  destruct (collect_sound d all [] found Hcollect) as (Hout & Hall & _ & Hlen).
  simpl in Hlen.
  pose proof (sort_perm byScore found) as Hperm.
  assert (Hscore : forall x, In x found ->
            valueOr (scoreOf d (Relevant.standard x)) 0 = Relevant.score x).
  { intros x Hx. destruct (Hout x Hx) as [[] | (_ & -> & _)]. reflexivity. }
  rewrite slice0_firstn by discriminate. change (Z.to_nat 15) with 15.
  split; [| split; [| split; [| split]]].
  - rewrite length_map. apply firstn_le_length.
  - intros s Hs. apply in_map_iff in Hs. destruct Hs as [x [<- Hx]].
    apply firstn_In in Hx. apply (Permutation_in _ Hperm) in Hx.
    rewrite (Hscore x Hx). destruct (Hout x Hx) as [[] | (Hin & _ & Hpos)]. tauto.
  - apply (StronglySorted_weaken
             (fun a b => valueOr (scoreOf d a) 0 = valueOr (scoreOf d a) 0
                         /\ valueOr (scoreOf d b) 0 <= valueOr (scoreOf d a) 0));
      [tauto |].
    assert (Hsorted : StronglySorted (fun a b => byScore a b = true)
                        (firstn 15 (JS.sort byScore found)))
      by (apply StronglySorted_firstn, sort_strongly_sorted;
          [apply byScore_total | apply byScore_trans]).
    assert (Hin : forall x, In x (firstn 15 (JS.sort byScore found)) -> In x found).
    { intros x Hx. apply firstn_In in Hx. now apply (Permutation_in _ Hperm). }
    revert Hsorted Hin. generalize (firstn 15 (JS.sort byScore found)).
    intros l Hsorted. induction Hsorted as [| x l Hl IH Hx]; intros Hin; simpl;
      [constructor |].
    constructor; [apply IH; intros y Hy; apply Hin; now right |].
    rewrite Forall_forall in *. intros s Hs. apply in_map_iff in Hs.
    destruct Hs as [y [<- Hy]]. split; [reflexivity |].
    rewrite (Hscore x) by (apply Hin; now left).
    rewrite (Hscore y) by (apply Hin; now right).
    specialize (Hx y Hy). unfold byScore in Hx. now apply Nat.leb_le.
  - intros s Hs Hlevel. destruct (Hall s Hs) as (n & Hn & _). rewrite Hn. simpl.
    destruct (scoreOf_level d s n Hn) as [Hm Hr].
    destruct Hlevel as [Hlevel | Hlevel]; [specialize (Hm Hlevel) | specialize (Hr Hlevel)];
      lia.
  - intros Hsmall s Hs Hpos. destruct (Hall s Hs) as (n & Hn & Hfound).
    rewrite Hn in Hpos. simpl in Hpos.
    rewrite firstn_all2 by (rewrite (Permutation_length Hperm); lia).
    apply in_map_iff. exists (Relevant.mk s n). split; [reflexivity |].
    apply (Permutation_in _ (Permutation_sym Hperm)). now apply Hfound.
Qed.

(** X21.  [findRelevantStandards] throws exactly when a standard of the
    corpus has for its category a name that every object inherits, such as
    "constructor" or "toString": the lookup in the category map then finds a
    value that is no array.  On every other corpus it returns. *)
Theorem findRelevantStandards_throws_on_inherited_names :
  forall (serviceDescription : string) (allStandards : list Standard.t),
    (exists e, findRelevantStandards serviceDescription allStandards = Err e)
    <-> exists s, In s allStandards /\ In (Standard.category s) inheritedKeys.
Proof.
  intros description all. unfold findRelevantStandards.
  set (d := toLowerCase description).
  assert (Hthrows : (exists e, collect d all [] = Err e)
                    <-> exists s, In s all /\ In (Standard.category s) inheritedKeys).
  { rewrite collect_throws. split.
    - intros (s & e & Hin & He). exists s. split; [exact Hin |].
      apply (scoreOf_throws d). now exists e.
    - intros (s & Hin & Hkey). apply (scoreOf_throws d) in Hkey.
      destruct Hkey as [e He]. now exists s, e. }
  rewrite <- Hthrows.
  destruct (collect d all []) as [found | e].
  - split; intros [e He]; discriminate.
  - split; intros _; now exists e.
Qed.

(** *** [extractRequirements] *)

Lemma split_aux_pieces (sep : ascii -> bool) (s : string) :
  forall (in_run : bool) (piece : string),
    piece = fst (split_aux sep s in_run) \/ In piece (snd (split_aux sep s in_run)) ->
    forall c, In c (list_ascii_of_string piece) -> sep c = false.
Proof.
  induction s as [| a s IH]; intros in_run piece; simpl.
  - intros [Heq | []] c Hc. subst. destruct Hc.
  - destruct (sep a) eqn:Ha.
    + destruct in_run.
      * apply IH.
      * pose proof (IH true) as IHt.
        destruct (split_aux sep s true) as [t ts]. simpl in *.
        intros [Heq | [Heq | Hin]] c Hc.
        -- subst. destruct Hc.
        -- subst. apply (IHt piece); [now left | exact Hc].
        -- apply (IHt piece); [now right | exact Hc].
    + pose proof (IH false) as IHf.
      destruct (split_aux sep s false) as [t ts]. simpl in *.
      intros [Heq | Hin] c Hc.
      * subst. simpl in Hc. destruct Hc as [<- | Hc]; [exact Ha |].
        apply (IHf t); [now left | exact Hc].
      * apply (IHf piece); [now right | exact Hc].
Qed.

Lemma split_runs_pieces (sep : ascii -> bool) (s piece : string) (c : ascii) :
  In piece (split_runs sep s) -> In c (list_ascii_of_string piece) -> sep c = false.
Proof.
  unfold split_runs. intros Hin.
  apply (split_aux_pieces sep s false piece).
  destruct (split_aux sep s false) as [t ts]. simpl in *.
  destruct Hin as [Heq | Hin]; [now left | now right].
Qed.

Lemma chars_trimStart (s : string) (c : ascii) :
  In c (list_ascii_of_string (trimStart s)) -> In c (list_ascii_of_string s).
Proof.
  induction s as [| a s IH]; simpl; [tauto |].
  destruct (is_space a); simpl; [intros H; right; now apply IH | tauto].
Qed.

Lemma chars_trimEnd (s : string) (c : ascii) :
  In c (list_ascii_of_string (trimEnd s)) -> In c (list_ascii_of_string s).
Proof.
  induction s as [| a s IH]; simpl; [tauto |].
  destruct (trimEnd s) as [| b t].
  - destruct (is_space a); simpl; tauto.
  - simpl in *. tauto.
Qed.

Lemma chars_trim (s : string) (c : ascii) :
  In c (list_ascii_of_string (trim s)) -> In c (list_ascii_of_string s).
Proof. intros H. now apply chars_trimStart, chars_trimEnd. Qed.

Lemma requirements_fold (sentences : list string) (acc : list string) (r : string) :
  In r (fold_left
          (fun requirements sentence =>
             if isRequirement (trim (toLowerCase sentence))
             then (requirements ++ [trim sentence])%list
             else requirements)
          sentences acc)
  <-> In r acc
      \/ exists sentence,
           In sentence sentences
           /\ isRequirement (trim (toLowerCase sentence)) = true
           /\ r = trim sentence.
Proof.
  revert acc. induction sentences as [| s l IH]; intros acc; simpl.
  - split; [tauto | intros [H | (x & [] & _)]; exact H].
  - rewrite IH. destruct (isRequirement (trim (toLowerCase s))) eqn:Hs.
    + rewrite in_app_iff. simpl. split.
      * intros [[H | [<- | []]] | (x & Hx & Hreq & ->)]; [now left | right | right].
        -- exists s. tauto.
        -- exists x. tauto.
      * intros [H | (x & [<- | Hx] & Hreq & ->)]; [tauto | tauto |].
        right. exists x. tauto.
    + split.
      * intros [H | (x & Hx & Hreq & ->)]; [now left | right]. exists x. tauto.
      * intros [H | (x & [<- | Hx] & Hreq & ->)]; [now left | congruence |].
        right. exists x. tauto.
Qed.

Lemma extractRequirements_bound (standard : Standard.t) :
  List.length (extractRequirements standard) <= 5.
Proof.
  unfold extractRequirements.
  rewrite slice0_firstn by discriminate. change (Z.to_nat 5) with 5.
  apply firstn_le_length.
Qed.

(** X22.  [extractRequirements] gives at most five requirements.  Each is
    a sentence of the content, cut at full stops, exclamation and question
    marks and trimmed, of more than twenty characters, that holds "must ",
    "shall ", "required" or "should " when put in lower case; it holds none
    of the three marks. *)
Theorem extractRequirements_sound :
  forall standard : Standard.t,
    List.length (extractRequirements standard) <= 5 /\
    forall requirement,
      In requirement (extractRequirements standard) ->
      20 < String.length requirement /\
      (exists sentence,
         In sentence (split_runs is_terminator (Standard.content standard)) /\
         requirement = trim sentence /\
         isRequirement (trim (toLowerCase sentence)) = true) /\
      forall c, In c (list_ascii_of_string requirement) -> is_terminator c = false.
Proof.
  intros standard. unfold extractRequirements.
  rewrite slice0_firstn by discriminate. change (Z.to_nat 5) with 5.
  split; [apply firstn_le_length |].
  intros r Hr. apply firstn_In in Hr. apply requirements_fold in Hr.
  destruct Hr as [[] | (sentence & Hin & Hreq & ->)].
  apply filter_In in Hin. destruct Hin as [Hin Hlen].
  split; [now apply Nat.ltb_lt |]. split; [exists sentence; tauto |].
  intros c Hc. apply chars_trim in Hc.
  now apply (split_runs_pieces is_terminator (Standard.content standard) sentence).
Qed.

(** *** [generateComplianceCheck] *)

Lemma checklistOf_spec (relevant : list Standard.t) :
  List.length (checklistOf relevant) <= 5 * List.length relevant /\
  forall item, In item (checklistOf relevant) ->
    exists standard,
      In standard relevant /\
      Item.standard item = Standard.title standard /\
      In (Item.requirement item) (extractRequirements standard).
Proof.
  unfold checklistOf. split.
  - induction relevant as [| s l IH]; [simpl; lia |].
    cbn [flat_map]. rewrite length_app, length_map. cbn [List.length].
    pose proof (extractRequirements_bound s). lia.
  - intros item Hitem. apply in_flat_map in Hitem.
    destruct Hitem as [s [Hs Hitem]]. apply in_map_iff in Hitem.
    destruct Hitem as [r [<- Hr]]. exists s. simpl. tauto.
Qed.

Section OnSchema.
Context {F V : Type} {index : Fts5 F} {collection : VectorStore V}
  {runtime : Platform}.

(** X23.  A compliance check that resolves leaves the store as it is and
    reports at most fifteen standards, all of them documents of rows of the
    table, and at most five checklist items for each of them; every item
    names the title of one of these standards and one of its requirements. *)
Theorem generateComplianceCheck_sound :
  forall (serviceDescription : string) (s s' : @State (World F V)) (check : Report.t),
    generateComplianceCheck serviceDescription s = (s', Ok check) ->
    s' = s /\
    Report.serviceDescription check = serviceDescription /\
    List.length (Report.relevantStandards check) <= 15 /\
    (forall d, In d (Report.relevantStandards check) ->
       exists r, In r (standards (database (world s))) /\ d = rowToStandard r) /\
    List.length (Report.complianceChecklist check)
    <= 5 * List.length (Report.relevantStandards check) /\
    (forall item, In item (Report.complianceChecklist check) ->
       exists d,
         In d (Report.relevantStandards check) /\
         Item.standard item = Standard.title d /\
         In (Item.requirement item) (extractRequirements d)).
Proof.
  intros description [w log] s' check.
  unfold generateComplianceCheck, bind, lift, ret.
  rewrite StoreProperties.getAllStandards_schema.
  destruct (findRelevantStandards description _) as [relevant | e] eqn:Hfind;
    [| discriminate].
  intros Heq. injection Heq as <- <-. simpl.
  destruct (relevant_sound description _ relevant Hfind) as (Hlen & Hin).
  destruct (checklistOf_spec relevant) as [Hcount Hitems].
  repeat split; try assumption.
  intros d Hd. apply Hin in Hd. apply in_map_iff in Hd.
  destruct Hd as [r [<- Hr]]. exists r. split; [| reflexivity].
  unfold selectAll in Hr.
  now apply (Permutation_in _ (sort_perm byCategoryTitle _)) in Hr.
Qed.

End OnSchema.

(** *** On the standards of the tests of the server *)

Section OnSample.
Import Sample ServerSample.

Ltac by_computation := vm_compute; reflexivity.

(** The tests of the helper functions (test/mcp-server.test.ts). *)

Example test_service_keywords :
  extractServiceKeywords
    (toLowerCase "A REST API service for citizen data with OAuth authentication")
  = ["rest"; "api"; "service"; "citizen"; "data"; "with"; "oauth"; "authentication"].
Proof. by_computation. Qed.

Example test_category_relevant :
  isCategoryRelevant "APIs" "rest api with oauth authentication" = Ok true.
Proof. by_computation. Qed.

Example test_relevant_by_keywords :
  match findRelevantStandards "API service with OAuth security" mockStandards with
  | Ok relevant => map Standard.id relevant
  | Err _ => []
  end
  = ["api-security-1"; "wcag-accessibility-1"].
Proof. by_computation. Qed.

(** The empty description: both standards are mandatory, both are returned. *)
Lemma findRelevantStandards_sound_witness :
  exists relevant,
    findRelevantStandards EmptyString mockStandards = Ok relevant /\
    List.length relevant = 2 /\
    forall s, In s relevant -> In s mockStandards /\ 0 < relevance EmptyString s.
Proof.
  assert (E : exists relevant,
            findRelevantStandards EmptyString mockStandards = Ok relevant /\
            List.length relevant = 2)
    by (eexists; split; vm_compute; reflexivity).
  destruct E as (relevant & E & Hlen). exists relevant.
  split; [exact E |]. split; [exact Hlen |].
  exact (proj1 (proj2 (findRelevantStandards_sound _ _ _ E))).
Defined.

(** The check of the test "should generate compliance checklist items", on a
    store that holds the two standards. *)
Lemma generateComplianceCheck_sound_witness :
  exists s' check,
    generateComplianceCheck "Government API with security requirements" mockState
    = (s', Ok check) /\
    map Standard.id (Report.relevantStandards check)
    = ["api-security-1"; "wcag-accessibility-1"] /\
    map Item.requirement (Report.complianceChecklist check)
    = ["APIs must implement HTTPS encryption and should use proper authentication mechanisms";
       "Services must provide alternative text for images"] /\
    List.length (Report.complianceChecklist check)
    <= 5 * List.length (Report.relevantStandards check).
Proof.
  assert (E : exists s' check,
            generateComplianceCheck "Government API with security requirements"
              mockState = (s', Ok check) /\
            map Standard.id (Report.relevantStandards check)
            = ["api-security-1"; "wcag-accessibility-1"] /\
            map Item.requirement (Report.complianceChecklist check)
            = ["APIs must implement HTTPS encryption and should use proper authentication mechanisms";
               "Services must provide alternative text for images"])
    by (eexists; eexists; split; [| split]; vm_compute; reflexivity).
  destruct E as (s' & check & E & Hids & Hrequirements). exists s', check.
  split; [exact E |]. split; [exact Hids |]. split; [exact Hrequirements |].
  exact (proj1 (proj2 (proj2 (proj2 (proj2
           (generateComplianceCheck_sound _ _ _ _ E)))))).
Defined.

End OnSample.

End ComplianceCheckProperties.

(** ** The update script: what counts as a change *)

Module UpdateProperties.
Import JS JSFacts SortFacts ContentProcessor DatabaseManager Reads UpdateScript.

Lemma leb_antisym (a b : string) :
  String.leb a b = true -> String.leb b a = true -> a = b.
Proof.
  rewrite !SchemaFacts.leb_lt_eq. intros [-> | Hab] [Heq | Hba]; auto.
  exfalso. apply (OrderedTypeEx.String_as_OT.lt_not_eq _ _ Hab).
  pose proof (OrderedTypeEx.String_as_OT.lt_trans _ _ _ Hab Hba) as Haa.
  exfalso. now apply (OrderedTypeEx.String_as_OT.lt_not_eq _ _ Haa).
Qed.

(** Two sorted arrangements of the same strings are the same list. *)
Lemma sorted_unique (l l' : list string) :
  StronglySorted (fun a b => String.leb a b = true) l ->
  StronglySorted (fun a b => String.leb a b = true) l' ->
  Permutation l l' -> l = l'.
Proof.
  intros Hl. revert l'. induction Hl as [| x l Hs IH Hx]; intros l' Hl' Hperm.
  - apply Permutation_nil in Hperm. now subst.
  - destruct Hl' as [| y l' Hs' Hy].
    + apply Permutation_sym, Permutation_nil in Hperm. discriminate.
    + assert (Hxy : x = y).
      { rewrite Forall_forall in Hx, Hy.
        assert (Hx_in : In x (y :: l'))
          by (apply (Permutation_in _ Hperm); now left).
        assert (Hy_in : In y (x :: l))
          by (apply (Permutation_in _ (Permutation_sym Hperm)); now left).
        destruct Hx_in as [-> | Hx_in]; [reflexivity |].
        destruct Hy_in as [-> | Hy_in]; [reflexivity |].
        apply leb_antisym; [now apply Hx | now apply Hy]. }
      subst y. f_equal. apply IH; [exact Hs' |].
      now apply Permutation_cons_inv in Hperm.
Qed.

Lemma sortTags_permutation (l l' : list string) :
  Permutation l l' -> sortTags l = sortTags l'.
Proof.
  intros Hperm. unfold sortTags. apply sorted_unique.
  - apply sort_strongly_sorted; [apply String.leb_total | apply SchemaFacts.leb_trans].
  - apply sort_strongly_sorted; [apply String.leb_total | apply SchemaFacts.leb_trans].
  - rewrite (sort_perm String.leb l), (sort_perm String.leb l'). exact Hperm.
Qed.

Lemma hasContentChanged_false (existing updated : Standard.t) :
  fst (hasContentChanged existing updated) = false <->
  Standard.title existing = Standard.title updated /\
  Standard.content existing = Standard.content updated /\
  Standard.category existing = Standard.category updated /\
  JSON_stringify (sortTags (Standard.tags existing))
  = JSON_stringify (sortTags (Standard.tags updated)).
Proof.
  unfold hasContentChanged.
  destruct (String.eqb_spec (Standard.title existing) (Standard.title updated));
    cbn [negb fst]; [| split; [discriminate | tauto]].
  destruct (String.eqb_spec (Standard.content existing) (Standard.content updated));
    cbn [negb fst]; [| split; [discriminate | tauto]].
  destruct (String.eqb_spec (Standard.category existing) (Standard.category updated));
    cbn [negb fst]; [| split; [discriminate | tauto]].
  destruct (String.eqb_spec (JSON_stringify (sortTags (Standard.tags existing)))
              (JSON_stringify (sortTags (Standard.tags updated))));
    cbn [negb fst]; [tauto | split; [discriminate | tauto]].
Qed.

(** X24.  A page that is scraped again counts as changed exactly when its
    title, its content or its category differs from the page that the stored
    standard was made of: another organisation, date of modification or list
    of links alone is not a change.  For any two standards the order of the
    tags plays no part, and the call leaves the tags of both sorted when the
    three texts agree. *)
Theorem change_is_title_content_or_category {runtime : Platform} :
  forall (c1 u1 c2 u2 now : Date) (page page' : ScrapedPage.t) (d d' : Standard.t),
    processScrapedPage c1 u1 page = Ok d ->
    processScrapedPage c2 u2 page' = Ok d' ->
    (fst (hasContentChanged (stored d now) d') = false <->
     ScrapedPage.title page = ScrapedPage.title page' /\
     ScrapedPage.content page = ScrapedPage.content page' /\
     ScrapedPage.category page = ScrapedPage.category page') /\
    (forall existing updated : Standard.t,
       Standard.title existing = Standard.title updated ->
       Standard.content existing = Standard.content updated ->
       Standard.category existing = Standard.category updated ->
       (Permutation (Standard.tags existing) (Standard.tags updated) ->
        fst (hasContentChanged existing updated) = false) /\
       snd (hasContentChanged existing updated)
       = (withTags existing (sortTags (Standard.tags existing)),
          withTags updated (sortTags (Standard.tags updated)))).
Proof.
  intros c1 u1 c2 u2 now page page' d d'. unfold processScrapedPage.
  destruct (generateStandardId (ScrapedPage.url page)); [| discriminate].
  destruct (generateStandardId (ScrapedPage.url page')); [| discriminate].
  intros Hd Hd'. injection Hd as <-. injection Hd' as <-. split.
  - rewrite hasContentChanged_false. simpl. split; [tauto |].
    intros (Ht & Hc & Hcat). rewrite Ht, Hc. tauto.
  - intros existing updated Ht Hc Hcat. split.
    + intros Hperm. apply hasContentChanged_false.
      rewrite (sortTags_permutation _ _ Hperm). tauto.
    + unfold hasContentChanged. rewrite Ht, Hc, Hcat, !String.eqb_refl. reflexivity.
Qed.

(** The page of the classifier tests comes back from another organisation. *)
Lemma change_is_title_content_or_category_witness :
  exists d d',
    processScrapedPage (runtime := Sample.platform) 0%Z 0%Z Sample.mockScrapedPage
    = Ok d /\
    processScrapedPage (runtime := Sample.platform) 9%Z 9%Z
      (ScrapedPage.mk (ScrapedPage.url Sample.mockScrapedPage)
         (ScrapedPage.title Sample.mockScrapedPage)
         (ScrapedPage.content Sample.mockScrapedPage)
         (Some 8%Z)
         (ScrapedPage.category Sample.mockScrapedPage)
         (Some "Cabinet Office") ["https://www.gov.uk/"])
    = Ok d' /\
    Standard.sourceOrg d <> Standard.sourceOrg d' /\
    fst (hasContentChanged (stored (runtime := Sample.platform) d 5%Z) d') = false.
Proof.
  assert (E : exists d,
            processScrapedPage (runtime := Sample.platform) 0%Z 0%Z
              Sample.mockScrapedPage = Ok d
            /\ Standard.sourceOrg d = Some "GDS")
    by (eexists; split; vm_compute; reflexivity).
  assert (E' : exists d',
            processScrapedPage (runtime := Sample.platform) 9%Z 9%Z
              (ScrapedPage.mk (ScrapedPage.url Sample.mockScrapedPage)
                 (ScrapedPage.title Sample.mockScrapedPage)
                 (ScrapedPage.content Sample.mockScrapedPage)
                 (Some 8%Z)
                 (ScrapedPage.category Sample.mockScrapedPage)
                 (Some "Cabinet Office") ["https://www.gov.uk/"]) = Ok d'
            /\ Standard.sourceOrg d' = Some "Cabinet Office")
    by (eexists; split; vm_compute; reflexivity).
  destruct E as (d & E & Horg). destruct E' as (d' & E' & Horg').
  exists d, d'. split; [exact E |]. split; [exact E' |].
  split; [rewrite Horg, Horg'; discriminate |].
  apply (proj1 (change_is_title_content_or_category (runtime := Sample.platform)
                  0%Z 0%Z 9%Z 9%Z 5%Z _ _ d d' E E')).
  repeat split.
Defined.

End UpdateProperties.

(** ** The vector storage service *)

Module VectorStorageProperties.
Import JS JSFacts DatabaseManager EmbeddingService VectorStorageService.

(** *** [truncateContent] *)

Lemma substring0_substring0 (n m : nat) (s : string) :
  n <= m -> substring0 n (substring0 m s) = substring0 n s.
Proof.
  unfold substring0. revert m s. induction n as [| n IH]; intros m s Hle.
  - destruct (String.substring 0 m s), s; reflexivity.
  - destruct m as [| m]; [lia |]. destruct s as [| c s]; simpl; [reflexivity |].
    f_equal. apply IH. lia.
Qed.

Lemma lastIndexFrom_bound (c : ascii) (s : string) (index : nat) (found : Z) :
  (found < Z.of_nat index)%Z ->
  (lastIndexFrom c s index found < Z.of_nat (index + String.length s))%Z.
Proof.
  revert index found. induction s as [| a s IH]; intros index found Hfound; simpl.
  - lia.
  - replace (index + S (String.length s)) with (S index + String.length s) by lia.
    apply IH. destruct (Ascii.eqb a c); lia.
Qed.

(** X25.  [truncateContent] returns a content of at most [maxLength]
    characters as it is.  A longer content is cut to a beginning of at most
    [maxLength] characters, or to its first [maxLength] characters followed
    by an ellipsis: in that case the result has [maxLength + 3] characters,
    more than the limit. *)
Theorem truncateContent_shape :
  forall (content : string) (maxLength : nat),
    (String.length content <= maxLength ->
     truncateContent content maxLength = content) /\
    String.length (truncateContent content maxLength) <= maxLength + 3 /\
    (maxLength < String.length content ->
     (exists k, k <= maxLength /\
                truncateContent content maxLength = substring0 k content)
     \/ (truncateContent content maxLength = substring0 maxLength content ++ "..."
         /\ String.length (truncateContent content maxLength) = maxLength + 3)).
Proof.
  intros content maxLength. unfold truncateContent.
  destruct (Nat.leb_spec (String.length content) maxLength) as [Hshort | Hlong].
  - split; [reflexivity |]. split; [lia | lia].
  - split; [lia |].
    set (truncated := substring0 maxLength content).
    set (lastSentence := Z.max _ _).
    assert (Hlast : (lastSentence < Z.of_nat maxLength)%Z).
    { assert (Hlen : String.length truncated = maxLength)
        by (unfold truncated; rewrite length_substring0; lia).
      assert (Hbound : forall c, (lastIndexOf c truncated < Z.of_nat maxLength)%Z).
      { intros c. unfold lastIndexOf.
        pose proof (lastIndexFrom_bound c truncated 0 (-1)%Z) as H.
        rewrite Hlen in H. simpl in H. apply H. lia. }
      unfold lastSentence.
      pose proof (Hbound "."%char). pose proof (Hbound "!"%char).
      pose proof (Hbound "?"%char). lia. }
    destruct (negb (Qle_bool _ _)).
    + assert (Hk : Z.to_nat (lastSentence + 1) <= maxLength) by lia.
      unfold truncated. rewrite substring0_substring0 by exact Hk.
      split.
      * rewrite length_substring0. lia.
      * intros _. left. exists (Z.to_nat (lastSentence + 1)). tauto.
    + assert (Hlen : String.length (truncated ++ "...") = maxLength + 3).
      { rewrite length_append. unfold truncated. rewrite length_substring0.
        simpl. lia. }
      split; [lia |]. intros _. right. tauto.
Qed.

(** *** [semanticSearch] *)

Section Service.
Context {C : Type} {client : Chroma C}.

Lemma processFrom_sound (threshold : Q) (ids : list string)
  (distances : list (list (option Q)))
  (metadatas : list (list (option Metadata.t)))
  (documents : list (list (option string))) :
  forall (i : nat) (acc out : list VectorResult.t),
    processFrom threshold ids i distances metadatas documents acc = Ok out ->
    List.length out <= List.length acc + List.length ids /\
    (Qeq_bool threshold 0 = true ->
     map VectorResult.id out = (map VectorResult.id acc ++ ids)%list) /\
    forall r, In r out ->
      In r acc
      \/ (exists k distance,
            nth_error ids k = Some (VectorResult.id r) /\
            entry distances (i + k) = Ok distance /\
            VectorResult.score r
            = (1 - match distance with Some d => d | None => 0 end)%Q /\
            (Qeq_bool threshold 0 = false ->
             (threshold <= VectorResult.score r)%Q)).
Proof.
  induction ids as [| id rest IH]; intros i acc out; simpl.
  - intros Heq. injection Heq as <-. split; [lia |]. split.
    + intros _. now rewrite app_nil_r.
    + intros r Hr. now left.
  - destruct (entry distances i) as [distance | e] eqn:Hdist; [| discriminate].
    set (score := (1 - match distance with Some d => d | None => 0 end)%Q).
    destruct (Qeq_bool threshold 0) eqn:Hzero; simpl.
    + destruct (entry metadatas i) as [metadata | e]; [| discriminate].
      destruct (entry documents i) as [document | e]; [| discriminate].
      intros Hrest. destruct (IH _ _ _ Hrest) as (Hlen & Hids & Hin).
      rewrite length_app in Hlen. simpl in Hlen. split; [lia |]. split.
      * intros _. rewrite (Hids eq_refl), map_app, <- app_assoc. reflexivity.
      * intros r Hr. destruct (Hin r Hr) as [Hacc | (k & dist & Hk & Hd & Hs & Ht)].
        -- apply in_app_or in Hacc. destruct Hacc as [Hacc | [<- | []]]; [now left |].
           right. exists 0, distance. simpl. rewrite Nat.add_0_r.
           repeat split; try assumption. discriminate.
        -- right. exists (S k), dist. simpl.
           replace (i + S k) with (S i + k) by lia. tauto.
    + destruct (Qle_bool threshold score) eqn:Hle; simpl.
      * destruct (entry metadatas i) as [metadata | e]; [| discriminate].
        destruct (entry documents i) as [document | e]; [| discriminate].
        intros Hrest. destruct (IH _ _ _ Hrest) as (Hlen & Hids & Hin).
        rewrite length_app in Hlen. simpl in Hlen. split; [lia |].
        split; [discriminate |].
        intros r Hr. destruct (Hin r Hr) as [Hacc | (k & dist & Hk & Hd & Hs & Ht)].
        -- apply in_app_or in Hacc. destruct Hacc as [Hacc | [<- | []]]; [now left |].
           right. exists 0, distance. simpl. rewrite Nat.add_0_r.
           repeat split; try assumption. intros _. now apply Qle_bool_iff.
        -- right. exists (S k), dist. simpl.
           replace (i + S k) with (S i + k) by lia. tauto.
      * intros Hrest. destruct (IH _ _ _ Hrest) as (Hlen & Hids & Hin).
        split; [lia |]. split; [discriminate |].
        intros r Hr. destruct (Hin r Hr) as [Hacc | (k & dist & Hk & Hd & Hs & Ht)];
          [now left |].
        right. exists (S k), dist. simpl.
        replace (i + S k) with (S i + k) by lia. tauto.
Qed.

(** X26.  A semantic search that resolves has initialised the service and
    has asked the collection for [limit] records, for ten when the limit is
    zero, under the filters that are set.  Its results are records of the
    first list of ids of the answer, in the order of that list and no more
    than it has: the score of a record is one minus its distance, and one
    when the answer has no distance for it.  A threshold other than zero is a
    lower bound of the scores; the threshold zero filters nothing. *)
Theorem semanticSearch_scores :
  forall (query : string) (options : SemanticOptions.t)
         (service service' : Service C) (results : list VectorResult.t),
    semanticSearch query options service = (service', Ok results) ->
    let threshold := SemanticOptions.threshold options in
    let nResults :=
      if (SemanticOptions.limit options =? 0)%Z then 10%Z
      else SemanticOptions.limit options in
    isInitialized service' = true /\
    (Qeq_bool threshold 0 = false ->
     forall r, In r results -> (threshold <= VectorResult.score r)%Q) /\
    exists (service1 : Service C) (response : QueryResponse.t),
      ensureInitialized service = (service1, Ok tt) /\
      chroma_query query nResults (whereOf options) (chroma service1)
      = (chroma service', Ok response) /\
      processResults threshold response = Ok results /\
      forall (ids : list string) (distances : list (list (option Q))),
        option_map (@hd_error _) (QueryResponse.ids response) = Some (Some ids) ->
        QueryResponse.distances response = Some distances ->
        List.length results <= List.length ids /\
        (Qeq_bool threshold 0 = true -> results <> [] ->
         map VectorResult.id results = ids) /\
        forall r, In r results ->
          exists k distance,
            nth_error ids k = Some (VectorResult.id r) /\
            entry distances k = Ok distance /\
            VectorResult.score r
            = (1 - match distance with Some d => d | None => 0 end)%Q.
Proof.
  intros query options service service' results Hsearch threshold nResults.
  unfold semanticSearch in Hsearch. fold threshold nResults in Hsearch.
  assert (Hinit : forall s1 r, ensureInitialized service = (s1, Ok r) ->
                    isInitialized s1 = true).
  { unfold ensureInitialized, initialize. intros s1 r.
    destruct (isInitialized service) eqn:Hi; simpl.
    - intros Heq. injection Heq as <- _. exact Hi.
    - destruct (chroma_connect (chroma service)) as [c [[] | e]]; [| discriminate].
      intros Heq. injection Heq as <- _. reflexivity. }
  destruct (ensureInitialized service) as [service1 [[] | e]] eqn:Hensure;
    [| discriminate].
  specialize (Hinit service1 tt eq_refl).
  destruct (chroma_query query nResults (whereOf options) (chroma service1))
    as [c [response | e]] eqn:Hquery; [| discriminate].
  injection Hsearch as <- Hprocess.
  split; [exact Hinit |].
  assert (Hsound :
    (Qeq_bool threshold 0 = false ->
     forall r, In r results -> (threshold <= VectorResult.score r)%Q) /\
    forall (ids : list string) (distances : list (list (option Q))),
      option_map (@hd_error _) (QueryResponse.ids response) = Some (Some ids) ->
      QueryResponse.distances response = Some distances ->
      List.length results <= List.length ids /\
      (Qeq_bool threshold 0 = true -> results <> [] ->
       map VectorResult.id results = ids) /\
      forall r, In r results ->
        exists k distance,
          nth_error ids k = Some (VectorResult.id r) /\
          entry distances k = Ok distance /\
          VectorResult.score r
          = (1 - match distance with Some d => d | None => 0 end)%Q).
  { pose proof Hprocess as Hp. unfold processResults in Hp.
    assert (Hempty : Ok (@nil VectorResult.t) = Ok results ->
              (Qeq_bool threshold 0 = false ->
               forall r, In r results -> (threshold <= VectorResult.score r)%Q) /\
              forall (ids : list string) (distances : list (list (option Q))),
                option_map (@hd_error _) (QueryResponse.ids response) = Some (Some ids) ->
                QueryResponse.distances response = Some distances ->
                List.length results <= List.length ids /\
                (Qeq_bool threshold 0 = true -> results <> [] ->
                 map VectorResult.id results = ids) /\
                forall r, In r results ->
                  exists k distance,
                    nth_error ids k = Some (VectorResult.id r) /\
                    entry distances k = Ok distance /\
                    VectorResult.score r
                    = (1 - match distance with Some d => d | None => 0 end)%Q).
    { intros Heq. injection Heq as <-. split; [intros _ r [] |].
      intros ids distances _ _. split; [simpl; lia |].
      split; [intros _ Hne; now contradiction Hne | intros r []]. }
    destruct (QueryResponse.ids response) as [idLists |]; [| now apply Hempty].
    destruct (QueryResponse.distances response) as [distances |];
      [| now apply Hempty].
    destruct (QueryResponse.metadatas response) as [metadatas |];
      [| now apply Hempty].
    destruct (QueryResponse.documents response) as [documents |];
      [| now apply Hempty].
    destruct (hd_error idLists) as [first |] eqn:Hfirst; [| discriminate].
    destruct (processFrom_sound threshold first distances metadatas documents 0 []
                results Hp) as (Hlen & Hall & Hin).
    split.
    - intros Hthreshold r Hr. destruct (Hin r Hr) as [[] | (k & d & _ & _ & _ & Hle)].
      now apply Hle.
    - intros ids distances' Hids Hdistances. simpl in Hids.
      assert (Hsame : ids = first) by congruence.
      assert (Hsame' : distances' = distances) by congruence.
      subst ids distances'.
      split; [simpl in Hlen; lia |]. split.
      + intros Hzero _. now apply Hall.
      + intros r Hr. destruct (Hin r Hr) as [[] | (k & d & Hk & Hd & Hs & _)].
        exists k, d. tauto. }
  split; [exact (proj1 Hsound) |].
  exists service1, response. simpl.
  split; [reflexivity |]. split; [exact Hquery |]. split; [exact Hprocess |].
  exact (proj2 Hsound).
Qed.

End Service.

(** *** What a result of the semantic search alone shows *)

(** X27.  For a standard that [addStandard] has written, the document that
    [hybridSearch] makes of the semantic record alone has the id, title,
    category, URL, tags, level and organisation of the standard, but not its
    content: the content is the beginning of the embedded text, which starts
    with the title, followed by an ellipsis; the summary and the related
    standards are gone, and the time of the update is the time of
    creation. *)
Theorem semantic_only_document {runtime : Platform} :
  forall (standard : Standard.t) (score : Q),
    JSON_parse (JSON_stringify (Standard.tags standard)) = Ok (Standard.tags standard) ->
    standardOfVector (recordOf standard score) = Ok (reconstructed standard).
Proof.
  intros standard score Hparse. unfold standardOfVector, recordOf, reconstructed.
  simpl. rewrite Hparse.
  destruct (Standard.sourceOrg standard) as [o |]; reflexivity.
Qed.

(** *** The manager in front of a service that cannot be reached *)

Section Offline.
Context {F C : Type} {index : Schema.Fts5 F} {client : Chroma C}
  {runtime : Platform}.




End Offline.

Section OnSample.
Import Sample.

Ltac by_computation := vm_compute; reflexivity.

(** Three records and the threshold 0.3: the record at the distance 0.9 is
    left out, the record without a distance has the score 1. *)
Lemma semanticSearch_scores_witness :
  exists results,
    snd (semanticSearch "security"
           (SemanticOptions.mk 20 None None (3 # 10))
           (mkService false threeRecords))
    = Ok results /\
    map (fun r => (VectorResult.id r, VectorResult.score r)) results
    = [("api-security-1", (1 - (2 # 10))%Q); ("cloud-hosting-1", (1 - 0)%Q)] /\
    forall r, In r results -> (3 # 10 <= VectorResult.score r)%Q.
Proof.
  assert (E : exists results,
            semanticSearch "security" (SemanticOptions.mk 20 None None (3 # 10))
              (mkService false threeRecords)
            = (mkService true threeRecords, Ok results) /\
            map (fun r => (VectorResult.id r, VectorResult.score r)) results
            = [("api-security-1", (1 - (2 # 10))%Q); ("cloud-hosting-1", (1 - 0)%Q)])
    by (eexists; split; reflexivity).
  destruct E as (results & E & Hscores). exists results.
  split; [now rewrite E |]. split; [exact Hscores |].
  exact (proj1 (proj2 (semanticSearch_scores _ _ _ _ _ E)) eq_refl).
Defined.

Lemma semantic_only_document_witness :
  standardOfVector (recordOf apiSecurity (8 # 10)) = Ok (reconstructed apiSecurity)
  /\ Standard.content (reconstructed apiSecurity) <> Standard.content apiSecurity.
Proof.
  split.
  - apply (semantic_only_document (runtime := platform) apiSecurity (8 # 10)).
    by_computation.
  - vm_compute. discriminate.
Defined.


End OnSample.

End VectorStorageProperties.
